(** * Turn sequencing, clocks and coordinate mapping of the chess front end

    A shallow embedding of [enhanced_chess.py] ([ChessGame]): the session
    state is a record, one pass of the event loop of [ChessGame.run] is a
    function on that record, and the collaborators the program delegates to
    (the rules library, the engine process, the wall clock, the pointer) are
    inputs of those functions. *)

From Stdlib Require Import ZArith QArith Qround Lqa Lia Ascii String.
From stdpp Require Import base option list strings gmap pretty.

Local Open Scope Z_scope.

(** ** Layout constants *)

Definition WINDOW_SIZE : Z := 1000.
Definition BOARD_SIZE : Z := 600.
Definition SQUARE_SIZE : Z := BOARD_SIZE / 8.
Definition MARGIN : Z := 50.

(** ** The squares of the rules library

    [chess.Square] is an [int] in [0, 64); [chess.square_file],
    [chess.square_rank] and [chess.square] are the library's one-line bit
    manipulations. *)

Definition Square := Z.

Definition square_file (sq : Square) : Z := Z.land sq 7.
Definition square_rank (sq : Square) : Z := Z.shiftr sq 3.
Definition chess_square (file rank : Z) : Square := rank * 8 + file.

(** [player_color] is [None] before the choice, [True] for White and [False]
    for Black; the code only ever tests its truth value. *)

Definition truthy (player_color : option bool) : bool :=
  match player_color with
  | Some true => true
  | _ => false
  end.

(** ** Coordinate mapping *)

Definition square_to_pixel (player_color : option bool) (square : Square) : Z * Z :=
  let rank := square_rank square in
  let file := square_file square in
  let rank := if truthy player_color then 7 - rank else rank in
  let x := MARGIN + file * SQUARE_SIZE in
  let y := MARGIN + rank * SQUARE_SIZE in
  (x, y).

Definition pixel_to_square (player_color : option bool) (pos : Z * Z) : option Square :=
  let '(x, y) := pos in
  if negb ((MARGIN <=? x) && (x <? MARGIN + BOARD_SIZE) &&
           (MARGIN <=? y) && (y <? MARGIN + BOARD_SIZE))
  then None
  else
    let file := (x - MARGIN) / SQUARE_SIZE in
    let rank := (y - MARGIN) / SQUARE_SIZE in
    let rank := if truthy player_color then 7 - rank else rank in
    if (0 <=? file) && (file <? 8) && (0 <=? rank) && (rank <? 8)
    then Some (chess_square file rank)
    else None.

(** [pygame.Rect(left, top, width, height).collidepoint(pos)]. *)

Record Rect := { left : Z; top : Z; width : Z; height : Z }.

Definition collidepoint (r : Rect) (pos : Z * Z) : bool :=
  (left r <=? pos.1) && (pos.1 <? left r + width r) &&
  (top r <=? pos.2) && (pos.2 <? top r + height r).

(** The on-screen rectangle of a square, as [draw_highlights] paints it. *)

Definition square_rect (player_color : option bool) (square : Square) : Rect :=
  let '(x, y) := square_to_pixel player_color square in
  {| left := x; top := y; width := SQUARE_SIZE; height := SQUARE_SIZE |}.

(** ** Pieces and moves of the rules library

    [chess.Piece] carries a piece type and a colour ([chess.WHITE] is [True]);
    [chess.Move] carries two squares and an optional promotion piece. *)

Inductive PieceType := PAWN | KNIGHT | BISHOP | ROOK | QUEEN | KING.

Record Piece := { piece_type : PieceType; color : bool }.

Record Move := { from_square : Square; to_square : Square; promotion : option PieceType }.

#[global] Instance PieceType_eq_dec : EqDecision PieceType.
Proof. solve_decision. Defined.

#[global] Instance Piece_eq_dec : EqDecision Piece.
Proof. solve_decision. Defined.

#[global] Instance Move_eq_dec : EqDecision Move.
Proof. solve_decision. Defined.

Definition WHITE : bool := true.
Definition BLACK : bool := false.

Definition piece_symbol (pt : PieceType) : string :=
  match pt with
  | PAWN => "p" | KNIGHT => "n" | BISHOP => "b"
  | ROOK => "r" | QUEEN => "q" | KING => "k"
  end.

Definition ascii_upper (c : ascii) : ascii :=
  let n := nat_of_ascii c in
  if (97 <=? n)%nat && (n <=? 122)%nat then ascii_of_nat (n - 32) else c.

Definition ascii_lower (c : ascii) : ascii :=
  let n := nat_of_ascii c in
  if (65 <=? n)%nat && (n <=? 90)%nat then ascii_of_nat (n + 32) else c.

Fixpoint upper (s : string) : string :=
  match s with
  | EmptyString => EmptyString
  | String c r => String (ascii_upper c) (upper r)
  end.

Fixpoint lower (s : string) : string :=
  match s with
  | EmptyString => EmptyString
  | String c r => String (ascii_lower c) (lower r)
  end.

(** [Piece.symbol()]: upper case for White, lower case for Black. *)

Definition symbol (p : Piece) : string :=
  if color p then upper (piece_symbol (piece_type p)) else piece_symbol (piece_type p).

(** [Move.__bool__]: only the null move is false. *)

Definition move_bool (m : Move) : bool :=
  negb ((from_square m =? 0) && (to_square m =? 0) && bool_decide (promotion m = None)).

(** ** Exceptions *)

Inductive PyExn := IndexError | KeyError.

Inductive Res (A : Type) :=
| Ok (a : A)
| Raise (e : PyExn).

Arguments Ok {A} a.
Arguments Raise {A} e.

#[global] Instance Res_ret : MRet Res := fun A a => Ok a.

#[global] Instance Res_bind : MBind Res := fun A B f r =>
  match r with
  | Ok a => f a
  | Raise e => Raise e
  end.

(** [d[k]] on a dict and [l.pop()] on a list. *)

Definition dict_get {V : Type} (d : gmap string V) (k : string) : Res V :=
  match d !! k with
  | Some v => Ok v
  | None => Raise KeyError
  end.

Definition list_pop {A : Type} (l : list A) : Res (list A) :=
  match l with
  | [] => Raise IndexError
  | _ => Ok (removelast l)
  end.

(** ** The rules collaborator

    The rules library is not part of the repository: the development is
    parametric in what [chess.Board] answers on a position.  A [Position] is
    everything the library's queries depend on; the board adds the stack that
    [push] and [pop] maintain. *)

Class Rules := {
  Position : Type;
  starting_position : Position;
  position_turn : Position -> bool;
  position_piece_at : Position -> Square -> option Piece;
  position_legal_moves : Position -> list Move;
  position_san : Position -> Move -> string;
  position_push : Position -> Move -> Position;
  position_is_game_over : Position -> bool;
  position_is_checkmate : Position -> bool
}.

Section Board.
Context {R : Rules}.

Record Board := { current : Position; move_stack : list (Position * Move) }.

Definition Board_new : Board :=
  {| current := starting_position; move_stack := [] |}.

Definition turn (b : Board) : bool := position_turn (current b).
Definition piece_at (b : Board) (sq : Square) : option Piece := position_piece_at (current b) sq.
Definition legal_moves (b : Board) : list Move := position_legal_moves (current b).
Definition san (b : Board) (m : Move) : string := position_san (current b) m.
Definition is_game_over (b : Board) : bool := position_is_game_over (current b).
Definition is_checkmate (b : Board) : bool := position_is_checkmate (current b).

Definition push (b : Board) (m : Move) : Board :=
  {| current := position_push (current b) m;
     move_stack := (current b, m) :: move_stack b |}.

(** [Board.pop()] restores the position before the last move and raises
    [IndexError] on an empty stack. *)

Definition pop (b : Board) : Res Board :=
  match move_stack b with
  | [] => Raise IndexError
  | (p, _) :: rest => Ok {| current := p; move_stack := rest |}
  end.

End Board.

(** ** Session state

    The attributes of [ChessGame].  [engine] records whether [init_stockfish]
    obtained a process handle; the sprite cache plays no part in sequencing
    and is left out.  Clock readings are rationals: the arithmetic of
    [update_timer] is taken as exact. *)

Section Session.
Context {R : Rules}.

Record ChessGame := {
  board : Board;
  selected_square : option Square;
  valid_moves : list Move;
  last_move : option Move;
  game_over : bool;
  ai_thinking : bool;
  move_history : list string;
  captured_pieces : gmap string (list string);
  selected_piece : option string;
  selected_piece_pos : option (Z * Z);
  player_color : option bool;
  white_time : Q;
  black_time : Q;
  last_time : Q;
  game_started : bool;
  checkmate_popup : bool;
  winner : option string;
  engine : bool
}.

(** Assignment to one attribute, [self.f = v]. *)

Definition set_board (v : Board) (self : ChessGame) : ChessGame :=
  {| board := v; selected_square := selected_square self; valid_moves := valid_moves self;
     last_move := last_move self; game_over := game_over self;
     ai_thinking := ai_thinking self; move_history := move_history self;
     captured_pieces := captured_pieces self; selected_piece := selected_piece self;
     selected_piece_pos := selected_piece_pos self; player_color := player_color self;
     white_time := white_time self; black_time := black_time self;
     last_time := last_time self; game_started := game_started self;
     checkmate_popup := checkmate_popup self; winner := winner self; engine := engine self |}.

Definition set_selected_square (v : option Square) (self : ChessGame) : ChessGame :=
  {| board := board self; selected_square := v; valid_moves := valid_moves self;
     last_move := last_move self; game_over := game_over self;
     ai_thinking := ai_thinking self; move_history := move_history self;
     captured_pieces := captured_pieces self; selected_piece := selected_piece self;
     selected_piece_pos := selected_piece_pos self; player_color := player_color self;
     white_time := white_time self; black_time := black_time self;
     last_time := last_time self; game_started := game_started self;
     checkmate_popup := checkmate_popup self; winner := winner self; engine := engine self |}.

Definition set_valid_moves (v : list Move) (self : ChessGame) : ChessGame :=
  {| board := board self; selected_square := selected_square self; valid_moves := v;
     last_move := last_move self; game_over := game_over self;
     ai_thinking := ai_thinking self; move_history := move_history self;
     captured_pieces := captured_pieces self; selected_piece := selected_piece self;
     selected_piece_pos := selected_piece_pos self; player_color := player_color self;
     white_time := white_time self; black_time := black_time self;
     last_time := last_time self; game_started := game_started self;
     checkmate_popup := checkmate_popup self; winner := winner self; engine := engine self |}.

Definition set_last_move (v : option Move) (self : ChessGame) : ChessGame :=
  {| board := board self; selected_square := selected_square self;
     valid_moves := valid_moves self; last_move := v; game_over := game_over self;
     ai_thinking := ai_thinking self; move_history := move_history self;
     captured_pieces := captured_pieces self; selected_piece := selected_piece self;
     selected_piece_pos := selected_piece_pos self; player_color := player_color self;
     white_time := white_time self; black_time := black_time self;
     last_time := last_time self; game_started := game_started self;
     checkmate_popup := checkmate_popup self; winner := winner self; engine := engine self |}.

Definition set_game_over (v : bool) (self : ChessGame) : ChessGame :=
  {| board := board self; selected_square := selected_square self;
     valid_moves := valid_moves self; last_move := last_move self; game_over := v;
     ai_thinking := ai_thinking self; move_history := move_history self;
     captured_pieces := captured_pieces self; selected_piece := selected_piece self;
     selected_piece_pos := selected_piece_pos self; player_color := player_color self;
     white_time := white_time self; black_time := black_time self;
     last_time := last_time self; game_started := game_started self;
     checkmate_popup := checkmate_popup self; winner := winner self; engine := engine self |}.

Definition set_ai_thinking (v : bool) (self : ChessGame) : ChessGame :=
  {| board := board self; selected_square := selected_square self;
     valid_moves := valid_moves self; last_move := last_move self;
     game_over := game_over self; ai_thinking := v; move_history := move_history self;
     captured_pieces := captured_pieces self; selected_piece := selected_piece self;
     selected_piece_pos := selected_piece_pos self; player_color := player_color self;
     white_time := white_time self; black_time := black_time self;
     last_time := last_time self; game_started := game_started self;
     checkmate_popup := checkmate_popup self; winner := winner self; engine := engine self |}.

Definition set_move_history (v : list string) (self : ChessGame) : ChessGame :=
  {| board := board self; selected_square := selected_square self;
     valid_moves := valid_moves self; last_move := last_move self;
     game_over := game_over self; ai_thinking := ai_thinking self; move_history := v;
     captured_pieces := captured_pieces self; selected_piece := selected_piece self;
     selected_piece_pos := selected_piece_pos self; player_color := player_color self;
     white_time := white_time self; black_time := black_time self;
     last_time := last_time self; game_started := game_started self;
     checkmate_popup := checkmate_popup self; winner := winner self; engine := engine self |}.

Definition set_captured_pieces (v : gmap string (list string)) (self : ChessGame) : ChessGame :=
  {| board := board self; selected_square := selected_square self;
     valid_moves := valid_moves self; last_move := last_move self;
     game_over := game_over self; ai_thinking := ai_thinking self;
     move_history := move_history self; captured_pieces := v;
     selected_piece := selected_piece self; selected_piece_pos := selected_piece_pos self;
     player_color := player_color self; white_time := white_time self;
     black_time := black_time self; last_time := last_time self;
     game_started := game_started self; checkmate_popup := checkmate_popup self;
     winner := winner self; engine := engine self |}.

Definition set_selected_piece (v : option string) (self : ChessGame) : ChessGame :=
  {| board := board self; selected_square := selected_square self;
     valid_moves := valid_moves self; last_move := last_move self;
     game_over := game_over self; ai_thinking := ai_thinking self;
     move_history := move_history self; captured_pieces := captured_pieces self;
     selected_piece := v; selected_piece_pos := selected_piece_pos self;
     player_color := player_color self; white_time := white_time self;
     black_time := black_time self; last_time := last_time self;
     game_started := game_started self; checkmate_popup := checkmate_popup self;
     winner := winner self; engine := engine self |}.

Definition set_selected_piece_pos (v : option (Z * Z)) (self : ChessGame) : ChessGame :=
  {| board := board self; selected_square := selected_square self;
     valid_moves := valid_moves self; last_move := last_move self;
     game_over := game_over self; ai_thinking := ai_thinking self;
     move_history := move_history self; captured_pieces := captured_pieces self;
     selected_piece := selected_piece self; selected_piece_pos := v;
     player_color := player_color self; white_time := white_time self;
     black_time := black_time self; last_time := last_time self;
     game_started := game_started self; checkmate_popup := checkmate_popup self;
     winner := winner self; engine := engine self |}.

Definition set_player_color (v : option bool) (self : ChessGame) : ChessGame :=
  {| board := board self; selected_square := selected_square self;
     valid_moves := valid_moves self; last_move := last_move self;
     game_over := game_over self; ai_thinking := ai_thinking self;
     move_history := move_history self; captured_pieces := captured_pieces self;
     selected_piece := selected_piece self; selected_piece_pos := selected_piece_pos self;
     player_color := v; white_time := white_time self; black_time := black_time self;
     last_time := last_time self; game_started := game_started self;
     checkmate_popup := checkmate_popup self; winner := winner self; engine := engine self |}.

Definition set_white_time (v : Q) (self : ChessGame) : ChessGame :=
  {| board := board self; selected_square := selected_square self;
     valid_moves := valid_moves self; last_move := last_move self;
     game_over := game_over self; ai_thinking := ai_thinking self;
     move_history := move_history self; captured_pieces := captured_pieces self;
     selected_piece := selected_piece self; selected_piece_pos := selected_piece_pos self;
     player_color := player_color self; white_time := v; black_time := black_time self;
     last_time := last_time self; game_started := game_started self;
     checkmate_popup := checkmate_popup self; winner := winner self; engine := engine self |}.

Definition set_black_time (v : Q) (self : ChessGame) : ChessGame :=
  {| board := board self; selected_square := selected_square self;
     valid_moves := valid_moves self; last_move := last_move self;
     game_over := game_over self; ai_thinking := ai_thinking self;
     move_history := move_history self; captured_pieces := captured_pieces self;
     selected_piece := selected_piece self; selected_piece_pos := selected_piece_pos self;
     player_color := player_color self; white_time := white_time self; black_time := v;
     last_time := last_time self; game_started := game_started self;
     checkmate_popup := checkmate_popup self; winner := winner self; engine := engine self |}.

Definition set_last_time (v : Q) (self : ChessGame) : ChessGame :=
  {| board := board self; selected_square := selected_square self;
     valid_moves := valid_moves self; last_move := last_move self;
     game_over := game_over self; ai_thinking := ai_thinking self;
     move_history := move_history self; captured_pieces := captured_pieces self;
     selected_piece := selected_piece self; selected_piece_pos := selected_piece_pos self;
     player_color := player_color self; white_time := white_time self;
     black_time := black_time self; last_time := v; game_started := game_started self;
     checkmate_popup := checkmate_popup self; winner := winner self; engine := engine self |}.

Definition set_game_started (v : bool) (self : ChessGame) : ChessGame :=
  {| board := board self; selected_square := selected_square self;
     valid_moves := valid_moves self; last_move := last_move self;
     game_over := game_over self; ai_thinking := ai_thinking self;
     move_history := move_history self; captured_pieces := captured_pieces self;
     selected_piece := selected_piece self; selected_piece_pos := selected_piece_pos self;
     player_color := player_color self; white_time := white_time self;
     black_time := black_time self; last_time := last_time self; game_started := v;
     checkmate_popup := checkmate_popup self; winner := winner self; engine := engine self |}.

Definition set_checkmate_popup (v : bool) (self : ChessGame) : ChessGame :=
  {| board := board self; selected_square := selected_square self;
     valid_moves := valid_moves self; last_move := last_move self;
     game_over := game_over self; ai_thinking := ai_thinking self;
     move_history := move_history self; captured_pieces := captured_pieces self;
     selected_piece := selected_piece self; selected_piece_pos := selected_piece_pos self;
     player_color := player_color self; white_time := white_time self;
     black_time := black_time self; last_time := last_time self;
     game_started := game_started self; checkmate_popup := v; winner := winner self;
     engine := engine self |}.

Definition set_winner (v : option string) (self : ChessGame) : ChessGame :=
  {| board := board self; selected_square := selected_square self;
     valid_moves := valid_moves self; last_move := last_move self;
     game_over := game_over self; ai_thinking := ai_thinking self;
     move_history := move_history self; captured_pieces := captured_pieces self;
     selected_piece := selected_piece self; selected_piece_pos := selected_piece_pos self;
     player_color := player_color self; white_time := white_time self;
     black_time := black_time self; last_time := last_time self;
     game_started := game_started self; checkmate_popup := checkmate_popup self; winner := v;
     engine := engine self |}.

(** ** Constructor and reset

    [__init__] and [reset_game] perform the same assignments; both read the
    wall clock and search for the engine ([stockfish] tells whether
    [init_stockfish] returned a handle). *)

Definition ChessGame_init (now : Q) (stockfish : bool) : ChessGame :=
  {| board := Board_new;
     selected_square := None;
     valid_moves := [];
     last_move := None;
     game_over := false;
     ai_thinking := false;
     move_history := [];
     captured_pieces := <["b" := []]> (<["w" := []]> ∅);
     selected_piece := None;
     selected_piece_pos := None;
     player_color := None;
     white_time := 600;
     black_time := 600;
     last_time := now;
     game_started := false;
     checkmate_popup := false;
     winner := None;
     engine := stockfish |}.

Definition reset_game (now : Q) (stockfish : bool) (self : ChessGame) : ChessGame :=
  {| board := Board_new;
     selected_square := None;
     valid_moves := [];
     last_move := None;
     game_over := false;
     ai_thinking := false;
     move_history := [];
     captured_pieces := <["b" := []]> (<["w" := []]> ∅);
     selected_piece := None;
     selected_piece_pos := None;
     player_color := None;
     white_time := 600;
     black_time := 600;
     last_time := now;
     game_started := false;
     checkmate_popup := false;
     winner := None;
     engine := stockfish |}.

(** ** Clocks *)

Definition update_timer (current_time : Q) (self : ChessGame) : ChessGame :=
  if negb (game_started self) || game_over self then self
  else
    let elapsed := (current_time - last_time self)%Q in
    let self :=
      if bool_decide (turn (board self) = WHITE)
      then set_white_time (white_time self - elapsed)%Q self
      else set_black_time (black_time self - elapsed)%Q self in
    let self := set_last_time current_time self in
    if Qle_bool (white_time self) 0 then
      set_checkmate_popup true (set_winner (Some "Black") (set_game_over true self))
    else if Qle_bool (black_time self) 0 then
      set_checkmate_popup true (set_winner (Some "White") (set_game_over true self))
    else self.

(** The state after the decrement and before the check. *)

Definition ticked (now : Q) (self : ChessGame) : ChessGame :=
  set_last_time now
    (if bool_decide (turn (board self) = WHITE)
     then set_white_time (white_time self - (now - last_time self))%Q self
     else set_black_time (black_time self - (now - last_time self))%Q self).

(** ** The outcome announcement

    [draw_checkmate_popup] draws nothing and returns [None] unless the popup
    flag is set; otherwise it announces [winner] and returns the rectangle of
    its "New Game" button. *)

Definition str_bool (s : string) : bool := negb (bool_decide (s = "")).

Definition announcement (self : ChessGame) : string :=
  match winner self with
  | Some w => if str_bool w then w +:+ " wins!" else "Draw!"
  | None => "Draw!"
  end.

Definition button_rect : Rect :=
  {| left := (WINDOW_SIZE - 200) / 2; top := WINDOW_SIZE - 100; width := 200; height := 50 |}.

Definition draw_checkmate_popup (self : ChessGame) : option (string * Rect) :=
  if negb (checkmate_popup self) then None
  else Some (announcement self, button_rect).

(** The two buttons that [draw_color_selection] returns. *)

Definition white_rect : Rect :=
  {| left := WINDOW_SIZE / 4; top := 300; width := 200; height := 60 |}.

Definition black_rect : Rect :=
  {| left := WINDOW_SIZE * 3 / 4 - 200; top := 300; width := 200; height := 60 |}.

(** ** The engine collaborator

    One call of [engine.play] either returns a result, whose [move] may be
    [None], or raises. *)

Inductive EnginePlay :=
| Played (move : option Move)
| Failed.

Definition get_ai_move (play : EnginePlay) (self : ChessGame) : option Move :=
  if negb (engine self) then None
  else
    match play with
    | Played move => move
    | Failed => None
    end.

(** The condition [ai_move and ai_move in self.board.legal_moves]. *)

Definition playable (self : ChessGame) (ai_move : option Move) : option Move :=
  match ai_move with
  | Some m =>
      if move_bool m && bool_decide (m ∈ legal_moves (board self)) then Some m else None
  | None => None
  end.

(** ** Events and ambient inputs *)

Inductive Key := K_r | K_u | K_other.

Inductive Event :=
| QUIT
| MOUSEBUTTONDOWN (pos : Z * Z) (button : Z)
| MOUSEBUTTONUP (pos : Z * Z) (button : Z)
| MOUSEMOTION (pos : Z * Z)
| KEYDOWN (key : Key)
| OTHER.

(** What the program reads from its environment while it handles one event
    or finishes one frame: [pygame.mouse.get_pos()], [time.time()], the
    outcome of a search for the engine and the outcome of [engine.play]. *)

Record Ambient := {
  mouse_get_pos : Z * Z;
  time_time : Q;
  stockfish_found : bool;
  engine_play : EnginePlay
}.

(** The locals of [run] next to the session. *)

Record Loop := { self_ : ChessGame; color_selection : bool; running : bool }.

Definition with_self (l : Loop) (self : ChessGame) : Loop :=
  {| self_ := self; color_selection := color_selection l; running := running l |}.

(** [self.captured_pieces[color].append(kind)] for the piece standing on the
    destination, if any. *)

Definition record_capture (target : Square) (self : ChessGame) : Res ChessGame :=
  match piece_at (board self) target with
  | Some captured_piece =>
      let color := if bool_decide (color captured_piece = WHITE) then "w" else "b" in
      tally ← dict_get (captured_pieces self) color;
      Ok (set_captured_pieces
            (<[color := tally ++ [upper (symbol captured_piece)]]> (captured_pieces self)) self)
  | None => Ok self
  end.

(** The engine's first move as White, made inside the colour selection. *)

Definition first_ai_move (play : EnginePlay) (self : ChessGame) : ChessGame :=
  match playable self (get_ai_move play self) with
  | Some ai_move =>
      let move_san := san (board self) ai_move in
      let self := set_board (push (board self) ai_move) self in
      let self := set_move_history (move_history self ++ [move_san]) self in
      set_last_move (Some ai_move) self
  | None => self
  end.

(** A left press on the board. *)

Definition press (pos : Z * Z) (self : ChessGame) : ChessGame :=
  match pixel_to_square (player_color self) pos with
  | Some square =>
      match piece_at (board self) square with
      | Some piece =>
          if bool_decide (color piece = turn (board self)) &&
             ((truthy (player_color self) && bool_decide (color piece = WHITE)) ||
              (negb (truthy (player_color self)) && bool_decide (color piece = BLACK)))
          then
            let self := set_selected_square (Some square) self in
            let self := set_valid_moves
                          (filter (λ move, from_square move = square) (legal_moves (board self)))
                          self in
            let self := set_selected_piece
                          (Some ((if bool_decide (color piece = WHITE) then "w" else "b")
                                 +:+ lower (symbol piece))) self in
            set_selected_piece_pos (Some pos) self
          else self
      | None => self
      end
  | None => self
  end.

(** A left release while a square is selected. *)

Definition release (selected : Square) (pos : Z * Z) (self : ChessGame) : Res ChessGame :=
  self ←
    match pixel_to_square (player_color self) pos with
    | Some target_square =>
        let move := {| from_square := selected; to_square := target_square; promotion := None |} in
        if bool_decide (move ∈ valid_moves self) then
          let move_san := san (board self) move in
          self ← record_capture target_square self;
          let self := set_board (push (board self) move) self in
          let self := set_move_history (move_history self ++ [move_san]) self in
          let self := set_last_move (Some move) self in
          if is_game_over (board self) then
            let self := set_game_over true self in
            let self :=
              if is_checkmate (board self)
              then set_winner (Some (if negb (turn (board self)) then "White" else "Black")) self
              else self in
            Ok (set_checkmate_popup true self)
          else Ok (set_ai_thinking true self)
        else Ok self
    | None => Ok self
    end;
  let self := set_selected_square None self in
  let self := set_valid_moves [] self in
  let self := set_selected_piece None self in
  Ok (set_selected_piece_pos None self).

(** The [K_u] branch. *)

Definition undo (self : ChessGame) : Res ChessGame :=
  b ← pop (board self);
  b ← pop b;
  h ← list_pop (move_history self);
  h ← list_pop h;
  let self := set_move_history h (set_board b self) in
  let self := set_game_over false self in
  let self := set_checkmate_popup false self in
  let self := set_ai_thinking false self in
  let self := set_selected_square None self in
  let self := set_valid_moves [] self in
  let self := set_selected_piece None self in
  Ok (set_selected_piece_pos None self).

(** ** One event of the loop

    The body of [for event in pygame.event.get()].  The [elif] chain is keyed
    on the event type: when the guard of the branch for an event's type
    fails, no later branch matches it. *)

Definition handle_event (amb : Ambient) (l : Loop) (event : Event) : Res Loop :=
  let self := self_ l in
  match event with
  | QUIT => Ok {| self_ := self; color_selection := color_selection l; running := false |}
  | _ =>
    if color_selection l then
      match event with
      | MOUSEBUTTONDOWN mouse_pos _ =>
          if collidepoint white_rect mouse_pos then
            let self := set_player_color (Some true) self in
            let self := set_game_started true self in
            Ok {| self_ := self; color_selection := false; running := running l |}
          else if collidepoint black_rect mouse_pos then
            let self := set_player_color (Some false) self in
            let self := set_game_started true self in
            let self := first_ai_move (engine_play amb) self in
            Ok {| self_ := self; color_selection := false; running := running l |}
          else Ok l
      | _ => Ok l
      end
    else
      match event with
      | MOUSEBUTTONDOWN pos button =>
          if negb (game_over self) && negb (ai_thinking self) then
            if button =? 1 then
              if checkmate_popup self then
                match draw_checkmate_popup self with
                | Some (_, button_rect) =>
                    if collidepoint button_rect pos then
                      Ok {| self_ := reset_game (time_time amb) (stockfish_found amb) self;
                            color_selection := true; running := running l |}
                    else Ok l
                | None => Ok l
                end
              else Ok (with_self l (press (mouse_get_pos amb) self))
            else Ok l
          else Ok l
      | MOUSEBUTTONUP _ button =>
          if negb (game_over self) && negb (ai_thinking self) then
            match selected_square self with
            | Some selected =>
                if button =? 1 then
                  self ← release selected (mouse_get_pos amb) self;
                  Ok (with_self l self)
                else Ok l
            | None => Ok l
            end
          else Ok l
      | MOUSEMOTION pos =>
          match selected_piece self with
          | Some name =>
              if str_bool name then Ok (with_self l (set_selected_piece_pos (Some pos) self))
              else Ok l
          | None => Ok l
          end
      | KEYDOWN K_r =>
          Ok {| self_ := reset_game (time_time amb) (stockfish_found amb) self;
                color_selection := true; running := running l |}
      | KEYDOWN K_u =>
          if (2 <=? length (move_history self))%nat then
            self ← undo self;
            Ok (with_self l self)
          else Ok l
      | _ => Ok l
      end
  end.

(** ** The rest of a frame

    After the events: the engine's turn, then the clocks.  Drawing changes no
    state. *)

Definition ai_turn (play : EnginePlay) (self : ChessGame) : Res ChessGame :=
  self ←
    match playable self (get_ai_move play self) with
    | Some ai_move =>
        let move_san := san (board self) ai_move in
        self ← record_capture (to_square ai_move) self;
        let self := set_board (push (board self) ai_move) self in
        let self := set_move_history (move_history self ++ [move_san]) self in
        let self := set_last_move (Some ai_move) self in
        if is_game_over (board self) then
          let self := set_game_over true self in
          let self :=
            if is_checkmate (board self)
            then set_winner (Some (if negb (turn (board self)) then "White" else "Black")) self
            else self in
          Ok (set_checkmate_popup true self)
        else Ok self
    | None => Ok self
    end;
  Ok (set_ai_thinking false self).

Definition end_of_frame (amb : Ambient) (l : Loop) : Res Loop :=
  if negb (color_selection l) then
    let self := self_ l in
    self ←
      (if ai_thinking self && negb (game_over self)
       then ai_turn (engine_play amb) self
       else Ok self);
    Ok (with_self l (update_timer (time_time amb) self))
  else Ok l.

Fixpoint handle_events (l : Loop) (events : list (Ambient * Event)) : Res Loop :=
  match events with
  | [] => Ok l
  | (amb, event) :: rest =>
      l ← handle_event amb l event;
      handle_events l rest
  end.

(** One iteration of [while running]: the queued events, each with what the
    environment answers while it is handled, then the rest of the frame. *)

Definition frame (l : Loop) (events : list (Ambient * Event)) (amb : Ambient) : Res Loop :=
  l ← handle_events l events;
  end_of_frame amb l.

Fixpoint run (l : Loop) (frames : list (list (Ambient * Event) * Ambient)) : Res Loop :=
  match frames with
  | [] => Ok l
  | (events, amb) :: rest =>
      if running l then
        l ← frame l events amb;
        run l rest
      else Ok l
  end.

Definition start (now : Q) (stockfish : bool) : Loop :=
  {| self_ := ChessGame_init now stockfish; color_selection := true; running := true |}.

(** ** The states of the turn sequencer, read off the flags *)

Inductive Phase := ColorSelection | HumanTurn | EngineTurn | GameOver.

Definition phase (l : Loop) : Phase :=
  if color_selection l then ColorSelection
  else if game_over (self_ l) then GameOver
  else if ai_thinking (self_ l) then EngineTurn
  else HumanTurn.

(** The selection state: the selected square, its legal destinations, and
    the dragged piece with its position. *)

Definition selection_empty (self : ChessGame) : Prop :=
  selected_square self = None /\ valid_moves self = [] /\
  selected_piece self = None /\ selected_piece_pos self = None.

(** The states a run can be in. *)

Inductive reachable : Loop -> Prop :=
| reachable_start now stockfish :
    reachable (start now stockfish)
| reachable_event l amb event l' :
    reachable l -> handle_event amb l event = Ok l' -> reachable l'
| reachable_end_of_frame l amb l' :
    reachable l -> end_of_frame amb l = Ok l' -> reachable l'.

(** ** The parts of a ply

    Names for what the three places that apply a move have in common: the
    state once the move is on the board and in the log ([self0] is the state
    after the capture was recorded), the state once the end of the game was
    noticed, and the state with the selection cleared. *)

Definition applied (m : Move) (self self0 : ChessGame) : ChessGame :=
  set_last_move (Some m)
    (set_move_history (move_history self0 ++ [san (board self) m])
       (set_board (push (board self0) m) self0)).

Definition concluded (self : ChessGame) : ChessGame :=
  set_checkmate_popup true
    (if is_checkmate (board self)
     then set_winner (Some (if negb (turn (board self)) then "White" else "Black"))
            (set_game_over true self)
     else set_game_over true self).

Definition deselected (self : ChessGame) : ChessGame :=
  set_selected_piece_pos None
    (set_selected_piece None (set_valid_moves [] (set_selected_square None self))).

Definition tally_key (p : Piece) : string :=
  if bool_decide (color p = WHITE) then "w" else "b".

Definition fresh_tallies : gmap string (list string) := <["b" := []]> (<["w" := []]> ∅).

(** How one step may change the tallies: not at all, by a reset, or by
    appending the kind of the piece that stood on the destination of the move
    just pushed, under the key of that piece's colour. *)

Inductive tally_change (self self' : ChessGame) : Prop :=
| tally_same :
    captured_pieces self' = captured_pieces self -> tally_change self self'
| tally_reset :
    captured_pieces self' = fresh_tallies -> move_history self' = [] ->
    tally_change self self'
| tally_capture m p tally :
    board self' = push (board self) m ->
    piece_at (board self) (to_square m) = Some p ->
    captured_pieces self !! tally_key p = Some tally ->
    captured_pieces self' =
      <[tally_key p := tally ++ [upper (symbol p)]]> (captured_pieces self) ->
    tally_change self self'.

(** A side's capture tally.  The code keeps one list per colour of the
    pieces taken off the board and never reads them back; the pieces a side
    has taken are therefore the list kept under the other colour. *)

Definition side_key (side : bool) : string :=
  if bool_decide (side = WHITE) then "w" else "b".

Definition taken_by (side : bool) (self : ChessGame) : option (list string) :=
  captured_pieces self !! side_key (negb side).

(** [side] takes the piece [p] with the move [m]: [record_capture] appends
    the kind of [p] to the side's tally while the board is still the one
    before the move, then the move is pushed; the other side's tally is as
    it was. *)

Definition takes (side : bool) (p : Piece) (m : Move) (self self' : ChessGame) : Prop :=
  exists tally self0,
    taken_by side self = Some tally /\
    record_capture (to_square m) self = Ok self0 /\
    board self0 = board self /\
    taken_by side self0 = Some (tally ++ [upper (symbol p)]) /\
    board self' = push (board self) m /\
    captured_pieces self' = captured_pieces self0 /\
    taken_by side self' = Some (tally ++ [upper (symbol p)]) /\
    taken_by (negb side) self' = taken_by (negb side) self.

(** How one step may change a side's tally: not at all, by the start of a
    new game with fresh tallies, or by the append of the kind of a piece of
    the other colour that stood on the destination of the move just
    pushed. *)

Definition tally_step (side : bool) (self self' : ChessGame) : Prop :=
  taken_by side self' = taken_by side self \/
  (captured_pieces self' = fresh_tallies /\ move_history self' = []) \/
  exists m p tally,
    board self' = push (board self) m /\
    piece_at (board self) (to_square m) = Some p /\
    color p = negb side /\
    taken_by side self = Some tally /\
    taken_by side self' = Some (tally ++ [upper (symbol p)]).


(** ** Consistency of a session

    What every state of a run satisfies: the board was reached from the
    starting position by pushes, the history log lists the notation of the
    moves on the board's stack (each taken on the position before the move),
    both tallies exist, and the flags and the selection fit together. *)

Inductive played : Board -> Prop :=
| played_new : played Board_new
| played_push b m : played b -> played (push b m).

Definition history_of (b : Board) : list string :=
  reverse ((λ pm, position_san pm.1 pm.2) <$> move_stack b).

Record consistent (l : Loop) : Prop := {
  c_played : played (board (self_ l));
  c_history : move_history (self_ l) = history_of (board (self_ l));
  c_tally_w : is_Some (captured_pieces (self_ l) !! "w");
  c_tally_b : is_Some (captured_pieces (self_ l) !! "b");
  c_popup : checkmate_popup (self_ l) = game_over (self_ l);
  c_started : game_started (self_ l) = negb (color_selection l);
  c_choice : color_selection l = false -> is_Some (player_color (self_ l));
  c_fresh : color_selection l = true ->
            board (self_ l) = Board_new /\ game_over (self_ l) = false /\
            ai_thinking (self_ l) = false /\ selected_square (self_ l) = None;
  c_selection : selected_square (self_ l) = None -> selection_empty (self_ l);
  c_selected : forall sq, selected_square (self_ l) = Some sq ->
               color_selection l = false /\ ai_thinking (self_ l) = false /\
               player_color (self_ l) = Some (turn (board (self_ l)))
}.

End Session.

(** ** A rules collaborator to run games on

    [Mini] answers the queries of [Rules] by the moves of chess on an 8x8
    array: sliding, leaping and pawn moves with captures and promotion,
    filtered by king safety, with checkmate and stalemate as the only ends of
    a game.  Castling, en passant and the draws by material, repetition and
    move count are left out, so it agrees with the rules of chess on every
    position where none of these is available.  It serves the concrete runs
    below; the general theorems hold for every instance of [Rules]. *)

Module Mini.

Record Pos := { squares : list (option Piece); side : bool }.

Definition on_board (file rank : Z) : bool :=
  (0 <=? file) && (file <? 8) && (0 <=? rank) && (rank <? 8).

Definition at_square (sqs : list (option Piece)) (sq : Square) : option Piece :=
  if (0 <=? sq) && (sq <? 64) then mjoin (sqs !! Z.to_nat sq) else None.

Definition back_rank (c : bool) : list (option Piece) :=
  (λ pt, Some {| piece_type := pt; color := c |}) <$>
    [ROOK; KNIGHT; BISHOP; QUEEN; KING; BISHOP; KNIGHT; ROOK].

Definition pawn_rank (c : bool) : list (option Piece) :=
  replicate 8 (Some {| piece_type := PAWN; color := c |}).

Definition initial : Pos :=
  {| squares := back_rank WHITE ++ pawn_rank WHITE ++ replicate 32 None ++
                pawn_rank BLACK ++ back_rank BLACK;
     side := WHITE |}.

Definition apply_move (p : Pos) (m : Move) : Pos :=
  let moved := at_square (squares p) (from_square m) in
  let placed :=
    match promotion m, moved with
    | Some pt, Some q => Some {| piece_type := pt; color := color q |}
    | _, _ => moved
    end in
  {| squares := <[Z.to_nat (to_square m) := placed]>
                  (<[Z.to_nat (from_square m) := None]> (squares p));
     side := negb (side p) |}.

Definition own (sqs : list (option Piece)) (c : bool) (sq : Square) : bool :=
  match at_square sqs sq with
  | Some q => bool_decide (color q = c)
  | None => false
  end.

Definition enemy (sqs : list (option Piece)) (c : bool) (sq : Square) : bool :=
  match at_square sqs sq with
  | Some q => negb (bool_decide (color q = c))
  | None => false
  end.

Definition vacant (sqs : list (option Piece)) (sq : Square) : bool :=
  match at_square sqs sq with
  | Some _ => false
  | None => true
  end.

(** Destinations of a leaper (knight, king): each offset that stays on the
    board and does not land on a piece of its own side. *)

Definition leaps (sqs : list (option Piece)) (c : bool) (file rank : Z)
    (offsets : list (Z * Z)) : list Square :=
  omap (λ d, let f := file + d.1 in
             let r := rank + d.2 in
             if on_board f r && negb (own sqs c (chess_square f r))
             then Some (chess_square f r) else None) offsets.

(** Destinations of a slider along one direction: the empty squares up to the
    first piece, and that piece's square when it is an enemy. *)

Fixpoint ray (sqs : list (option Piece)) (c : bool) (fuel : nat)
    (file rank df dr : Z) : list Square :=
  match fuel with
  | O => []
  | S n =>
      let f := file + df in
      let r := rank + dr in
      if on_board f r then
        match at_square sqs (chess_square f r) with
        | None => chess_square f r :: ray sqs c n f r df dr
        | Some q => if bool_decide (color q = c) then [] else [chess_square f r]
        end
      else []
  end.

Definition slides (sqs : list (option Piece)) (c : bool) (file rank : Z)
    (dirs : list (Z * Z)) : list Square :=
  dirs ≫= (λ d, ray sqs c 7 file rank d.1 d.2).

Definition knight_offsets : list (Z * Z) :=
  [(1, 2); (2, 1); (2, -1); (1, -2); (-1, -2); (-2, -1); (-2, 1); (-1, 2)].

Definition king_offsets : list (Z * Z) :=
  [(1, 0); (1, 1); (0, 1); (-1, 1); (-1, 0); (-1, -1); (0, -1); (1, -1)].

Definition rook_dirs : list (Z * Z) := [(1, 0); (0, 1); (-1, 0); (0, -1)].
Definition bishop_dirs : list (Z * Z) := [(1, 1); (-1, 1); (-1, -1); (1, -1)].

Definition pawn_targets (sqs : list (option Piece)) (c : bool) (file rank : Z) : list Square :=
  let dir := if c then 1 else -1 in
  let home := if c then 1 else 6 in
  let one := chess_square file (rank + dir) in
  let two := chess_square file (rank + 2 * dir) in
  (if on_board file (rank + dir) && vacant sqs one then
     one :: (if (rank =? home) && vacant sqs two then [two] else [])
   else []) ++
  omap (λ df, let f := file + df in
              if on_board f (rank + dir) && enemy sqs c (chess_square f (rank + dir))
              then Some (chess_square f (rank + dir)) else None) [-1; 1].

Definition targets (sqs : list (option Piece)) (q : Piece) (sq : Square) : list Square :=
  let file := square_file sq in
  let rank := square_rank sq in
  match piece_type q with
  | PAWN => pawn_targets sqs (color q) file rank
  | KNIGHT => leaps sqs (color q) file rank knight_offsets
  | BISHOP => slides sqs (color q) file rank bishop_dirs
  | ROOK => slides sqs (color q) file rank rook_dirs
  | QUEEN => slides sqs (color q) file rank (rook_dirs ++ bishop_dirs)
  | KING => leaps sqs (color q) file rank king_offsets
  end.

Definition moves_to (q : Piece) (sq dest : Square) : list Move :=
  let last := if color q then 7 else 0 in
  if bool_decide (piece_type q = PAWN) && (square_rank dest =? last) then
    (λ pt, {| from_square := sq; to_square := dest; promotion := Some pt |}) <$>
      [QUEEN; ROOK; BISHOP; KNIGHT]
  else [{| from_square := sq; to_square := dest; promotion := None |}].

Definition all_squares : list Square := Z.of_nat <$> seq 0 64.

(** The moves of side [c] before king safety is considered. *)

Definition pseudo_moves (sqs : list (option Piece)) (c : bool) : list Move :=
  all_squares ≫= (λ sq,
    match at_square sqs sq with
    | Some q =>
        if bool_decide (color q = c) then targets sqs q sq ≫= moves_to q sq else []
    | None => []
    end).

Definition in_check (sqs : list (option Piece)) (c : bool) : bool :=
  existsb (λ m, bool_decide (at_square sqs (to_square m)
                             = Some {| piece_type := KING; color := c |}))
          (pseudo_moves sqs (negb c)).

Definition legal (p : Pos) : list Move :=
  List.filter (λ m, negb (in_check (squares (apply_move p m)) (side p)))
              (pseudo_moves (squares p) (side p)).

Definition no_moves (p : Pos) : bool :=
  match legal p with
  | [] => true
  | _ => false
  end.

Definition checkmate (p : Pos) : bool := in_check (squares p) (side p) && no_moves p.

Definition finished (p : Pos) : bool := no_moves p.

(** Algebraic notation, with the library's disambiguation and check marks. *)

Definition file_name (sq : Square) : string :=
  String (ascii_of_nat (97 + Z.to_nat (square_file sq))) "".

Definition rank_name (sq : Square) : string :=
  String (ascii_of_nat (49 + Z.to_nat (square_rank sq))) "".

Definition square_name (sq : Square) : string := file_name sq +:+ rank_name sq.

Definition disambiguation (p : Pos) (q : Piece) (m : Move) : string :=
  let others :=
    List.filter (λ m', bool_decide (to_square m' = to_square m) &&
                       negb (bool_decide (from_square m' = from_square m)) &&
                       bool_decide (at_square (squares p) (from_square m') = Some q))
                (legal p) in
  match others with
  | [] => ""
  | _ =>
      if forallb (λ m', negb (square_file (from_square m') =? square_file (from_square m))) others
      then file_name (from_square m)
      else if forallb (λ m', negb (square_rank (from_square m') =? square_rank (from_square m)))
                      others
      then rank_name (from_square m)
      else square_name (from_square m)
  end.

Definition notation (p : Pos) (m : Move) : string :=
  match at_square (squares p) (from_square m) with
  | None => ""
  | Some q =>
      let capture := negb (vacant (squares p) (to_square m)) in
      let body :=
        match piece_type q with
        | PAWN =>
            (if capture then file_name (from_square m) +:+ "x" else "") +:+
            square_name (to_square m) +:+
            match promotion m with
            | Some pt => "=" +:+ upper (piece_symbol pt)
            | None => ""
            end
        | pt =>
            upper (piece_symbol pt) +:+ disambiguation p q m +:+
            (if capture then "x" else "") +:+ square_name (to_square m)
        end in
      let after := apply_move p m in
      body +:+ (if checkmate after then "#"
                else if in_check (squares after) (side after) then "+" else "")
  end.

Definition rules : Rules := {|
  Position := Pos;
  starting_position := initial;
  position_turn := side;
  position_piece_at := λ p sq, at_square (squares p) sq;
  position_legal_moves := legal;
  position_san := notation;
  position_push := apply_move;
  position_is_game_over := finished;
  position_is_checkmate := checkmate
|}.

End Mini.

(** ** Concrete runs

    Games played through the event loop against [Mini]: the human drags with
    the left button, the engine's answers and the wall clock are scripted,
    one second per frame. *)

Module Games.

Definition square_named (file rank : Z) : Square := chess_square (file - 1) (rank - 1).

Definition centre (player : option bool) (sq : Square) : Z * Z :=
  let '(x, y) := square_to_pixel player sq in (x + 37, y + 37).

Definition pointer (t : Q) (pos : Z * Z) : Ambient :=
  {| mouse_get_pos := pos; time_time := t; stockfish_found := true; engine_play := Failed |}.

Definition answer (t : Q) (play : EnginePlay) : Ambient :=
  {| mouse_get_pos := (0, 0); time_time := t; stockfish_found := true; engine_play := play |}.

Definition simple (from to : Square) : Move :=
  {| from_square := from; to_square := to; promotion := None |}.

Definition click (t : Q) (pos : Z * Z) : list (Ambient * Event) :=
  [(pointer t pos, MOUSEBUTTONDOWN pos 1)].

Definition drag (player : option bool) (t : Q) (from to : Square) : list (Ambient * Event) :=
  [(pointer t (centre player from), MOUSEBUTTONDOWN (centre player from) 1);
   (pointer t (centre player to), MOUSEBUTTONUP (centre player to) 1)].

Definition key (t : Q) (k : Key) : list (Ambient * Event) :=
  [(pointer t (0, 0), KEYDOWN k)].

Definition Frame : Type := list (Ambient * Event) * Ambient.

(** The human's move and the engine's reply, in one frame. *)

Definition exchange (player : option bool) (t : Q) (mine theirs : Square * Square) : Frame :=
  (drag player t mine.1 mine.2, answer t (Played (Some (simple theirs.1 theirs.2)))).

Fixpoint timed (t : Z) (frames : list (Q -> Frame)) : list Frame :=
  match frames with
  | [] => []
  | f :: rest => f (inject_Z t) :: timed (t + 1) rest
  end.

Definition a := 1.
Definition b := 2.
Definition c := 3.
Definition d := 4.
Definition e := 5.
Definition f := 6.
Definition g := 7.
Definition h := 8.

Definition as_white : option bool := Some WHITE.

Definition choose_white : Q -> Frame := λ t, (click t (300, 320), answer t Failed).

(** 1. f3 e5 2. g4 Qh4#: the engine mates. *)

Definition fools_mate : list (Q -> Frame) :=
  [ choose_white;
    λ t, exchange as_white t (square_named f 2, square_named f 3)
                             (square_named e 7, square_named e 5);
    λ t, exchange as_white t (square_named g 2, square_named g 4)
                             (square_named d 8, square_named h 4) ].

Definition undo_key : Q -> Frame := λ t, (key t K_u, answer t Failed).

(** 1. e3 a5 2. Qh5 Ra6 3. Qxa5 h5 4. h4 Rah6 5. Qxc7 f6 6. Qxd7+ Kf7
    7. Qxb7 Qd3 8. Qxb8 Qh7 9. Qxc8 Kg6 10. Qe6: Black is stalemated. *)

Definition stalemate_game : list (Q -> Frame) :=
  ((λ '(mine, theirs) t, exchange as_white t mine theirs) <$>
  [ ((square_named e 2, square_named e 3), (square_named a 7, square_named a 5));
    ((square_named d 1, square_named h 5), (square_named a 8, square_named a 6));
    ((square_named h 5, square_named a 5), (square_named h 7, square_named h 5));
    ((square_named h 2, square_named h 4), (square_named a 6, square_named h 6));
    ((square_named a 5, square_named c 7), (square_named f 7, square_named f 6));
    ((square_named c 7, square_named d 7), (square_named e 8, square_named f 7));
    ((square_named d 7, square_named b 7), (square_named d 8, square_named d 3));
    ((square_named b 7, square_named b 8), (square_named d 3, square_named h 7));
    ((square_named b 8, square_named c 8), (square_named f 7, square_named g 6)) ]) ++
  [ λ t, (drag as_white t (square_named c 8) (square_named e 6), answer t Failed) ].

(** 1. e4 d5 2. exd5: the human, as White, takes a Black pawn. *)

Definition pawn_takes : list (Q -> Frame) :=
  [ choose_white;
    λ t, exchange as_white t (square_named e 2, square_named e 4)
                             (square_named d 7, square_named d 5);
    λ t, (drag as_white t (square_named e 4) (square_named d 5), answer t Failed) ].

(** The human picks up the e2 pawn and holds it until White's clock is out. *)

Definition held_too_long : list Frame :=
  [ choose_white 0%Q;
    (click 1%Q (centre as_white (square_named e 2)), answer 1%Q Failed);
    ([], answer 700%Q Failed) ].

Definition play (frames : list Frame) : Res (@Loop Mini.rules) :=
  run (start 0 true) frames.

Definition outcome (r : Res (@Loop Mini.rules)) : @Loop Mini.rules :=
  match r with
  | Ok l => l
  | Raise _ => start 0 true
  end.

(** The states these runs end in. *)

Definition mated : @Loop Mini.rules := outcome (play (timed 0 fools_mate)).

Definition stalemated : @Loop Mini.rules :=
  outcome (play (timed 0 (fools_mate ++ [undo_key; undo_key] ++ stalemate_game))).

Definition out_of_time : @Loop Mini.rules := outcome (play held_too_long).

(** After 1. e4 d5: before the human picks up the e4 pawn, with the pawn
    picked up, and after it is released on d5. *)

Definition before_capture : @Loop Mini.rules :=
  outcome (play (timed 0 (take 2 pawn_takes))).

Definition pick_e4 : Ambient * Event :=
  (pointer 2 (centre as_white (square_named e 4)),
   MOUSEBUTTONDOWN (centre as_white (square_named e 4)) 1).

Definition drop_d5 : Ambient * Event :=
  (pointer 2 (centre as_white (square_named d 5)),
   MOUSEBUTTONUP (centre as_white (square_named d 5)) 1).

Definition capture_picked : @Loop Mini.rules :=
  outcome (handle_event pick_e4.1 before_capture pick_e4.2).

Definition after_capture : @Loop Mini.rules :=
  outcome (handle_event drop_d5.1 capture_picked drop_d5.2).

(** After the human's first move 1. e4, before the engine is asked. *)

Definition awaiting_reply : @Loop Mini.rules :=
  outcome (handle_events (outcome (play [choose_white 0%Q]))
             (drag as_white 1 (square_named e 2) (square_named e 4))).

(** After 1. e4 with the engine failing to answer: Black is to move and the
    engine is not asked again. *)


End Games.

(** ** Drawing

    What the [draw_*] methods put on the screen, as the list of drawing
    calls they make, in order.  A rendered text is known by its font size,
    weight, string and colour, a sprite by its key in the sprite cache, and a
    translucent overlay by its size and colour. *)

Definition Color := list Z.

Module Colors.
Definition WHITE : Color := [255; 255; 255].
Definition BLACK : Color := [0; 0; 0].
Definition LIGHT_SQUARE : Color := [240; 217; 181].
Definition DARK_SQUARE : Color := [181; 136; 99].
Definition HIGHLIGHT : Color := [247; 247; 105; 150].
Definition MOVE_HIGHLIGHT : Color := [106; 168; 79; 150].
Definition BORDER_COLOR : Color := [50; 50; 50].
Definition PANEL_COLOR : Color := [240; 240; 240].
Definition TEXT_COLOR : Color := [50; 50; 50].
End Colors.

Definition PIECE_SIZE : Z := SQUARE_SIZE - 10.
Definition SIDE_PANEL_WIDTH : Z := 300.
Definition TIMER_HEIGHT : Z := 80.

(** A text placed on a surface: font size, bold, string, colour, position. *)

Definition Label : Type := Z * bool * string * Color * (Z * Z).

Inductive Surface :=
| Text (size : Z) (bold : bool) (text : string) (color : Color)
| Sprite (name : string)
| Tint (size : Z * Z) (color : Color)
| Canvas (size : Z * Z) (color : Color) (labels : list Label).

Inductive Draw :=
| Fill (color : Color)
| Blit (source : Surface) (dest : Z * Z)
| DrawRect (color : Color) (rect : Rect) (width : Z)
| DrawLine (color : Color) (start_pos end_pos : Z * Z) (width : Z).

#[global] Instance Rect_eq_dec : EqDecision Rect.
Proof. solve_decision. Defined.

#[global] Instance Surface_eq_dec : EqDecision Surface.
Proof. solve_decision. Defined.

#[global] Instance Draw_eq_dec : EqDecision Draw.
Proof. solve_decision. Defined.

(** [range(n)] and [range(0, n, 2)]. *)

Definition range (n : nat) : list Z := Z.of_nat <$> seq 0 n.

Definition range_by_two (n : nat) : list nat := (λ k, 2 * k)%nat <$> seq 0 (Nat.div2 (n + 1)).

(** [l[i]]. *)

Definition list_get {A : Type} (l : list A) (i : nat) : Res A :=
  match l !! i with
  | Some x => Ok x
  | None => Raise IndexError
  end.

(** *** Clock display

    [int(seconds // 60)] and [int(seconds % 60)] on an exact reading, and the
    format [{:02d}]. *)

Definition pad2 (n : Z) : string :=
  let digits := pretty n in
  if (String.length digits <? 2)%nat then "0" +:+ digits else digits.

Definition format_time (seconds : Q) : string :=
  let minutes := Qfloor (seconds / 60) in
  let seconds := Qfloor (seconds - 60 * inject_Z (Qfloor (seconds / 60))) in
  pad2 minutes +:+ ":" +:+ pad2 seconds.

Definition max0 (x : Q) : Q := if Qle_bool x 0 then 0%Q else x.

(** *** The board and its labels ([draw_board] reads [player_color] only) *)

Definition draw_board (player_color : option bool) : list Draw :=
  [ Fill Colors.PANEL_COLOR;
    DrawRect Colors.BORDER_COLOR
      {| left := MARGIN - 2; top := MARGIN - 2;
         width := BOARD_SIZE + 4; height := BOARD_SIZE + 4 |} 2 ] ++
  (range 8 ≫= λ rank, range 8 ≫= λ file,
     let color := if (rank + file) mod 2 =? 0
                  then Colors.LIGHT_SQUARE else Colors.DARK_SQUARE in
     [ DrawRect color
         {| left := MARGIN + file * SQUARE_SIZE; top := MARGIN + rank * SQUARE_SIZE;
            width := SQUARE_SIZE; height := SQUARE_SIZE |} 0 ]) ++
  (range 8 ≫= λ i,
     [ Blit (Text 16 false (String (ascii_of_nat (Z.to_nat (97 + i))) "") Colors.TEXT_COLOR)
         (MARGIN + i * SQUARE_SIZE + SQUARE_SIZE / 2 - 5, MARGIN + BOARD_SIZE + 5);
       Blit (Text 16 false (pretty (8 - i)) Colors.TEXT_COLOR)
         (MARGIN - 20, MARGIN + i * SQUARE_SIZE + SQUARE_SIZE / 2 - 8) ]) ++
  [ Blit (Text 16 false
            ("Playing as: " +:+ (if truthy player_color then "White" else "Black"))
            Colors.TEXT_COLOR)
      (MARGIN, MARGIN + BOARD_SIZE + 30) ].

(** *** The history panel

    The loop over [range(0, len(self.move_history), 2)] with its [break]. *)

Definition panel_height : Z := WINDOW_SIZE - TIMER_HEIGHT - 40.

Fixpoint history_rows (move_history : list string) (indices : list nat) (y_offset : Z)
    : Res (list Label) :=
  match indices with
  | [] => Ok []
  | i :: rest =>
      let move_number := Z.of_nat i / 2 + 1 in
      white ← list_get move_history i;
      let row := [ (16, false, pretty move_number +:+ ". " +:+ white, Colors.BLACK,
                    (10, y_offset)) ] in
      row ←
        (if (i + 1 <? length move_history)%nat then
           black ← list_get move_history (i + 1);
           Ok (row ++ [ (16, false, black, [70; 70; 70],
                         (SIDE_PANEL_WIDTH / 2 + 10, y_offset)) ])
         else Ok row);
      let y_offset := y_offset + 25 in
      if y_offset + 25 >? panel_height then Ok row
      else
        more ← history_rows move_history rest y_offset;
        Ok (row ++ more)
  end.

Definition draw_move_history (move_history : list string) : Res (list Draw) :=
  let y_offset := 10 in
  let headers := [ (18, true, "White", Colors.TEXT_COLOR, (10, y_offset));
                   (18, true, "Black", Colors.TEXT_COLOR,
                    (SIDE_PANEL_WIDTH / 2 + 10, y_offset)) ] in
  let y_offset := y_offset + 30 in
  rows ← history_rows move_history (range_by_two (length move_history)) y_offset;
  Ok [ Blit (Canvas (SIDE_PANEL_WIDTH - 40, panel_height) Colors.WHITE (headers ++ rows))
         (BOARD_SIZE + MARGIN + 20, TIMER_HEIGHT + 20);
       DrawRect Colors.BORDER_COLOR
         {| left := BOARD_SIZE + MARGIN + 20; top := TIMER_HEIGHT + 20;
            width := SIDE_PANEL_WIDTH - 40; height := panel_height |} 1;
       DrawLine Colors.BORDER_COLOR
         (BOARD_SIZE + MARGIN + 20 + SIDE_PANEL_WIDTH / 2, TIMER_HEIGHT + 20)
         (BOARD_SIZE + MARGIN + 20 + SIDE_PANEL_WIDTH / 2, WINDOW_SIZE - 20) 1 ].

(** The row of the panel for full move [k + 1], as a closed form. *)

Definition history_row (move_history : list string) (k : nat) : list Label :=
  match move_history !! (2 * k)%nat with
  | Some white =>
      (16, false, pretty (Z.of_nat k + 1) +:+ ". " +:+ white, Colors.BLACK,
       (10, 40 + 25 * Z.of_nat k)) ::
      match move_history !! (2 * k + 1)%nat with
      | Some black => [ (16, false, black, [70; 70; 70], (160, 40 + 25 * Z.of_nat k)) ]
      | None => []
      end
  | None => []
  end.

Section Drawing.
Context {R : Rules}.

Definition sprite_key (piece : Piece) : string :=
  (if bool_decide (color piece = WHITE) then "w" else "b") +:+ lower (symbol piece).

Definition opt_str_bool (s : option string) : bool :=
  match s with
  | Some s => str_bool s
  | None => false
  end.

Definition draw_timers (self : ChessGame) : list Draw :=
  let white := format_time (max0 (white_time self)) in
  let black := format_time (max0 (black_time self)) in
  [ Blit (Text 36 false ("White: " +:+ white) Colors.TEXT_COLOR) (BOARD_SIZE + MARGIN + 20, 20);
    Blit (Text 36 false ("Black: " +:+ black) Colors.TEXT_COLOR) (BOARD_SIZE + MARGIN + 20, 70) ].

Definition overlay (color : Color) (self : ChessGame) (square : Square) : Draw :=
  Blit (Tint (SQUARE_SIZE, SQUARE_SIZE) color) (square_to_pixel (player_color self) square).

Definition draw_highlights (self : ChessGame) : list Draw :=
  match selected_square self with
  | Some selected =>
      overlay Colors.HIGHLIGHT self selected ::
      (valid_moves self ≫= λ move,
         if bool_decide (from_square move = selected)
         then [overlay Colors.MOVE_HIGHLIGHT self (to_square move)] else [])
  | None => []
  end ++
  match last_move self with
  | Some move =>
      if move_bool move
      then [ overlay Colors.MOVE_HIGHLIGHT self (from_square move);
             overlay Colors.MOVE_HIGHLIGHT self (to_square move) ]
      else []
  | None => []
  end.

(** [piece_images] is known by the keys whose image could be loaded. *)

Definition draw_pieces (piece_images : gset string) (self : ChessGame) : list Draw :=
  range 64 ≫= λ square,
    match piece_at (board self) square with
    | Some piece =>
        if negb (bool_decide (Some square = selected_square self)) ||
           negb (opt_str_bool (selected_piece self))
        then
          if bool_decide (sprite_key piece ∈ piece_images) then
            let '(x, y) := square_to_pixel (player_color self) square in
            [Blit (Sprite (sprite_key piece)) (x + 5, y + 5)]
          else []
        else []
    | None => []
    end.

Definition draw_selected_piece (piece_images : gset string) (self : ChessGame) : list Draw :=
  match selected_piece self, selected_piece_pos self with
  | Some name, Some (mouse_x, mouse_y) =>
      if str_bool name && bool_decide (name ∈ piece_images)
      then [Blit (Sprite name) (mouse_x - PIECE_SIZE / 2, mouse_y - PIECE_SIZE / 2)]
      else []
  | _, _ => []
  end.

(** The events the colour selection reacts to. *)

Definition chooses (event : Event) : bool :=
  match event with
  | QUIT => true
  | MOUSEBUTTONDOWN pos _ => collidepoint white_rect pos || collidepoint black_rect pos
  | _ => false
  end.

(** ** What one event can do

    The outcomes of [handle_event], one constructor per branch of the loop
    body that changes the state. *)

Inductive event_effect (amb : Ambient) (l l' : Loop) : Prop :=
| effect_none :
    l' = l -> event_effect amb l l'
| effect_quit :
    l' = {| self_ := self_ l; color_selection := color_selection l; running := false |} ->
    event_effect amb l l'
| effect_choose (white : bool) :
    color_selection l = true ->
    l' = {| self_ := (if white then λ self, self else first_ai_move (engine_play amb))
                       (set_game_started true (set_player_color (Some white) (self_ l)));
            color_selection := false; running := running l |} ->
    event_effect amb l l'
| effect_reset :
    l' = {| self_ := reset_game (time_time amb) (stockfish_found amb) (self_ l);
            color_selection := true; running := running l |} ->
    event_effect amb l l'
| effect_press :
    color_selection l = false -> game_over (self_ l) = false ->
    ai_thinking (self_ l) = false -> checkmate_popup (self_ l) = false ->
    l' = with_self l (press (mouse_get_pos amb) (self_ l)) ->
    event_effect amb l l'
| effect_release (selected : Square) (self' : ChessGame) :
    color_selection l = false -> game_over (self_ l) = false ->
    ai_thinking (self_ l) = false -> selected_square (self_ l) = Some selected ->
    release selected (mouse_get_pos amb) (self_ l) = Ok self' ->
    l' = with_self l self' ->
    event_effect amb l l'
| effect_motion (name : string) (pos : Z * Z) :
    color_selection l = false -> selected_piece (self_ l) = Some name ->
    l' = with_self l (set_selected_piece_pos (Some pos) (self_ l)) ->
    event_effect amb l l'
| effect_undo (self' : ChessGame) :
    color_selection l = false -> (2 <= length (move_history (self_ l)))%nat ->
    undo (self_ l) = Ok self' ->
    l' = with_self l self' ->
    event_effect amb l l'.

(** ** Soundness of a session

    More of what every state of a run satisfies: each move on the board's
    stack was legal in the position it was pushed on; a selection names the
    piece on the selected square, which is the human's and to move, and
    lists exactly the legal moves from that square; in the colour selection
    the session is a freshly constructed one; the tallies hold piece letters
    under the two keys; the winner, if any, is a side's name. *)

Definition piece_letters : list string := ["P"; "N"; "B"; "R"; "Q"; "K"].

Record sound (l : Loop) : Prop := {
  s_legal : Forall (λ pm, pm.2 ∈ position_legal_moves pm.1) (move_stack (board (self_ l)));
  s_selection :
    forall sq, selected_square (self_ l) = Some sq ->
      valid_moves (self_ l)
        = filter (λ move, from_square move = sq) (legal_moves (board (self_ l))) /\
      exists piece, piece_at (board (self_ l)) sq = Some piece /\
        selected_piece (self_ l) = Some (sprite_key piece) /\
        is_Some (selected_piece_pos (self_ l)) /\
        0 <= sq < 64;
  s_fresh : color_selection l = true ->
            exists now stockfish, self_ l = ChessGame_init now stockfish;
  s_keys : dom (captured_pieces (self_ l)) = {["w"; "b"]};
  s_letters : forall k tally, captured_pieces (self_ l) !! k = Some tally ->
              Forall (λ kind, kind ∈ piece_letters) tally;
  s_winner : winner (self_ l) = None \/ winner (self_ l) = Some "White" \/
             winner (self_ l) = Some "Black"
}.

End Drawing.

(** * Properties *)

(** ** Coordinate mapping *)

Lemma square_parts (sq : Square) :
  0 <= sq < 64 ->
  0 <= square_file sq < 8 /\ 0 <= square_rank sq < 8 /\
  sq = chess_square (square_file sq) (square_rank sq).
Proof.
  intros Hsq. unfold square_file, square_rank, chess_square.
  change 7 with (Z.ones 3). rewrite Z.land_ones by lia.
  rewrite Z.shiftr_div_pow2 by lia. change (2 ^ 3) with 8.
  pose proof (Z.mod_pos_bound sq 8 ltac:(lia)).
  pose proof (Z.div_mod sq 8 ltac:(lia)).
  assert (0 <= sq / 8 < 8).
  { split; [apply Z.div_pos; lia | apply Z.div_lt_upper_bound; lia]. }
  lia.
Qed.

Lemma chess_square_parts (file rank : Z) :
  0 <= file < 8 -> 0 <= rank < 8 ->
  0 <= chess_square file rank < 64 /\
  square_file (chess_square file rank) = file /\
  square_rank (chess_square file rank) = rank.
Proof.
  intros Hf Hr. unfold square_file, square_rank, chess_square.
  change 7 with (Z.ones 3). rewrite Z.land_ones by lia.
  rewrite Z.shiftr_div_pow2 by lia. change (2 ^ 3) with 8.
  split; [lia|]. split.
  - symmetry. apply (Z.mod_unique _ _ rank); lia.
  - symmetry. apply (Z.div_unique _ _ _ file); lia.
Qed.

Lemma cell_of_pixel (k v : Z) :
  50 + k * 75 <= v < 50 + k * 75 + 75 -> (v - 50) / 75 = k.
Proof. intros H. symmetry. apply (Z.div_unique _ _ _ (v - 50 - k * 75)); lia. Qed.

Lemma pixel_in_cell (v : Z) :
  50 + (v - 50) / 75 * 75 <= v < 50 + (v - 50) / 75 * 75 + 75.
Proof.
  pose proof (Z.div_mod (v - 50) 75 ltac:(lia)).
  pose proof (Z.mod_pos_bound (v - 50) 75 ltac:(lia)). lia.
Qed.

Lemma square_to_pixel_eq (pc : option bool) (sq : Square) :
  square_to_pixel pc sq =
  (50 + square_file sq * 75,
   50 + (if truthy pc then 7 - square_rank sq else square_rank sq) * 75).
Proof. reflexivity. Qed.

Lemma pixel_to_square_inside (pc : option bool) (sq : Square) (x y : Z) :
  0 <= sq < 64 ->
  collidepoint (square_rect pc sq) (x, y) = true ->
  pixel_to_square pc (x, y) = Some sq.
Proof.
  intros Hsq Hin. destruct (square_parts sq Hsq) as (Hf & Hr & Heq).
  unfold square_rect in Hin. rewrite square_to_pixel_eq in Hin.
  unfold collidepoint in Hin; cbn [left top width height fst snd] in Hin.
  change SQUARE_SIZE with 75 in Hin.
  repeat (apply andb_true_iff in Hin as [Hin ?]).
  unfold pixel_to_square.
  change MARGIN with 50; change BOARD_SIZE with 600; change SQUARE_SIZE with 75.
  rewrite (cell_of_pixel (square_file sq) x) by lia.
  destruct (truthy pc).
  - rewrite (cell_of_pixel (7 - square_rank sq) y) by lia.
    replace (7 - (7 - square_rank sq)) with (square_rank sq) by lia.
    rewrite <- Heq.
    repeat match goal with |- context [?a <=? ?b] => rewrite (proj2 (Z.leb_le a b)) by lia end.
    repeat match goal with |- context [?a <? ?b] => rewrite (proj2 (Z.ltb_lt a b)) by lia end.
    reflexivity.
  - rewrite (cell_of_pixel (square_rank sq) y) by lia.
    rewrite <- Heq.
    repeat match goal with |- context [?a <=? ?b] => rewrite (proj2 (Z.leb_le a b)) by lia end.
    repeat match goal with |- context [?a <? ?b] => rewrite (proj2 (Z.ltb_lt a b)) by lia end.
    reflexivity.
Qed.

Lemma pixel_to_square_outside (pc : option bool) (x y : Z) :
  ~ (MARGIN <= x < MARGIN + BOARD_SIZE /\ MARGIN <= y < MARGIN + BOARD_SIZE) ->
  pixel_to_square pc (x, y) = None.
Proof.
  intros Hout. unfold pixel_to_square.
  destruct ((MARGIN <=? x) && (x <? MARGIN + BOARD_SIZE) &&
            (MARGIN <=? y) && (y <? MARGIN + BOARD_SIZE)) eqn:Hb; [|reflexivity].
  exfalso. apply Hout.
  repeat (apply andb_true_iff in Hb as [Hb ?]). lia.
Qed.

Lemma pixel_to_square_Some (pc : option bool) (x y : Z) (sq : Square) :
  pixel_to_square pc (x, y) = Some sq ->
  0 <= sq < 64 /\ collidepoint (square_rect pc sq) (x, y) = true /\
  MARGIN <= x < MARGIN + BOARD_SIZE /\ MARGIN <= y < MARGIN + BOARD_SIZE.
Proof.
  unfold pixel_to_square.
  destruct ((MARGIN <=? x) && (x <? MARGIN + BOARD_SIZE) &&
            (MARGIN <=? y) && (y <? MARGIN + BOARD_SIZE)) eqn:Hb; [|discriminate].
  cbn [negb].
  repeat (apply andb_true_iff in Hb as [Hb ?]).
  change MARGIN with 50 in *; change BOARD_SIZE with 600 in *; change SQUARE_SIZE with 75 in *.
  set (file := (x - 50) / 75). set (row := (y - 50) / 75).
  destruct ((0 <=? file) && (file <? 8) &&
            (0 <=? (if truthy pc then 7 - row else row)) &&
            ((if truthy pc then 7 - row else row) <? 8)) eqn:Hc; [|discriminate].
  intros [= <-].
  repeat (apply andb_true_iff in Hc as [Hc ?]).
  set (rank := if truthy pc then 7 - row else row) in *.
  destruct (chess_square_parts file rank) as (Hsq & Hf & Hr); [lia..|].
  split; [exact Hsq|]. split; [|lia].
  unfold square_rect. rewrite square_to_pixel_eq, Hf, Hr.
  unfold collidepoint; cbn [left top width height fst snd].
  change SQUARE_SIZE with 75.
  pose proof (pixel_in_cell x). pose proof (pixel_in_cell y).
  fold file in H5. fold row in H6.
  assert ((if truthy pc then 7 - rank else rank) = row) as ->.
  { subst rank. destruct (truthy pc); lia. }
  repeat (apply andb_true_iff; split); lia.
Qed.

(** C4 (as the code has it).  For each colour choice, every pixel of the
    rectangle of a square maps back to that square, every pixel that maps to
    a square lies in that square's rectangle (so squares and rectangles
    correspond one to one and the rectangles of distinct squares are
    disjoint), and a pixel outside the board maps to no square.  Only the
    ranks are mirrored between the two orientations: the human's back rank is
    the bottom row for either colour, and the files keep their columns. *)
Theorem coordinate_mapping (pc : option bool) (sq : Square) (x y : Z) :
  0 <= sq < 64 ->
  (collidepoint (square_rect pc sq) (x, y) = true -> pixel_to_square pc (x, y) = Some sq) /\
  (forall sq', pixel_to_square pc (x, y) = Some sq' ->
     0 <= sq' < 64 /\ collidepoint (square_rect pc sq') (x, y) = true) /\
  (forall sq', 0 <= sq' < 64 ->
     collidepoint (square_rect pc sq) (x, y) = true ->
     collidepoint (square_rect pc sq') (x, y) = true -> sq = sq') /\
  (~ (MARGIN <= x < MARGIN + BOARD_SIZE /\ MARGIN <= y < MARGIN + BOARD_SIZE) ->
     pixel_to_square pc (x, y) = None) /\
  (square_to_pixel (Some WHITE) sq).2 = MARGIN + (7 - square_rank sq) * SQUARE_SIZE /\
  (square_to_pixel (Some BLACK) sq).2 = MARGIN + square_rank sq * SQUARE_SIZE /\
  (square_to_pixel (Some BLACK) sq).1 = (square_to_pixel (Some WHITE) sq).1 /\
  (square_to_pixel pc sq).1 = MARGIN + square_file sq * SQUARE_SIZE /\
  (square_rank sq = 0 -> (square_to_pixel (Some WHITE) sq).2 = MARGIN + 7 * SQUARE_SIZE) /\
  (square_rank sq = 7 -> (square_to_pixel (Some BLACK) sq).2 = MARGIN + 7 * SQUARE_SIZE).
Proof.
  intros Hsq. repeat apply conj.
  - apply pixel_to_square_inside, Hsq.
  - intros sq' H. split; apply (pixel_to_square_Some pc x y sq' H).
  - intros sq' Hsq' H1 H2.
    apply (pixel_to_square_inside pc sq x y Hsq) in H1.
    apply (pixel_to_square_inside pc sq' x y Hsq') in H2.
    congruence.
  - apply pixel_to_square_outside.
  - reflexivity.
  - reflexivity.
  - reflexivity.
  - reflexivity.
  - rewrite square_to_pixel_eq. cbn. intros ->. reflexivity.
  - rewrite square_to_pixel_eq. cbn. intros ->. reflexivity.
Qed.

Lemma coordinate_mapping_witness :
  pixel_to_square (Some BLACK) (360, 510) = Some 52 /\
  pixel_to_square (Some WHITE) (360, 510) = Some 12.
Proof.
  split.
  - apply (coordinate_mapping (Some BLACK) 52 360 510); [lia | reflexivity].
  - apply (coordinate_mapping (Some WHITE) 12 360 510); [lia | reflexivity].
Defined.

(** C4, as stated, fails on the files: for a human playing Black the a-file
    is drawn in the same, leftmost column as for White, not in the mirrored
    one. *)
Lemma files_not_mirrored :
  (square_to_pixel (Some BLACK) 0).1 = (square_to_pixel (Some WHITE) 0).1 /\
  (square_to_pixel (Some BLACK) 0).1 <> MARGIN + (7 - square_file 0) * SQUARE_SIZE.
Proof. split; [reflexivity | discriminate]. Qed.

Section Properties.
Context {R : Rules}.

(** ** Clocks *)

Lemma Qle_bool_false (x y : Q) : Qle_bool x y = false -> (y < x)%Q.
Proof.
  intros H. apply Qnot_le_lt. intros Hle.
  apply Qle_bool_iff in Hle. congruence.
Qed.

Lemma update_timer_idle (now : Q) (self : ChessGame) :
  game_started self = false \/ game_over self = true -> update_timer now self = self.
Proof.
  intros [H | H]; unfold update_timer; rewrite H; [reflexivity|].
  destruct (game_started self); reflexivity.
Qed.

Lemma update_timer_running (now : Q) (self : ChessGame) :
  game_started self = true -> game_over self = false ->
  update_timer now self =
    let t := ticked now self in
    if Qle_bool (white_time t) 0 then
      set_checkmate_popup true (set_winner (Some "Black") (set_game_over true t))
    else if Qle_bool (black_time t) 0 then
      set_checkmate_popup true (set_winner (Some "White") (set_game_over true t))
    else t.
Proof. intros Hs Ho. unfold update_timer. rewrite Hs, Ho. reflexivity. Qed.

Lemma ticked_clocks (now : Q) (self : ChessGame) :
  (turn (board self) = WHITE ->
     white_time (ticked now self) = (white_time self - (now - last_time self))%Q /\
     black_time (ticked now self) = black_time self) /\
  (turn (board self) = BLACK ->
     black_time (ticked now self) = (black_time self - (now - last_time self))%Q /\
     white_time (ticked now self) = white_time self).
Proof.
  unfold ticked, WHITE, BLACK. split; intros Ht; rewrite Ht; split; reflexivity.
Qed.

Lemma update_timer_clocks (now : Q) (self : ChessGame) :
  game_started self = true -> game_over self = false ->
  white_time (update_timer now self) = white_time (ticked now self) /\
  black_time (update_timer now self) = black_time (ticked now self) /\
  board (update_timer now self) = board self.
Proof.
  intros Hs Ho. rewrite update_timer_running by assumption. cbn zeta.
  destruct (Qle_bool (white_time (ticked now self)) 0);
    [|destruct (Qle_bool (black_time (ticked now self)) 0)];
    repeat split; unfold ticked; case_bool_decide; reflexivity.
Qed.

(** C5.  [update_timer] runs once per frame.  Before the game has started or
    once it is over it changes nothing.  Otherwise the clock of the side to
    move, and only that clock, is reduced by the time elapsed since the last
    reading (strictly, when time has passed), whatever the sequencer is
    waiting for; right after the decrement a clock at or below zero ends the
    game, gives the win to the other side and raises the popup; and when both
    clocks were still positive before the frame, the winner's clock has not
    expired. *)
Theorem clock_frame (now : Q) (self : ChessGame) :
  (game_started self = false \/ game_over self = true -> update_timer now self = self) /\
  (game_started self = true -> game_over self = false ->
   let self' := update_timer now self in
   let elapsed := (now - last_time self)%Q in
   (turn (board self) = WHITE ->
      white_time self' = (white_time self - elapsed)%Q /\ black_time self' = black_time self) /\
   (turn (board self) = BLACK ->
      black_time self' = (black_time self - elapsed)%Q /\ white_time self' = white_time self) /\
   ((last_time self < now)%Q ->
      if turn (board self)
      then (white_time self' < white_time self)%Q
      else (black_time self' < black_time self)%Q) /\
   ((white_time self' <= 0)%Q ->
      game_over self' = true /\ winner self' = Some "Black" /\ checkmate_popup self' = true) /\
   ((0 < white_time self')%Q -> (black_time self' <= 0)%Q ->
      game_over self' = true /\ winner self' = Some "White" /\ checkmate_popup self' = true) /\
   ((0 < white_time self')%Q -> (0 < black_time self')%Q ->
      game_over self' = false /\ winner self' = winner self /\
      checkmate_popup self' = checkmate_popup self) /\
   ((0 < white_time self)%Q -> (0 < black_time self)%Q -> game_over self' = true ->
      (turn (board self) = WHITE /\ winner self' = Some "Black" /\
       (white_time self' <= 0)%Q /\ (0 < black_time self')%Q) \/
      (turn (board self) = BLACK /\ winner self' = Some "White" /\
       (black_time self' <= 0)%Q /\ (0 < white_time self')%Q))).
Proof.
  split; [apply update_timer_idle|].
  intros Hs Ho self' elapsed. subst elapsed.
  destruct (update_timer_clocks now self Hs Ho) as (Hw & Hb & _).
  destruct (ticked_clocks now self) as (HW & HB).
  fold self' in Hw, Hb.
  assert (Hcheck :
    ((white_time self' <= 0)%Q ->
       game_over self' = true /\ winner self' = Some "Black" /\ checkmate_popup self' = true) /\
    ((0 < white_time self')%Q -> (black_time self' <= 0)%Q ->
       game_over self' = true /\ winner self' = Some "White" /\ checkmate_popup self' = true) /\
    ((0 < white_time self')%Q -> (0 < black_time self')%Q ->
       game_over self' = false /\ winner self' = winner self /\
       checkmate_popup self' = checkmate_popup self)).
  { rewrite Hw, Hb. subst self'. rewrite update_timer_running by assumption. cbn zeta.
    destruct (Qle_bool (white_time (ticked now self)) 0) eqn:Ew;
      [|destruct (Qle_bool (black_time (ticked now self)) 0) eqn:Eb].
    - apply Qle_bool_iff in Ew. repeat split; try reflexivity; intros; exfalso; lra.
    - apply Qle_bool_false in Ew. apply Qle_bool_iff in Eb.
      repeat split; try reflexivity; intros; exfalso; lra.
    - apply Qle_bool_false in Ew. apply Qle_bool_false in Eb.
      repeat split; try (intros; exfalso; lra);
        unfold ticked; case_bool_decide; cbn; first [assumption | reflexivity]. }
  destruct Hcheck as (Hc1 & Hc2 & Hc3).
  repeat apply conj; try assumption.
  - intros Ht. destruct (HW Ht). split; congruence.
  - intros Ht. destruct (HB Ht). split; congruence.
  - intros Hlt. destruct (turn (board self)) eqn:Ht.
    + destruct (HW eq_refl) as [E _]. rewrite Hw, E. lra.
    + destruct (HB eq_refl) as [E _]. rewrite Hb, E. lra.
  - intros Hpw Hpb Hover.
    destruct (Qlt_le_dec 0 (white_time self')) as [Hw0 | Hw0].
    + destruct (Qlt_le_dec 0 (black_time self')) as [Hb0 | Hb0].
      * destruct (Hc3 Hw0 Hb0) as [E _]. congruence.
      * right. destruct (Hc2 Hw0 Hb0) as (_ & E & _).
        destruct (turn (board self)) eqn:Ht; [|auto].
        exfalso. destruct (HW eq_refl) as [_ E']. rewrite Hb, E' in Hb0. lra.
    + left. destruct (Hc1 Hw0) as (_ & E & _).
      destruct (turn (board self)) eqn:Ht.
      * destruct (HW eq_refl) as [_ E']. rewrite Hb, E'. auto.
      * exfalso. destruct (HB eq_refl) as [_ E']. rewrite Hw, E' in Hw0. lra.
Qed.

(** Where the loop calls [update_timer]: at the end of every frame outside
    the colour selection, on the state the engine's turn left. *)

Lemma end_of_frame_timer (amb : Ambient) (l l' : Loop) :
  color_selection l = false ->
  end_of_frame amb l = Ok l' ->
  exists self,
    (if ai_thinking (self_ l) && negb (game_over (self_ l))
     then ai_turn (engine_play amb) (self_ l) = Ok self
     else self = self_ l) /\
    l' = with_self l (update_timer (time_time amb) self).
Proof.
  intros Hcs. unfold end_of_frame. rewrite Hcs. cbn [negb].
  destruct (ai_thinking (self_ l) && negb (game_over (self_ l))).
  - destruct (ai_turn (engine_play amb) (self_ l)) as [self|]; [|discriminate].
    intros [= <-]. eauto.
  - intros [= <-]. eauto.
Qed.

(** ** The parts of a ply *)

Lemma record_capture_Ok (target : Square) (self self0 : ChessGame) :
  record_capture target self = Ok self0 ->
  self0 = set_captured_pieces (captured_pieces self0) self /\
  match piece_at (board self) target with
  | Some p =>
      exists tally, captured_pieces self !! tally_key p = Some tally /\
        captured_pieces self0 =
          <[tally_key p := tally ++ [upper (symbol p)]]> (captured_pieces self)
  | None => captured_pieces self0 = captured_pieces self
  end.
Proof.
  unfold record_capture, dict_get. destruct (piece_at (board self) target) as [p|].
  - fold (tally_key p). destruct (captured_pieces self !! tally_key p) as [tally|] eqn:E;
      cbn; [|discriminate].
    intros [= <-]. split; [reflexivity|]. exists tally. split; reflexivity.
  - intros [= <-]. split; [destruct self|]; reflexivity.
Qed.

Lemma record_capture_total (target : Square) (self : ChessGame) :
  is_Some (captured_pieces self !! "w") -> is_Some (captured_pieces self !! "b") ->
  exists self0, record_capture target self = Ok self0.
Proof.
  intros [w Hw] [b Hb]. unfold record_capture, dict_get.
  destruct (piece_at (board self) target) as [p|]; [|eauto].
  case_bool_decide; [rewrite Hw | rewrite Hb]; cbn; eauto.
Qed.

Lemma release_applied (selected : Square) (pos : Z * Z) (self self0 : ChessGame)
    (target : Square) :
  let move := {| from_square := selected; to_square := target; promotion := None |} in
  pixel_to_square (player_color self) pos = Some target ->
  move ∈ valid_moves self ->
  record_capture target self = Ok self0 ->
  release selected pos self =
    Ok (deselected (if is_game_over (board (applied move self self0))
                    then concluded (applied move self self0)
                    else set_ai_thinking true (applied move self self0))).
Proof.
  intros move Hpx Hin Hcap. unfold release. rewrite Hpx.
  rewrite bool_decide_eq_true_2 by done. rewrite Hcap.
  unfold concluded, applied. cbn. fold move.
  destruct (is_game_over (push (board self0) move)); [|reflexivity].
  cbn. destruct (is_checkmate (push (board self0) move)); reflexivity.
Qed.

Lemma release_raises (selected : Square) (pos : Z * Z) (self : ChessGame)
    (target : Square) (e : PyExn) :
  pixel_to_square (player_color self) pos = Some target ->
  {| from_square := selected; to_square := target; promotion := None |} ∈ valid_moves self ->
  record_capture target self = Raise e ->
  release selected pos self = Raise e.
Proof.
  intros Hpx Hin Hcap. unfold release. rewrite Hpx.
  rewrite bool_decide_eq_true_2 by done. rewrite Hcap. reflexivity.
Qed.

Lemma release_reverted (selected : Square) (pos : Z * Z) (self : ChessGame) :
  match pixel_to_square (player_color self) pos with
  | Some target =>
      {| from_square := selected; to_square := target; promotion := None |} ∉ valid_moves self
  | None => True
  end ->
  release selected pos self = Ok (deselected self).
Proof.
  intros H. unfold release. destruct (pixel_to_square (player_color self) pos); [|reflexivity].
  rewrite bool_decide_eq_false_2 by done. reflexivity.
Qed.

Lemma ai_turn_applied (play : EnginePlay) (self self0 : ChessGame) (m : Move) :
  playable self (get_ai_move play self) = Some m ->
  record_capture (to_square m) self = Ok self0 ->
  ai_turn play self =
    Ok (set_ai_thinking false
          (if is_game_over (board (applied m self self0))
           then concluded (applied m self self0)
           else applied m self self0)).
Proof.
  intros Hm Hcap. unfold ai_turn. rewrite Hm, Hcap.
  unfold concluded, applied. cbn.
  destruct (is_game_over (push (board self0) m)); [|reflexivity].
  cbn. destruct (is_checkmate (push (board self0) m)); reflexivity.
Qed.

Lemma ai_turn_skipped (play : EnginePlay) (self : ChessGame) :
  playable self (get_ai_move play self) = None ->
  ai_turn play self = Ok (set_ai_thinking false self).
Proof. intros Hm. unfold ai_turn. rewrite Hm. reflexivity. Qed.

Lemma first_ai_move_applied (play : EnginePlay) (self : ChessGame) (m : Move) :
  playable self (get_ai_move play self) = Some m ->
  first_ai_move play self = applied m self self.
Proof. intros Hm. unfold first_ai_move. rewrite Hm. reflexivity. Qed.

Lemma first_ai_move_skipped (play : EnginePlay) (self : ChessGame) :
  playable self (get_ai_move play self) = None ->
  first_ai_move play self = self.
Proof. intros Hm. unfold first_ai_move. rewrite Hm. reflexivity. Qed.

Lemma playable_Some (self : ChessGame) (ai_move : option Move) (m : Move) :
  playable self ai_move = Some m ->
  ai_move = Some m /\ move_bool m = true /\ m ∈ legal_moves (board self).
Proof.
  unfold playable. destruct ai_move as [m'|]; [|discriminate].
  destruct (move_bool m') eqn:Hb; [|discriminate]. cbn.
  case_bool_decide; [|discriminate]. intros [= ->]. auto.
Qed.

Lemma playable_None (self : ChessGame) (play : EnginePlay) :
  engine self = false \/ play = Failed \/ play = Played None \/
  (exists m, play = Played (Some m) /\ m ∉ legal_moves (board self)) ->
  playable self (get_ai_move play self) = None.
Proof.
  unfold get_ai_move, playable.
  intros [-> | [-> | [-> | (m & -> & Hm)]]]; cbn; try reflexivity;
    destruct (engine self); cbn; try reflexivity.
  rewrite bool_decide_eq_false_2 by done. rewrite andb_false_r. reflexivity.
Qed.

Lemma list_pop_Ok {A : Type} (l l' : list A) :
  list_pop l = Ok l' -> exists x, l = l' ++ [x].
Proof.
  destruct l as [|a l] using rev_ind; [discriminate|].
  unfold list_pop. destruct (l ++ [a]) eqn:E; [destruct l; discriminate|].
  rewrite <- E. intros [= <-]. exists a. rewrite removelast_last. reflexivity.
Qed.

Lemma list_pop_snoc {A : Type} (l : list A) (x : A) : list_pop (l ++ [x]) = Ok l.
Proof.
  unfold list_pop. destruct (l ++ [x]) eqn:E; [destruct l; discriminate|].
  rewrite <- E, removelast_last. reflexivity.
Qed.

Lemma pop_push (b : Board) (m : Move) : pop (push b m) = Ok b.
Proof. destruct b. reflexivity. Qed.

Lemma undo_Ok (self self' : ChessGame) :
  undo self = Ok self' ->
  exists b1 b2 h x y,
    pop (board self) = Ok b1 /\ pop b1 = Ok b2 /\
    move_history self = h ++ [x; y] /\
    self' = deselected
              (set_ai_thinking false
                 (set_checkmate_popup false
                    (set_game_over false (set_move_history h (set_board b2 self))))).
Proof.
  unfold undo. destruct (pop (board self)) as [b1|] eqn:E1; [|discriminate]. cbn.
  destruct (pop b1) as [b2|] eqn:E2; [|discriminate]. cbn.
  destruct (list_pop (move_history self)) as [h1|] eqn:E3; [|discriminate]. cbn.
  destruct (list_pop h1) as [h|] eqn:E4; [|discriminate]. cbn.
  intros [= <-].
  apply list_pop_Ok in E3 as [y Hy]. apply list_pop_Ok in E4 as [x Hx]. subst h1.
  exists b1, b2, h, x, y. rewrite Hy, <- app_assoc. auto.
Qed.

Lemma applied_board (m : Move) (self self0 : ChessGame) :
  self0 = set_captured_pieces (captured_pieces self0) self ->
  board (applied m self self0) = push (board self) m /\
  move_history (applied m self self0) = move_history self ++ [san (board self) m] /\
  last_move (applied m self self0) = Some m /\
  captured_pieces (applied m self self0) = captured_pieces self0.
Proof. intros ->. repeat split. Qed.

Lemma concluded_fields (self : ChessGame) :
  board (concluded self) = board self /\
  move_history (concluded self) = move_history self /\
  last_move (concluded self) = last_move self /\
  captured_pieces (concluded self) = captured_pieces self /\
  game_over (concluded self) = true /\
  checkmate_popup (concluded self) = true /\
  winner (concluded self) =
    (if is_checkmate (board self)
     then Some (if turn (board self) then "Black" else "White")
     else winner self).
Proof.
  unfold concluded. destruct (is_checkmate (board self)); repeat split.
  cbn. destruct (turn (board self)); reflexivity.
Qed.

(** What a release that applies a move, and an engine turn that applies one,
    leave in the fields the plies are recorded in. *)

Lemma release_ply (selected : Square) (pos : Z * Z) (self self' : ChessGame)
    (target : Square) :
  let move := {| from_square := selected; to_square := target; promotion := None |} in
  pixel_to_square (player_color self) pos = Some target ->
  move ∈ valid_moves self ->
  release selected pos self = Ok self' ->
  exists self0, record_capture target self = Ok self0 /\
    board self' = push (board self) move /\
    move_history self' = move_history self ++ [san (board self) move] /\
    last_move self' = Some move /\
    captured_pieces self' = captured_pieces self0.
Proof.
  intros move Hpx Hin H.
  destruct (record_capture target self) as [self0|e] eqn:Hcap.
  2: { rewrite (release_raises selected pos self target e) in H by assumption. discriminate. }
  rewrite (release_applied selected pos self self0 target) in H by assumption.
  injection H as <-. exists self0. split; [reflexivity|].
  destruct (record_capture_Ok _ _ _ Hcap) as [Hs _].
  unfold concluded, applied. rewrite Hs.
  repeat match goal with |- context [if ?c then _ else _] => destruct c end;
    repeat split.
Qed.

Lemma ai_turn_ply (play : EnginePlay) (self self' : ChessGame) (m : Move) :
  playable self (get_ai_move play self) = Some m ->
  ai_turn play self = Ok self' ->
  exists self0, record_capture (to_square m) self = Ok self0 /\
    board self' = push (board self) m /\
    move_history self' = move_history self ++ [san (board self) m] /\
    last_move self' = Some m /\
    captured_pieces self' = captured_pieces self0.
Proof.
  intros Hm H.
  destruct (record_capture (to_square m) self) as [self0|e] eqn:Hcap.
  2: { unfold ai_turn in H. rewrite Hm, Hcap in H. discriminate. }
  rewrite (ai_turn_applied play self self0 m) in H by assumption.
  injection H as <-. exists self0. split; [reflexivity|].
  destruct (record_capture_Ok _ _ _ Hcap) as [Hs _].
  unfold concluded, applied. rewrite Hs.
  repeat match goal with |- context [if ?c then _ else _] => destruct c end;
    repeat split.
Qed.

(** ** Notation *)

(** C8.  Each of the three places that apply a move (the human's release,
    the engine's turn, the engine's first move as White) logs the notation
    that the rules library gives for the move on the board as it was before
    the push. *)
Theorem san_before_push (selected : Square) (pos : Z * Z) (play : EnginePlay)
    (self self' : ChessGame) (target : Square) (m : Move) :
  (pixel_to_square (player_color self) pos = Some target ->
   {| from_square := selected; to_square := target; promotion := None |} ∈ valid_moves self ->
   release selected pos self = Ok self' ->
   let move := {| from_square := selected; to_square := target; promotion := None |} in
   board self' = push (board self) move /\
   move_history self' = move_history self ++ [san (board self) move]) /\
  (playable self (get_ai_move play self) = Some m ->
   ai_turn play self = Ok self' ->
   board self' = push (board self) m /\
   move_history self' = move_history self ++ [san (board self) m]) /\
  (playable self (get_ai_move play self) = Some m ->
   board (first_ai_move play self) = push (board self) m /\
   move_history (first_ai_move play self) = move_history self ++ [san (board self) m]).
Proof.
  repeat apply conj.
  - intros Hpx Hin H move.
    destruct (release_ply selected pos self self' target Hpx Hin H) as (? & _ & ? & ? & _).
    auto.
  - intros Hm H.
    destruct (ai_turn_ply play self self' m Hm H) as (? & _ & ? & ? & _). auto.
  - intros Hm. rewrite (first_ai_move_applied play self m Hm). split; reflexivity.
Qed.

(** ** The engine's turn *)

Lemma update_timer_fields (now : Q) (self : ChessGame) :
  board (update_timer now self) = board self /\
  move_history (update_timer now self) = move_history self /\
  captured_pieces (update_timer now self) = captured_pieces self /\
  last_move (update_timer now self) = last_move self /\
  ai_thinking (update_timer now self) = ai_thinking self /\
  selected_square (update_timer now self) = selected_square self /\
  valid_moves (update_timer now self) = valid_moves self /\
  selected_piece (update_timer now self) = selected_piece self /\
  selected_piece_pos (update_timer now self) = selected_piece_pos self /\
  player_color (update_timer now self) = player_color self /\
  game_started (update_timer now self) = game_started self.
Proof.
  unfold update_timer.
  destruct (negb (game_started self) || game_over self); [repeat split|].
  cbn zeta. case_bool_decide; cbn;
    repeat match goal with |- context [Qle_bool ?a ?b] => destruct (Qle_bool a b) end;
    repeat split.
Qed.

(** C6.  In the engine's turn, when there is no engine, the call fails or
    times out, no move comes back, or the move that comes back is not legal,
    the turn completes without an exception and changes nothing but the
    thinking flag; the sequencer is back in the human's turn, and the frame
    ends with the board, the history, the tallies and the last-move marker
    as they were. *)
Theorem engine_skip (amb : Ambient) (l : Loop) :
  phase l = EngineTurn ->
  (engine (self_ l) = false \/ engine_play amb = Failed \/ engine_play amb = Played None \/
   (exists m, engine_play amb = Played (Some m) /\ m ∉ legal_moves (board (self_ l)))) ->
  ai_turn (engine_play amb) (self_ l) = Ok (set_ai_thinking false (self_ l)) /\
  phase (with_self l (set_ai_thinking false (self_ l))) = HumanTurn /\
  exists l', end_of_frame amb l = Ok l' /\
    board (self_ l') = board (self_ l) /\
    move_history (self_ l') = move_history (self_ l) /\
    captured_pieces (self_ l') = captured_pieces (self_ l) /\
    last_move (self_ l') = last_move (self_ l) /\
    ai_thinking (self_ l') = false /\
    color_selection l' = false.
Proof.
  intros Hphase Hno.
  assert (color_selection l = false /\ game_over (self_ l) = false /\
          ai_thinking (self_ l) = true) as (Hcs & Hgo & Hai).
  { unfold phase in Hphase. destruct (color_selection l); [discriminate|].
    destruct (game_over (self_ l)); [discriminate|].
    destruct (ai_thinking (self_ l)); [auto | discriminate]. }
  pose proof (ai_turn_skipped _ _ (playable_None _ _ Hno)) as Hskip.
  split; [exact Hskip|]. split.
  - unfold phase. cbn. rewrite Hcs, Hgo. reflexivity.
  - unfold end_of_frame. rewrite Hcs, Hai, Hgo. cbn [negb andb]. rewrite Hskip. cbn.
    eexists. split; [reflexivity|]. cbn [self_ color_selection with_self].
    destruct (update_timer_fields (time_time amb) (set_ai_thinking false (self_ l)))
      as (-> & -> & -> & -> & -> & _).
    repeat split. exact Hcs.
Qed.

(** ** Undo *)

(** C10.  The undo key leaves the clocks, the tallies, the winner, and also
    the last-move marker, the colour choice and the loop's own flags as they
    were: what it changes lies among the board, the history, the selection
    and the three flags [game_over], [checkmate_popup] and [ai_thinking]. *)
Theorem undo_frame (amb : Ambient) (l l' : Loop) :
  handle_event amb l (KEYDOWN K_u) = Ok l' ->
  white_time (self_ l') = white_time (self_ l) /\
  black_time (self_ l') = black_time (self_ l) /\
  last_time (self_ l') = last_time (self_ l) /\
  captured_pieces (self_ l') = captured_pieces (self_ l) /\
  winner (self_ l') = winner (self_ l) /\
  last_move (self_ l') = last_move (self_ l) /\
  player_color (self_ l') = player_color (self_ l) /\
  game_started (self_ l') = game_started (self_ l) /\
  engine (self_ l') = engine (self_ l) /\
  color_selection l' = color_selection l /\
  running l' = running l.
Proof.
  unfold handle_event. destruct (color_selection l) eqn:Hcs.
  { intros [= <-]. repeat split. exact Hcs. }
  destruct (2 <=? length (move_history (self_ l)))%nat.
  2: { intros [= <-]. repeat split. exact Hcs. }
  destruct (undo (self_ l)) as [self'|] eqn:Hu; cbn; [|discriminate].
  intros [= <-]. apply undo_Ok in Hu as (b1 & b2 & h & x & y & _ & _ & _ & ->).
  repeat split. exact Hcs.
Qed.

(** ** Consistency is kept by every step *)

Lemma history_of_push (b : Board) (m : Move) :
  history_of (push b m) = history_of b ++ [san b m].
Proof. unfold history_of, push, san. cbn. apply reverse_cons. Qed.

Lemma history_length (b : Board) : length (history_of b) = length (move_stack b).
Proof. unfold history_of. rewrite length_reverse, length_fmap. reflexivity. Qed.

Lemma played_pop (b b' : Board) : played b -> pop b = Ok b' -> played b'.
Proof.
  intros [|b0 m Hb0]; [discriminate|]. rewrite pop_push. intros [= <-]. exact Hb0.
Qed.

Lemma played_pop_inv (b b' : Board) :
  played b -> pop b = Ok b' -> exists m, b = push b' m.
Proof.
  intros [|b0 m Hb0]; [discriminate|]. rewrite pop_push. intros [= <-]. eauto.
Qed.

Lemma played_two (b : Board) :
  played b -> (2 <= length (move_stack b))%nat ->
  exists b0 m1 m2, played b0 /\ b = push (push b0 m1) m2.
Proof.
  intros [|b1 m2 [|b0 m1 Hb0]]; cbn; intros Hlen; try lia.
  exists b0, m1, m2. auto.
Qed.

Lemma consistent_start (now : Q) (stockfish : bool) : consistent (start now stockfish).
Proof.
  constructor; cbn; try done. constructor.
Qed.

Lemma consistent_reset (now : Q) (stockfish : bool) (self : ChessGame) (r : bool) :
  consistent {| self_ := reset_game now stockfish self; color_selection := true; running := r |}.
Proof.
  constructor; cbn; try done. constructor.
Qed.

(** Steps that leave alone what consistency speaks about. *)

Lemma consistent_same (l l' : Loop) :
  consistent l ->
  board (self_ l') = board (self_ l) ->
  move_history (self_ l') = move_history (self_ l) ->
  captured_pieces (self_ l') = captured_pieces (self_ l) ->
  checkmate_popup (self_ l') = game_over (self_ l') ->
  game_started (self_ l') = game_started (self_ l) ->
  color_selection l' = color_selection l ->
  player_color (self_ l') = player_color (self_ l) ->
  (ai_thinking (self_ l) = false -> ai_thinking (self_ l') = false) ->
  (color_selection l = true -> game_over (self_ l') = false) ->
  (forall sq, selected_square (self_ l') = Some sq -> selected_square (self_ l) = Some sq) ->
  (selected_square (self_ l') = None -> selection_empty (self_ l')) ->
  consistent l'.
Proof.
  intros [] Hb Hh Hc Hp Hs Hcs Hpc Hai Hgo Hsq Hse.
  constructor; rewrite ?Hb, ?Hh, ?Hc, ?Hs, ?Hcs, ?Hpc in *; try assumption.
  - intros Ht. destruct (c_fresh0 Ht) as (? & ? & ? & Hn). repeat split; auto.
    destruct (selected_square (self_ l')) as [sq|] eqn:E; [|reflexivity].
    rewrite (Hsq sq eq_refl) in Hn. discriminate.
  - intros sq Hsome. destruct (c_selected0 sq (Hsq sq Hsome)) as (? & ? & ?). auto.
Qed.

Lemma consistent_update_timer (now : Q) (l : Loop) :
  consistent l -> color_selection l = false ->
  consistent (with_self l (update_timer now (self_ l))).
Proof.
  intros Hc Hcs.
  destruct (update_timer_fields now (self_ l))
    as (Hb & Hh & Hcp & _ & Hai & Hsq & Hvm & Hsp & Hspp & Hpc & Hgs).
  apply (consistent_same l); cbn; try assumption; try congruence.
  - unfold update_timer.
    destruct (negb (game_started (self_ l)) || game_over (self_ l)); [apply Hc|].
    cbn zeta. case_bool_decide; cbn;
      repeat match goal with |- context [Qle_bool ?a ?b] => destruct (Qle_bool a b) end;
      cbn; try reflexivity; apply Hc.
  - intros Hn. rewrite Hsq in Hn.
    destruct (c_selection _ Hc Hn) as (? & ? & ? & ?).
    unfold selection_empty. repeat split; congruence.
Qed.

Lemma record_capture_keys (target : Square) (self self0 : ChessGame) :
  record_capture target self = Ok self0 ->
  is_Some (captured_pieces self !! "w") -> is_Some (captured_pieces self !! "b") ->
  is_Some (captured_pieces self0 !! "w") /\ is_Some (captured_pieces self0 !! "b").
Proof.
  intros H Hw Hb. destruct (record_capture_Ok _ _ _ H) as [_ Hc].
  destruct (piece_at (board self) target) as [p|].
  - destruct Hc as (tally & _ & ->).
    split; rewrite lookup_insert; case_decide; eauto.
  - rewrite Hc. auto.
Qed.

(** The state after a ply, from a consistent one. *)

Lemma consistent_moved (l : Loop) (self' : ChessGame) (m : Move) :
  consistent l -> color_selection l = false ->
  board self' = push (board (self_ l)) m ->
  move_history self' = move_history (self_ l) ++ [san (board (self_ l)) m] ->
  is_Some (captured_pieces self' !! "w") -> is_Some (captured_pieces self' !! "b") ->
  checkmate_popup self' = game_over self' ->
  game_started self' = game_started (self_ l) ->
  player_color self' = player_color (self_ l) ->
  selection_empty self' ->
  consistent (with_self l self').
Proof.
  intros [] Hcs Hb Hh Hw Hbk Hp Hgs Hpc (Hs1 & Hs2 & Hs3 & Hs4).
  constructor; cbn; rewrite ?Hb, ?Hgs, ?Hpc, ?Hcs in *; try assumption; try done.
  - constructor. assumption.
  - rewrite Hh, history_of_push, c_history0. reflexivity.
  - intros sq. rewrite Hs1. discriminate.
Qed.

Lemma consistent_release (l : Loop) (selected : Square) (pos : Z * Z) :
  consistent l -> color_selection l = false ->
  exists self', release selected pos (self_ l) = Ok self' /\ consistent (with_self l self').
Proof.
  intros Hc Hcs.
  destruct (pixel_to_square (player_color (self_ l)) pos) as [target|] eqn:Hpx.
  1: destruct (decide ({| from_square := selected; to_square := target; promotion := None |}
                        ∈ valid_moves (self_ l))) as [Hin | Hnin].
  - destruct (record_capture_total target (self_ l) (c_tally_w _ Hc) (c_tally_b _ Hc))
      as [self0 Hcap].
    eexists. split; [apply (release_applied _ _ _ self0 target); assumption|].
    destruct (record_capture_keys _ _ _ Hcap (c_tally_w _ Hc) (c_tally_b _ Hc)) as [Hw Hb].
    destruct (record_capture_Ok _ _ _ Hcap) as [Hs _].
    pose proof (c_popup _ Hc) as Hp.
    eapply consistent_moved; try assumption;
      unfold concluded, applied; revert Hw Hb; rewrite Hs; intros Hw Hb;
      repeat match goal with |- context [if ?c then _ else _] => destruct c end;
      cbn; try reflexivity; try assumption; try done.
  - eexists. split; [apply release_reverted; rewrite Hpx; assumption|].
    apply (consistent_same l); cbn; try reflexivity; try discriminate; try done.
    + apply Hc.
    + intros Ht. apply (c_fresh _ Hc Ht).
  - eexists. split; [apply release_reverted; rewrite Hpx; exact I|].
    apply (consistent_same l); cbn; try reflexivity; try discriminate; try done.
    + apply Hc.
    + intros Ht. apply (c_fresh _ Hc Ht).
Qed.

Lemma consistent_ai_turn (l : Loop) (play : EnginePlay) :
  consistent l -> color_selection l = false -> ai_thinking (self_ l) = true ->
  exists self', ai_turn play (self_ l) = Ok self' /\ consistent (with_self l self').
Proof.
  intros Hc Hcs Hai.
  assert (Hnone : selected_square (self_ l) = None).
  { destruct (selected_square (self_ l)) as [sq|] eqn:E; [|reflexivity].
    destruct (c_selected _ Hc sq E) as (_ & Hf & _). congruence. }
  pose proof (c_selection _ Hc Hnone) as Hempty.
  destruct (playable (self_ l) (get_ai_move play (self_ l))) as [m|] eqn:Hm.
  - destruct (record_capture_total (to_square m) (self_ l) (c_tally_w _ Hc) (c_tally_b _ Hc))
      as [self0 Hcap].
    eexists. split; [apply (ai_turn_applied _ _ self0 m); assumption|].
    destruct (record_capture_keys _ _ _ Hcap (c_tally_w _ Hc) (c_tally_b _ Hc)) as [Hw Hb].
    destruct (record_capture_Ok _ _ _ Hcap) as [Hs _].
    pose proof (c_popup _ Hc) as Hp.
    eapply consistent_moved; try assumption;
      unfold concluded, applied; revert Hw Hb; rewrite Hs; intros Hw Hb;
      repeat match goal with |- context [if ?c then _ else _] => destruct c end;
      cbn; try reflexivity; try assumption; try done.
  - eexists. split; [apply ai_turn_skipped; assumption|].
    apply (consistent_same l); cbn; try reflexivity; try done.
    + apply Hc.
    + rewrite Hcs. discriminate.
Qed.

Lemma consistent_first_ai_move (l : Loop) (play : EnginePlay) (pc : bool) :
  consistent l -> color_selection l = true ->
  consistent {| self_ := first_ai_move play
                           (set_game_started true (set_player_color (Some pc) (self_ l)));
                color_selection := false; running := running l |} /\
  consistent {| self_ := set_game_started true (set_player_color (Some pc) (self_ l));
                color_selection := false; running := running l |}.
Proof.
  intros Hc Hcs. destruct (c_fresh _ Hc Hcs) as (Hb & Hgo & Hai & Hsq).
  pose proof (c_selection _ Hc Hsq) as (_ & Hvm & Hsp & Hspp).
  assert (Hchosen :
    consistent {| self_ := set_game_started true (set_player_color (Some pc) (self_ l));
                  color_selection := false; running := running l |}).
  { destruct Hc. constructor; cbn; try assumption; try done.
    intros sq. rewrite Hsq. discriminate. }
  split; [|exact Hchosen].
  set (chosen := set_game_started true (set_player_color (Some pc) (self_ l))) in *.
  destruct (playable chosen (get_ai_move play chosen)) as [m|] eqn:Hm.
  - rewrite (first_ai_move_applied _ _ _ Hm).
    apply (consistent_moved
             {| self_ := chosen; color_selection := false; running := running l |}
             (applied m chosen chosen) m Hchosen); cbn; try reflexivity.
    + apply Hc.
    + apply Hc.
    + apply Hc.
    + repeat split; assumption.
  - rewrite (first_ai_move_skipped _ _ Hm). exact Hchosen.
Qed.

Lemma press_cases (pos : Z * Z) (self : ChessGame) :
  press pos self = self \/
  exists sq piece,
    pixel_to_square (player_color self) pos = Some sq /\
    piece_at (board self) sq = Some piece /\
    color piece = turn (board self) /\
    (truthy (player_color self) = true /\ color piece = WHITE \/
     truthy (player_color self) = false /\ color piece = BLACK) /\
    press pos self =
      set_selected_piece_pos (Some pos)
        (set_selected_piece
           (Some ((if bool_decide (color piece = WHITE) then "w" else "b")
                  +:+ lower (symbol piece)))
           (set_valid_moves
              (filter (λ move, from_square move = sq) (legal_moves (board self)))
              (set_selected_square (Some sq) self))).
Proof.
  unfold press.
  destruct (pixel_to_square (player_color self) pos) as [square|]; [|auto].
  destruct (piece_at (board self) square) as [piece|] eqn:Hp; [|auto].
  match goal with |- context [if ?c then _ else _] => destruct c eqn:Hg end; [|auto].
  right. exists square, piece.
  apply andb_true_iff in Hg as [H1 H2]. apply bool_decide_eq_true in H1.
  split; [reflexivity|]. split; [exact Hp|]. split; [exact H1|].
  split; [|reflexivity].
  apply orb_true_iff in H2 as [H2 | H2]; apply andb_true_iff in H2 as [H2 H3];
    apply bool_decide_eq_true in H3; [left | right]; split; try assumption.
  destruct (truthy (player_color self)); [discriminate | reflexivity].
Qed.

Lemma with_self_same (l : Loop) : with_self l (self_ l) = l.
Proof. destruct l. reflexivity. Qed.

Lemma consistent_press (l : Loop) (pos : Z * Z) :
  consistent l -> color_selection l = false -> ai_thinking (self_ l) = false ->
  consistent (with_self l (press pos (self_ l))).
Proof.
  intros Hc Hcs Hai.
  destruct (press_cases pos (self_ l))
    as [-> | (sq & piece & _ & _ & Hturn & Hside & ->)].
  { rewrite with_self_same. exact Hc. }
  destruct Hc. constructor; cbn; try assumption; try done.
  - rewrite Hcs. discriminate.
  - intros ? _. split; [assumption|]. split; [assumption|].
    destruct (c_choice0 Hcs) as [pc Hpc]. rewrite Hpc in *. rewrite <- Hturn.
    destruct pc, Hside as [[Ht ->] | [Ht ->]]; cbn in Ht; try discriminate; reflexivity.
Qed.

Lemma bind_Ok {A B : Type} (a : A) (f : A -> Res B) : (Ok a ≫= f) = f a.
Proof. reflexivity. Qed.

Lemma undo_two (self : ChessGame) (b0 : Board) (m1 m2 : Move) (h : list string)
    (x y : string) :
  board self = push (push b0 m1) m2 ->
  move_history self = h ++ [x; y] ->
  undo self =
    Ok (deselected
          (set_ai_thinking false
             (set_checkmate_popup false
                (set_game_over false (set_move_history h (set_board b0 self)))))).
Proof.
  intros Hb Hh. unfold undo. rewrite Hb, pop_push, bind_Ok, pop_push, bind_Ok, Hh.
  change [x; y] with ([x] ++ [y]).
  rewrite app_assoc, list_pop_snoc, bind_Ok, list_pop_snoc, bind_Ok. reflexivity.
Qed.

Lemma consistent_undo (l : Loop) :
  consistent l -> color_selection l = false ->
  (2 <= length (move_history (self_ l)))%nat ->
  exists self', undo (self_ l) = Ok self' /\ consistent (with_self l self') /\
    exists b0 m1 m2 h,
      board (self_ l) = push (push b0 m1) m2 /\
      move_history (self_ l) = h ++ [san b0 m1; san (push b0 m1) m2] /\
      board self' = b0 /\ move_history self' = h.
Proof.
  intros Hc Hcs Hlen.
  rewrite (c_history _ Hc), history_length in Hlen.
  destruct (played_two _ (c_played _ Hc) Hlen) as (b0 & m1 & m2 & Hb0 & Hb).
  pose proof (c_history _ Hc) as Hh.
  rewrite Hb, !history_of_push, <- app_assoc in Hh. cbn [app] in Hh.
  eexists. split; [apply (undo_two _ b0 m1 m2 _ _ _ Hb Hh)|].
  split.
  - destruct Hc. constructor; cbn; try assumption; try done.
    rewrite Hcs. discriminate.
  - exists b0, m1, m2, (history_of b0). auto.
Qed.

Lemma consistent_running (l : Loop) (r : bool) :
  consistent l ->
  consistent {| self_ := self_ l; color_selection := color_selection l; running := r |}.
Proof. intros []. constructor; assumption. Qed.

Lemma consistent_motion (l : Loop) (pos : Z * Z) (name : string) :
  consistent l -> selected_piece (self_ l) = Some name ->
  consistent (with_self l (set_selected_piece_pos (Some pos) (self_ l))).
Proof.
  intros Hc Hname.
  apply (consistent_same l); cbn; try reflexivity; try done; try apply Hc.
  intros Hnone. destruct (c_selection _ Hc Hnone) as (_ & _ & Hsp & _). congruence.
Qed.

(** Every event is handled without an exception and keeps the session
    consistent. *)

Lemma step_event (amb : Ambient) (l : Loop) (event : Event) :
  consistent l ->
  exists l', handle_event amb l event = Ok l' /\ consistent l'.
Proof.
  intros Hc. unfold handle_event.
  destruct event as [|pos button|pos button|pos|key|];
    try (eexists; split; [reflexivity | apply consistent_running, Hc]);
    destruct (color_selection l) eqn:Hcs.
  - (* a press in the colour selection *)
    destruct (collidepoint white_rect pos);
      [|destruct (collidepoint black_rect pos)];
      (eexists; split; [reflexivity|]);
      try apply (consistent_first_ai_move l (engine_play amb) _ Hc Hcs); exact Hc.
  - (* a press in the game *)
    destruct (game_over (self_ l)) eqn:Hgo; cbn [negb andb]; [eauto|].
    destruct (ai_thinking (self_ l)) eqn:Hai; cbn [negb]; [eauto|].
    destruct (button =? 1); [|eauto].
    destruct (checkmate_popup (self_ l)) eqn:Hp.
    + unfold draw_checkmate_popup. rewrite Hp. cbn [negb].
      destruct (collidepoint button_rect pos); [|eauto].
      eexists. split; [reflexivity | apply consistent_reset].
    + eexists. split; [reflexivity | apply consistent_press; assumption].
  - eauto.
  - (* a release *)
    destruct (negb (game_over (self_ l)) && negb (ai_thinking (self_ l))); [|eauto].
    destruct (selected_square (self_ l)) as [selected|]; [|eauto].
    destruct (button =? 1); [|eauto].
    destruct (consistent_release l selected (mouse_get_pos amb) Hc Hcs) as (self' & -> & Hc').
    eauto.
  - eauto.
  - (* pointer motion *)
    destruct (selected_piece (self_ l)) as [name|] eqn:Hname; [|eauto].
    destruct (str_bool name); [|eauto].
    eexists. split; [reflexivity | apply (consistent_motion l pos name Hc Hname)].
  - eauto.
  - (* keys *)
    destruct key; [| |eauto].
    + eexists. split; [reflexivity | apply consistent_reset].
    + destruct (2 <=? length (move_history (self_ l)))%nat eqn:Hlen; [|eauto].
      apply Nat.leb_le in Hlen.
      destruct (consistent_undo l Hc Hcs Hlen) as (self' & -> & Hc' & _). eauto.
  - eauto.
  - eauto.
Qed.

Lemma step_end_of_frame (amb : Ambient) (l : Loop) :
  consistent l ->
  exists l', end_of_frame amb l = Ok l' /\ consistent l'.
Proof.
  intros Hc. unfold end_of_frame. destruct (color_selection l) eqn:Hcs; cbn [negb]; [eauto|].
  destruct (ai_thinking (self_ l) && negb (game_over (self_ l))) eqn:Hturn.
  - apply andb_true_iff in Hturn as [Hai _].
    destruct (consistent_ai_turn l (engine_play amb) Hc Hcs Hai) as (self' & -> & Hc').
    rewrite bind_Ok. eexists. split; [reflexivity|].
    apply (consistent_update_timer (time_time amb) (with_self l self') Hc' Hcs).
  - rewrite bind_Ok. eexists. split; [reflexivity|].
    apply (consistent_update_timer (time_time amb) l Hc Hcs).
Qed.

Lemma reachable_consistent (l : Loop) : reachable l -> consistent l.
Proof.
  induction 1 as [now stockfish | l amb event l' _ IH Hstep | l amb l' _ IH Hstep].
  - apply consistent_start.
  - destruct (step_event amb l event IH) as (l'' & Hl & Hc). congruence.
  - destruct (step_end_of_frame amb l IH) as (l'' & Hl & Hc). congruence.
Qed.

(** No exception leaves the loop. *)

Lemma handle_events_total (l : Loop) (events : list (Ambient * Event)) :
  reachable l -> exists l', handle_events l events = Ok l' /\ reachable l'.
Proof.
  revert l. induction events as [|[amb event] rest IH]; intros l Hl; cbn; [eauto|].
  destruct (step_event amb l event (reachable_consistent l Hl)) as (l1 & Hl1 & _).
  rewrite Hl1, bind_Ok. apply IH. eapply reachable_event; eassumption.
Qed.

Lemma frame_total (l : Loop) (events : list (Ambient * Event)) (amb : Ambient) :
  reachable l -> exists l', frame l events amb = Ok l' /\ reachable l'.
Proof.
  intros Hl. unfold frame.
  destruct (handle_events_total l events Hl) as (l1 & -> & Hl1). rewrite bind_Ok.
  destruct (step_end_of_frame amb l1 (reachable_consistent l1 Hl1)) as (l2 & Hl2 & _).
  exists l2. split; [assumption|]. eapply reachable_end_of_frame; eassumption.
Qed.

Lemma run_total (l : Loop) (frames : list (list (Ambient * Event) * Ambient)) :
  reachable l -> exists l', run l frames = Ok l' /\ reachable l'.
Proof.
  revert l. induction frames as [|[events amb] rest IH]; intros l Hl; cbn; [eauto|].
  destruct (running l); [|eauto].
  destruct (frame_total l events amb Hl) as (l1 & -> & Hl1). rewrite bind_Ok. auto.
Qed.

(** ** Tallies *)

Lemma release_tally (selected : Square) (pos : Z * Z) (self self' : ChessGame) :
  release selected pos self = Ok self' -> tally_change self self'.
Proof.
  intros H.
  destruct (pixel_to_square (player_color self) pos) as [target|] eqn:Hpx.
  1: destruct (decide ({| from_square := selected; to_square := target; promotion := None |}
                        ∈ valid_moves self)) as [Hin | Hnin].
  - destruct (release_ply selected pos self self' target Hpx Hin H)
      as (self0 & Hcap & Hb & _ & _ & Hc).
    destruct (record_capture_Ok _ _ _ Hcap) as [_ Ht].
    destruct (piece_at (board self) target) as [p|] eqn:Hp.
    + destruct Ht as (tally & Hl & Hi).
      apply (tally_capture self self' _ p tally Hb); [exact Hp | exact Hl | congruence].
    + apply tally_same. congruence.
  - rewrite release_reverted in H by (rewrite Hpx; assumption).
    injection H as <-. apply tally_same. reflexivity.
  - rewrite release_reverted in H by (rewrite Hpx; exact I).
    injection H as <-. apply tally_same. reflexivity.
Qed.

Lemma ai_turn_tally (play : EnginePlay) (self self' : ChessGame) :
  ai_turn play self = Ok self' -> tally_change self self'.
Proof.
  intros H. destruct (playable self (get_ai_move play self)) as [m|] eqn:Hm.
  - destruct (ai_turn_ply play self self' m Hm H) as (self0 & Hcap & Hb & _ & _ & Hc).
    destruct (record_capture_Ok _ _ _ Hcap) as [_ Ht].
    destruct (piece_at (board self) (to_square m)) as [p|] eqn:Hp.
    + destruct Ht as (tally & Hl & Hi).
      apply (tally_capture self self' m p tally Hb); [exact Hp | exact Hl | congruence].
    + apply tally_same. congruence.
  - rewrite (ai_turn_skipped _ _ Hm) in H. injection H as <-. apply tally_same. reflexivity.
Qed.

Lemma first_ai_move_tally (play : EnginePlay) (self : ChessGame) :
  captured_pieces (first_ai_move play self) = captured_pieces self.
Proof. unfold first_ai_move. destruct (playable _ _); reflexivity. Qed.

Lemma press_tally (pos : Z * Z) (self : ChessGame) :
  captured_pieces (press pos self) = captured_pieces self.
Proof.
  destruct (press_cases pos self) as [-> | (? & ? & _ & _ & _ & _ & ->)]; reflexivity.
Qed.

Lemma event_tally (amb : Ambient) (l l' : Loop) (event : Event) :
  handle_event amb l event = Ok l' -> tally_change (self_ l) (self_ l').
Proof.
  unfold handle_event.
  destruct event as [|pos button|pos button|pos|[| |]|]; destruct (color_selection l);
    repeat match goal with
      | |- Ok _ = Ok _ -> _ => intros [= <-]
      | |- context [release ?a ?b ?c] =>
          destruct (release a b c) as [self'|] eqn:Hrel;
          [apply release_tally in Hrel; rewrite bind_Ok | discriminate]
      | |- context [undo ?a] =>
          destruct (undo a) as [self'|] eqn:Hu;
          [apply undo_Ok in Hu as (? & ? & ? & ? & ? & _ & _ & _ & ->); rewrite bind_Ok
          | discriminate]
      | |- context [draw_checkmate_popup ?a] => unfold draw_checkmate_popup
      | |- context [match ?c with _ => _ end] => destruct c
      end;
    cbn [self_ with_self];
    first [ assumption
          | apply tally_same;
            first [reflexivity | apply press_tally
                  | rewrite first_ai_move_tally; reflexivity]
          | apply tally_reset; reflexivity ].
Qed.

Lemma end_of_frame_tally (amb : Ambient) (l l' : Loop) :
  end_of_frame amb l = Ok l' -> tally_change (self_ l) (self_ l').
Proof.
  unfold end_of_frame. destruct (color_selection l); cbn [negb].
  { intros [= <-]. apply tally_same. reflexivity. }
  destruct (update_timer_fields (time_time amb) (self_ l)) as (Hb0 & _ & Hc0 & _).
  destruct (ai_thinking (self_ l) && negb (game_over (self_ l))).
  - destruct (ai_turn (engine_play amb) (self_ l)) as [self'|] eqn:Hai; [|discriminate].
    rewrite bind_Ok. intros [= <-]. cbn [self_ with_self].
    destruct (update_timer_fields (time_time amb) self') as (Hb & _ & Hc & _).
    destruct (ai_turn_tally _ _ _ Hai) as [Hs | Hr Hh | m p tally H1 H2 H3 H4].
    + apply tally_same. congruence.
    + apply tally_same. rewrite Hc.
      destruct (playable (self_ l) (get_ai_move (engine_play amb) (self_ l))) as [m|] eqn:Hm.
      * destruct (ai_turn_ply _ _ _ m Hm Hai) as (_ & _ & _ & Hhist & _).
        rewrite Hh in Hhist. destruct (move_history (self_ l)); discriminate.
      * rewrite (ai_turn_skipped _ _ Hm) in Hai. injection Hai as <-. reflexivity.
    + apply (tally_capture _ _ m p tally); congruence.
  - rewrite bind_Ok. intros [= <-]. apply tally_same. exact Hc0.
Qed.

Lemma tally_key_side (p : Piece) : tally_key p = side_key (color p).
Proof. reflexivity. Qed.

Lemma side_key_inj (a b : bool) : side_key a = side_key b -> a = b.
Proof. destruct a, b; cbv; congruence. Qed.

Lemma record_capture_takes (m : Move) (p : Piece) (self self0 self' : ChessGame) :
  record_capture (to_square m) self = Ok self0 ->
  piece_at (board self) (to_square m) = Some p ->
  board self' = push (board self) m ->
  captured_pieces self' = captured_pieces self0 ->
  takes (negb (color p)) p m self self'.
Proof.
  intros Hcap Hp Hb Hc. destruct (record_capture_Ok _ _ _ Hcap) as [Hs Ht].
  rewrite Hp in Ht. destruct Ht as (tally & Hl & Hi).
  rewrite tally_key_side in Hl, Hi.
  assert (H0 : taken_by (negb (color p)) self0 = Some (tally ++ [upper (symbol p)])).
  { unfold taken_by. rewrite negb_involutive, Hi. apply lookup_insert_eq. }
  exists tally, self0. unfold taken_by in *. rewrite !negb_involutive in *.
  rewrite Hc. repeat split; try assumption.
  - rewrite Hs. reflexivity.
  - rewrite Hi. apply lookup_insert_ne. destruct (color p); discriminate.
Qed.

Lemma tally_change_step (side : bool) (self self' : ChessGame) :
  tally_change self self' -> tally_step side self self'.
Proof.
  intros [Hs | Hr Hh | m p tally Hb Hp Hl Hi].
  - left. unfold taken_by. rewrite Hs. reflexivity.
  - right. left. split; assumption.
  - rewrite tally_key_side in Hl, Hi.
    destruct (decide (color p = negb side)) as [E | E].
    + right. right. exists m, p, tally. unfold taken_by. rewrite Hi, <- E.
      repeat split; try assumption. apply lookup_insert_eq.
    + left. unfold taken_by. rewrite Hi. apply lookup_insert_ne.
      intros H. apply E. apply side_key_inj. exact H.
Qed.

Lemma end_of_frame_step (amb : Ambient) (l l' : Loop) (side : bool) :
  end_of_frame amb l = Ok l' ->
  taken_by side (self_ l') = taken_by side (self_ l) \/
  exists m p tally,
    board (self_ l') = push (board (self_ l)) m /\
    piece_at (board (self_ l)) (to_square m) = Some p /\
    color p = negb side /\
    taken_by side (self_ l) = Some tally /\
    taken_by side (self_ l') = Some (tally ++ [upper (symbol p)]).
Proof.
  intros H.
  destruct (tally_change_step side _ _ (end_of_frame_tally _ _ _ H)) as [Hs | [[Hr Hh] | Hc]];
    [left; exact Hs | | right; exact Hc].
  left. revert H. unfold end_of_frame. destruct (color_selection l); cbn [negb].
  { intros [= <-]. reflexivity. }
  destruct (update_timer_fields (time_time amb) (self_ l)) as (_ & _ & Hc0 & _).
  destruct (ai_thinking (self_ l) && negb (game_over (self_ l))).
  - destruct (ai_turn (engine_play amb) (self_ l)) as [self'|] eqn:Hai; [|discriminate].
    rewrite bind_Ok. intros [= <-]. cbn [self_ with_self] in *.
    destruct (update_timer_fields (time_time amb) self') as (_ & Hh' & Hc & _).
    unfold taken_by. rewrite Hc.
    destruct (playable (self_ l) (get_ai_move (engine_play amb) (self_ l))) as [m|] eqn:Hm.
    + destruct (ai_turn_ply _ _ _ m Hm Hai) as (_ & _ & _ & Hhist & _).
      rewrite Hh' in Hh. rewrite Hh in Hhist.
      destruct (move_history (self_ l)); discriminate.
    + rewrite (ai_turn_skipped _ _ Hm) in Hai. injection Hai as <-. reflexivity.
  - rewrite bind_Ok. intros [= <-]. cbn [self_ with_self].
    unfold taken_by. rewrite Hc0. reflexivity.
Qed.

(** C2.  A side's capture tally is the list of the pieces it has taken.
    When a release or an engine turn applies a move whose destination holds
    a piece of the side not to move, the upper-case symbol of that piece is
    appended to the tally of the side to move, the capturing side, on the
    board as it stands before the push, then the move is pushed, and the
    other side's tally is as it was; with an empty destination neither tally
    changes.  In particular a human release that takes a Black piece appends
    its kind to White's tally.  A side's tally changes only by such an
    append: over any event it is unchanged, extended by the kind of a piece
    of the other colour that stood on the destination of the move pushed, or
    a new game has begun with fresh tallies and an empty history; over any
    end of frame it is unchanged or extended in that way. *)
Theorem capture_tally (amb : Ambient) (l l' : Loop) (event : Event)
    (selected : Square) (pos : Z * Z) (play : EnginePlay)
    (self self' : ChessGame) (target : Square) (m : Move) (side : bool) :
  (pixel_to_square (player_color self) pos = Some target ->
   {| from_square := selected; to_square := target; promotion := None |} ∈ valid_moves self ->
   release selected pos self = Ok self' ->
   match piece_at (board self) target with
   | Some p =>
       color p = negb (turn (board self)) ->
       takes (turn (board self)) p
         {| from_square := selected; to_square := target; promotion := None |} self self'
   | None => captured_pieces self' = captured_pieces self
   end) /\
  (playable self (get_ai_move play self) = Some m ->
   ai_turn play self = Ok self' ->
   match piece_at (board self) (to_square m) with
   | Some p =>
       color p = negb (turn (board self)) ->
       takes (turn (board self)) p m self self'
   | None => captured_pieces self' = captured_pieces self
   end) /\
  (pixel_to_square (player_color self) pos = Some target ->
   {| from_square := selected; to_square := target; promotion := None |} ∈ valid_moves self ->
   release selected pos self = Ok self' ->
   forall p, piece_at (board self) target = Some p -> color p = BLACK ->
   exists tally,
     taken_by WHITE self = Some tally /\
     taken_by WHITE self' = Some (tally ++ [upper (symbol p)]) /\
     taken_by BLACK self' = taken_by BLACK self) /\
  (handle_event amb l event = Ok l' -> tally_step side (self_ l) (self_ l')) /\
  (end_of_frame amb l = Ok l' ->
   taken_by side (self_ l') = taken_by side (self_ l) \/
   exists m p tally,
     board (self_ l') = push (board (self_ l)) m /\
     piece_at (board (self_ l)) (to_square m) = Some p /\
     color p = negb side /\
     taken_by side (self_ l) = Some tally /\
     taken_by side (self_ l') = Some (tally ++ [upper (symbol p)])).
Proof.
  repeat apply conj.
  - intros Hpx Hin H.
    destruct (release_ply selected pos self self' target Hpx Hin H)
      as (self0 & Hcap & Hb & _ & _ & Hc).
    destruct (piece_at (board self) target) as [p|] eqn:Hp.
    + intros Hopp.
      replace (turn (board self)) with (negb (color p))
        by (rewrite Hopp; apply negb_involutive).
      apply (record_capture_takes _ p self self0 self'); assumption.
    + destruct (record_capture_Ok _ _ _ Hcap) as [_ Ht]. rewrite Hp in Ht. congruence.
  - intros Hm H.
    destruct (ai_turn_ply play self self' m Hm H) as (self0 & Hcap & Hb & _ & _ & Hc).
    destruct (piece_at (board self) (to_square m)) as [p|] eqn:Hp.
    + intros Hopp.
      replace (turn (board self)) with (negb (color p))
        by (rewrite Hopp; apply negb_involutive).
      apply (record_capture_takes _ p self self0 self'); assumption.
    + destruct (record_capture_Ok _ _ _ Hcap) as [_ Ht]. rewrite Hp in Ht. congruence.
  - intros Hpx Hin H p Hp Hblack.
    destruct (release_ply selected pos self self' target Hpx Hin H)
      as (self0 & Hcap & Hb & _ & _ & Hc).
    destruct (record_capture_takes
                {| from_square := selected; to_square := target; promotion := None |}
                p self self0 self' Hcap Hp Hb Hc)
      as (tally & _ & Ht & _ & _ & _ & _ & _ & Ht' & Ho).
    rewrite Hblack in Ht, Ht', Ho. exists tally. repeat split; assumption.
  - intros H. apply tally_change_step. exact (event_tally _ _ _ _ H).
  - apply end_of_frame_step.
Qed.

(** ** Undo and the history log *)

(** C3.  In every state of a run the history log is as long as the stack of
    moves on the board.  With fewer than two plies the undo key does nothing.
    With two or more it succeeds: the board returns to the position before
    the last two pushes, the log loses its last two entries, the selection is
    cleared and the sequencer is in the human's turn, whatever state it was
    in. *)
Theorem undo_two_plies (amb : Ambient) (l : Loop) :
  reachable l ->
  length (move_history (self_ l)) = length (move_stack (board (self_ l))) /\
  ((length (move_history (self_ l)) < 2)%nat ->
   handle_event amb l (KEYDOWN K_u) = Ok l) /\
  ((2 <= length (move_history (self_ l)))%nat ->
   exists l' b0 m1 m2 h x y,
     handle_event amb l (KEYDOWN K_u) = Ok l' /\
     board (self_ l) = push (push b0 m1) m2 /\ board (self_ l') = b0 /\
     move_history (self_ l) = h ++ [x; y] /\ move_history (self_ l') = h /\
     length (move_history (self_ l')) = length (move_stack (board (self_ l'))) /\
     selection_empty (self_ l') /\ phase l' = HumanTurn).
Proof.
  intros Hreach. pose proof (reachable_consistent l Hreach) as Hc.
  split; [rewrite (c_history _ Hc); apply history_length|]. split.
  - intros Hlt. unfold handle_event. destruct (color_selection l); [reflexivity|].
    rewrite (proj2 (Nat.leb_gt 2 _)) by exact Hlt. reflexivity.
  - intros Hlen.
    assert (Hcs : color_selection l = false).
    { destruct (color_selection l) eqn:E; [|reflexivity].
      destruct (c_fresh _ Hc E) as (Hb & _).
      rewrite (c_history _ Hc), Hb in Hlen. cbn in Hlen. lia. }
    destruct (consistent_undo l Hc Hcs Hlen)
      as (self' & Hu & Hc' & b0 & m1 & m2 & h & Hb & Hh & Hb' & Hh').
    exists (with_self l self'), b0, m1, m2, h, (san b0 m1), (san (push b0 m1) m2).
    split.
    { unfold handle_event. rewrite Hcs, (proj2 (Nat.leb_le 2 _)) by exact Hlen.
      rewrite Hu. reflexivity. }
    cbn [self_ with_self].
    split; [exact Hb|]. split; [exact Hb'|]. split; [exact Hh|]. split; [exact Hh'|].
    split.
    { pose proof (c_history _ Hc') as Hh2. cbn [self_ with_self] in Hh2.
      rewrite Hh2. apply history_length. }
    rewrite (undo_two _ b0 m1 m2 h _ _ Hb Hh) in Hu. injection Hu as <-.
    split; [repeat split|].
    unfold phase. cbn. rewrite Hcs. reflexivity.
Qed.

(** ** The selection *)

Lemma press_refused (pos : Z * Z) (self : ChessGame) (c : bool) :
  player_color self = Some c ->
  (forall sq piece,
     pixel_to_square (player_color self) pos = Some sq ->
     piece_at (board self) sq = Some piece ->
     color piece <> turn (board self) \/ color piece <> c) ->
  press pos self = self.
Proof.
  intros Hpc Hno.
  destruct (press_cases pos self) as [E | (sq & piece & Hpx & Hp & Hturn & Hside & _)];
    [exact E|].
  exfalso. destruct (Hno sq piece Hpx Hp) as [H | H]; [contradiction|].
  rewrite Hpc in Hside.
  destruct c, Hside as [[Ht Hcol] | [Ht Hcol]]; cbn in Ht; try discriminate; contradiction.
Qed.

Lemma not_empty_selected (l : Loop) :
  consistent l -> ~ selection_empty (self_ l) ->
  exists sq, selected_square (self_ l) = Some sq.
Proof.
  intros Hc Hne. destruct (selected_square (self_ l)) as [sq|] eqn:E; [eauto|].
  destruct Hne. apply (c_selection _ Hc E).
Qed.

Lemma selection_populated (amb : Ambient) (l l' : Loop) (event : Event) :
  handle_event amb l event = Ok l' ->
  selection_empty (self_ l) -> ~ selection_empty (self_ l') ->
  color_selection l = false /\ game_over (self_ l) = false /\
  ai_thinking (self_ l) = false /\
  (exists pos, event = MOUSEBUTTONDOWN pos 1) /\
  l' = with_self l (press (mouse_get_pos amb) (self_ l)).
Proof.
  intros H (He1 & He2 & He3 & He4) Hne. unfold handle_event in H.
  assert (Hempty : selection_empty (self_ l)) by (repeat split; assumption).
  assert (Hfirst : forall play self,
            selection_empty self -> selection_empty (first_ai_move play self)).
  { intros play self Hs. unfold first_ai_move. destruct (playable _ _); exact Hs. }
  destruct event as [|pos button|pos button|pos|[| |]|]; destruct (color_selection l) eqn:Hcs;
    repeat match type of H with
      | Ok _ = Ok _ => injection H as <-
      | Raise _ = Ok _ => discriminate H
      | context [release ?a ?b ?c] =>
          let Hrel := fresh "Hrel" in
          destruct (release a b c) as [self'|] eqn:Hrel; [rewrite bind_Ok in H | discriminate H]
      | context [undo ?a] =>
          let Hu := fresh "Hu" in
          destruct (undo a) as [self'|] eqn:Hu;
          [apply undo_Ok in Hu as (? & ? & ? & ? & ? & _ & _ & _ & ->); rewrite bind_Ok in H
          | discriminate H]
      | context [draw_checkmate_popup ?a] => unfold draw_checkmate_popup in H
      | context [game_over ?a] => destruct (game_over a) eqn:?; cbn [negb andb] in H
      | context [ai_thinking ?a] => destruct (ai_thinking a) eqn:?; cbn [negb andb] in H
      | context [?b =? 1] => destruct (Z.eqb_spec b 1); [subst|]
      | context [match ?c with _ => _ end] => destruct c eqn:?
      end;
    try (exfalso; apply Hne; cbn [self_ with_self];
         first [ exact Hempty | repeat split; assumption | repeat split; fail
               | apply Hfirst; repeat split; assumption ]);
    try congruence.
  repeat split; eauto.
Qed.

Lemma end_of_frame_selection (amb : Ambient) (l l' : Loop) :
  end_of_frame amb l = Ok l' ->
  selected_square (self_ l') = selected_square (self_ l) /\
  valid_moves (self_ l') = valid_moves (self_ l) /\
  selected_piece (self_ l') = selected_piece (self_ l) /\
  selected_piece_pos (self_ l') = selected_piece_pos (self_ l).
Proof.
  unfold end_of_frame. destruct (color_selection l); cbn [negb].
  { intros [= <-]. repeat split. }
  assert (Hai : forall play self self', ai_turn play self = Ok self' ->
            selected_square self' = selected_square self /\
            valid_moves self' = valid_moves self /\
            selected_piece self' = selected_piece self /\
            selected_piece_pos self' = selected_piece_pos self).
  { intros play self self' H.
    destruct (playable self (get_ai_move play self)) as [m|] eqn:Hm.
    - destruct (record_capture (to_square m) self) as [self0|e] eqn:Hcap.
      2: { unfold ai_turn in H. rewrite Hm, Hcap in H. discriminate. }
      rewrite (ai_turn_applied play self self0 m Hm Hcap) in H. injection H as <-.
      destruct (record_capture_Ok _ _ _ Hcap) as [Hs _].
      unfold concluded, applied. rewrite Hs.
      repeat match goal with |- context [if ?c then _ else _] => destruct c end;
        repeat split.
    - rewrite (ai_turn_skipped _ _ Hm) in H. injection H as <-. repeat split. }
  destruct (ai_thinking (self_ l) && negb (game_over (self_ l))).
  - destruct (ai_turn (engine_play amb) (self_ l)) as [self'|] eqn:E; [|discriminate].
    rewrite bind_Ok. intros [= <-]. cbn [self_ with_self].
    destruct (update_timer_fields (time_time amb) self')
      as (_ & _ & _ & _ & _ & -> & -> & -> & -> & _).
    apply (Hai _ _ _ E).
  - rewrite bind_Ok. intros [= <-]. cbn [self_ with_self].
    destruct (update_timer_fields (time_time amb) (self_ l))
      as (_ & _ & _ & _ & _ & -> & -> & -> & -> & _).
    repeat split.
Qed.

(** C9 (as the code has it).  A press on a square whose piece is not of the
    side to move, or not of the human's colour, leaves the state as it was.
    In every state of a run, while the selection is not empty the sequencer
    is neither choosing colours nor in the engine's turn, and the side to
    move is the human's.  The selection becomes non-empty only by a left
    press handled in the human's turn, which it does not leave; the end of a
    frame leaves the selection as it was. *)
Theorem selection_discipline (amb : Ambient) (l l' : Loop) (event : Event)
    (pos : Z * Z) (c : bool) :
  reachable l ->
  (player_color (self_ l) = Some c ->
   (forall sq piece,
      pixel_to_square (player_color (self_ l)) pos = Some sq ->
      piece_at (board (self_ l)) sq = Some piece ->
      color piece <> turn (board (self_ l)) \/ color piece <> c) ->
   press pos (self_ l) = self_ l) /\
  (~ selection_empty (self_ l) ->
   phase l <> ColorSelection /\ phase l <> EngineTurn /\
   player_color (self_ l) = Some (turn (board (self_ l)))) /\
  (handle_event amb l event = Ok l' ->
   selection_empty (self_ l) -> ~ selection_empty (self_ l') ->
   phase l = HumanTurn /\ phase l' = HumanTurn /\
   (exists p, event = MOUSEBUTTONDOWN p 1) /\
   l' = with_self l (press (mouse_get_pos amb) (self_ l))) /\
  (end_of_frame amb l = Ok l' ->
   (selection_empty (self_ l) <-> selection_empty (self_ l'))).
Proof.
  intros Hreach. pose proof (reachable_consistent l Hreach) as Hc.
  repeat apply conj.
  - apply press_refused.
  - intros Hne. destruct (not_empty_selected l Hc Hne) as [sq Hsq].
    destruct (c_selected _ Hc sq Hsq) as (Hcs & Hai & Hpc).
    unfold phase. rewrite Hcs, Hai. repeat split; try assumption;
      destruct (game_over (self_ l)); discriminate.
  - intros H He Hne.
    destruct (selection_populated amb l l' event H He Hne) as (Hcs & Hgo & Hai & Hev & ->).
    destruct (press_cases (mouse_get_pos amb) (self_ l))
      as [E | (? & ? & _ & _ & _ & _ & E)]; rewrite E;
      unfold phase; cbn; rewrite Hcs, Hgo, Hai; auto.
  - intros H. destruct (end_of_frame_selection amb l l' H) as (H1 & H2 & H3 & H4).
    unfold selection_empty. rewrite H1, H2, H3, H4. reflexivity.
Qed.

(** ** The end of a game *)

(** A press never leads back to the colour selection: the branch that would
    reset the game on the "New Game" button needs the popup up and the game
    not over, and the popup is up only when the game is over. *)

Lemma press_in_game_over (amb : Ambient) (l : Loop) (pos : Z * Z) (button : Z) :
  phase l = GameOver -> handle_event amb l (MOUSEBUTTONDOWN pos button) = Ok l.
Proof.
  unfold phase, handle_event. destruct (color_selection l); [discriminate|].
  destruct (game_over (self_ l)); [reflexivity|].
  destruct (ai_thinking (self_ l)); discriminate.
Qed.

Lemma press_never_resets (amb : Ambient) (l l' : Loop) (pos : Z * Z) (button : Z) :
  reachable l -> color_selection l = false ->
  handle_event amb l (MOUSEBUTTONDOWN pos button) = Ok l' ->
  color_selection l' = false.
Proof.
  intros Hreach Hcs. pose proof (c_popup _ (reachable_consistent l Hreach)) as Hp.
  unfold handle_event. rewrite Hcs.
  destruct (game_over (self_ l)); cbn [negb andb]; [intros [= <-]; exact Hcs|].
  rewrite Hp.
  destruct (ai_thinking (self_ l)); cbn [negb]; [intros [= <-]; exact Hcs|].
  destruct (button =? 1); intros [= <-]; exact Hcs.
Qed.

(** What the end of a game sets: under checkmate the winner is the side that
    is not to move; otherwise the winner is left as it was. *)

Lemma game_end_winner (self : ChessGame) :
  game_over (concluded self) = true /\ checkmate_popup (concluded self) = true /\
  (is_checkmate (board self) = true ->
   winner (concluded self) = Some (if turn (board self) then "Black" else "White")) /\
  (is_checkmate (board self) = false -> winner (concluded self) = winner self).
Proof.
  destruct (concluded_fields self) as (_ & _ & _ & _ & Hgo & Hp & Hw).
  rewrite Hw. repeat split; try assumption; intros ->; reflexivity.
Qed.

End Properties.

(** * Concrete runs *)

Lemma play_outcome (frames : list Games.Frame) :
  Games.play frames = Ok (Games.outcome (Games.play frames)) /\
  reachable (Games.outcome (Games.play frames)).
Proof.
  destruct (run_total (R := Mini.rules) (start 0 true) frames (reachable_start 0 true))
    as (l & Hrun & Hreach).
  unfold Games.play. rewrite Hrun. split; [reflexivity | exact Hreach].
Qed.

Lemma events_outcome (l : @Loop Mini.rules) (events : list (Ambient * Event)) :
  reachable l ->
  handle_events l events = Ok (Games.outcome (handle_events l events)) /\
  reachable (Games.outcome (handle_events l events)).
Proof.
  intros Hl. destruct (handle_events_total l events Hl) as (l' & Hrun & Hreach).
  rewrite Hrun. split; [reflexivity | exact Hreach].
Qed.

Lemma event_outcome (amb : Ambient) (l : @Loop Mini.rules) (event : Event) :
  reachable l ->
  handle_event amb l event = Ok (Games.outcome (handle_event amb l event)) /\
  reachable (Games.outcome (handle_event amb l event)).
Proof.
  intros Hl. destruct (step_event amb l event (reachable_consistent l Hl)) as (l' & Hrun & _).
  rewrite Hrun. split; [reflexivity|]. apply (reachable_event l amb event l' Hl Hrun).
Qed.

Lemma mated_reachable : reachable Games.mated.
Proof. apply play_outcome. Qed.

Lemma capture_picked_reachable : reachable Games.capture_picked.
Proof. apply event_outcome, play_outcome. Qed.

Lemma awaiting_reply_reachable : reachable Games.awaiting_reply.
Proof. apply events_outcome, play_outcome. Qed.

(** C1.  After 1. f3 e5 2. g4 Qh4# the game is over and the announcement is
    up with its "New Game" button; a left press inside that button is
    handled without any effect: nothing is reinitialized and the sequencer
    stays in the game-over state instead of returning to the colour
    selection. *)
Theorem new_game_button_ignored :
  Games.play (Games.timed 0 Games.fools_mate) = Ok Games.mated /\
  move_history (self_ Games.mated) = ["f3"; "e5"; "g4"; "Qh4#"] /\
  phase Games.mated = GameOver /\
  draw_checkmate_popup (self_ Games.mated) = Some ("Black wins!", button_rect) /\
  collidepoint button_rect (500, 925) = true /\
  handle_event (Games.pointer 3 (500, 925)) Games.mated (MOUSEBUTTONDOWN (500, 925) 1)
    = Ok Games.mated /\
  phase Games.mated <> ColorSelection.
Proof.
  assert (Hphase : phase Games.mated = GameOver) by (vm_compute; reflexivity).
  split; [apply play_outcome|].
  split; [vm_compute; reflexivity|]. split; [exact Hphase|].
  split; [vm_compute; reflexivity|]. split; [reflexivity|].
  split; [apply press_in_game_over, Hphase|].
  rewrite Hphase. discriminate.
Qed.

(** C7.  The engine mates, the human undoes twice and the game is played
    again to a stalemate: the game is over without checkmate, yet the winner
    left by the undone mate is still set and the announcement names Black as
    the winner instead of reporting a draw. *)
Theorem stalemate_announced_as_win :
  Games.play (Games.timed 0 (Games.fools_mate ++ [Games.undo_key; Games.undo_key]
                             ++ Games.stalemate_game)) = Ok Games.stalemated /\
  move_history (self_ Games.stalemated)
    = ["e3"; "a5"; "Qh5"; "Ra6"; "Qxa5"; "h5"; "h4"; "Rah6"; "Qxc7"; "f6";
       "Qxd7+"; "Kf7"; "Qxb7"; "Qd3"; "Qxb8"; "Qh7"; "Qxc8"; "Kg6"; "Qe6"] /\
  game_over (self_ Games.stalemated) = true /\
  is_game_over (board (self_ Games.stalemated)) = true /\
  is_checkmate (board (self_ Games.stalemated)) = false /\
  winner (self_ Games.stalemated) = Some "Black" /\
  draw_checkmate_popup (self_ Games.stalemated) = Some ("Black wins!", button_rect).
Proof.
  split; [apply play_outcome|].
  do 5 (split; [vm_compute; reflexivity|]). vm_compute. reflexivity.
Qed.

(** C9, as stated, fails on its invariant: the human picks up the e2 pawn and
    holds it while White's clock runs out; the game is over and the selection
    is still populated. *)
Lemma selection_survives_timeout :
  Games.play Games.held_too_long = Ok Games.out_of_time /\
  reachable Games.out_of_time /\
  phase Games.out_of_time = GameOver /\
  selected_square (self_ Games.out_of_time) = Some (Games.square_named Games.e 2) /\
  valid_moves (self_ Games.out_of_time) = [Games.simple 12 20; Games.simple 12 28] /\
  ~ selection_empty (self_ Games.out_of_time) /\
  ~ (~ selection_empty (self_ Games.out_of_time) -> phase Games.out_of_time = HumanTurn).
Proof.
  assert (Hne : ~ selection_empty (self_ Games.out_of_time))
    by (intros (H & _); vm_compute in H; discriminate H).
  split; [apply play_outcome|]. split; [apply play_outcome|].
  do 3 (split; [vm_compute; reflexivity|]).
  split; [exact Hne|].
  intros H. specialize (H Hne). vm_compute in H. discriminate H.
Qed.

(** * The theorems at concrete inputs *)

Lemma clock_frame_witness :
  black_time (update_timer 5 (self_ Games.awaiting_reply))
    = (black_time (self_ Games.awaiting_reply)
       - (5 - last_time (self_ Games.awaiting_reply)))%Q /\
  white_time (update_timer 5 (self_ Games.awaiting_reply))
    = white_time (self_ Games.awaiting_reply).
Proof.
  destruct (clock_frame (R := Mini.rules) 5 (self_ Games.awaiting_reply)) as [_ H].
  assert (Hs : game_started (self_ Games.awaiting_reply) = true) by (vm_compute; reflexivity).
  assert (Ho : game_over (self_ Games.awaiting_reply) = false) by (vm_compute; reflexivity).
  destruct (H Hs Ho) as (_ & HB & _).
  apply HB. vm_compute. reflexivity.
Defined.

Lemma san_before_push_witness :
  exists self',
    release 28 (Games.centre Games.as_white 35) (self_ Games.capture_picked) = Ok self' /\
    board self' = push (board (self_ Games.capture_picked)) (Games.simple 28 35) /\
    move_history self'
      = move_history (self_ Games.capture_picked)
        ++ [san (board (self_ Games.capture_picked)) (Games.simple 28 35)] /\
    san (board (self_ Games.capture_picked)) (Games.simple 28 35) = "exd5".
Proof.
  pose proof (reachable_consistent _ capture_picked_reachable) as Hc.
  assert (Hcs : color_selection Games.capture_picked = false) by (vm_compute; reflexivity).
  destruct (consistent_release Games.capture_picked 28 (Games.centre Games.as_white 35) Hc Hcs)
    as (self' & Hrel & _).
  exists self'. split; [exact Hrel|].
  destruct (san_before_push (R := Mini.rules) 28 (Games.centre Games.as_white 35) Failed
              (self_ Games.capture_picked) self' 35 (Games.simple 28 35)) as (H & _ & _).
  split; [|split; [|vm_compute; reflexivity]]; apply H;
    try exact Hrel; try (vm_compute; reflexivity);
    apply (bool_decide_unpack _); vm_compute; exact I.
Defined.

Lemma engine_skip_witness :
  ai_turn Failed (self_ Games.awaiting_reply)
    = Ok (set_ai_thinking false (self_ Games.awaiting_reply)) /\
  phase (with_self Games.awaiting_reply (set_ai_thinking false (self_ Games.awaiting_reply)))
    = HumanTurn.
Proof.
  assert (Hp : phase Games.awaiting_reply = EngineTurn) by (vm_compute; reflexivity).
  destruct (engine_skip (R := Mini.rules) (Games.answer 1 Failed) Games.awaiting_reply Hp)
    as (H1 & H2 & _).
  - right. left. reflexivity.
  - split; [exact H1 | exact H2].
Defined.

Lemma undo_frame_witness :
  exists l',
    handle_event (Games.pointer 3 (0, 0)) Games.mated (KEYDOWN K_u) = Ok l' /\
    move_history (self_ l') = ["f3"; "e5"] /\
    white_time (self_ l') = white_time (self_ Games.mated) /\
    captured_pieces (self_ l') = captured_pieces (self_ Games.mated) /\
    winner (self_ l') = winner (self_ Games.mated) /\
    winner (self_ Games.mated) = Some "Black".
Proof.
  destruct (event_outcome (Games.pointer 3 (0, 0)) Games.mated (KEYDOWN K_u) mated_reachable)
    as [Hev _].
  eexists. split; [exact Hev|]. split; [vm_compute; reflexivity|].
  destruct (undo_frame (R := Mini.rules) _ _ _ Hev) as (Hw & _ & _ & Hc & Hwin & _).
  split; [exact Hw|]. split; [exact Hc|]. split; [exact Hwin|]. vm_compute. reflexivity.
Defined.

Lemma undo_two_plies_witness :
  exists l' b0 m1 m2 h x y,
    handle_event (Games.pointer 3 (0, 0)) Games.mated (KEYDOWN K_u) = Ok l' /\
    board (self_ Games.mated) = push (push b0 m1) m2 /\ board (self_ l') = b0 /\
    move_history (self_ Games.mated) = h ++ [x; y] /\ move_history (self_ l') = h /\
    length (move_history (self_ l')) = length (move_stack (board (self_ l'))) /\
    selection_empty (self_ l') /\ phase l' = HumanTurn.
Proof.
  destruct (undo_two_plies (R := Mini.rules) (Games.pointer 3 (0, 0)) Games.mated
              mated_reachable) as (_ & _ & H).
  apply H. vm_compute. lia.
Defined.

Lemma capture_tally_witness :
  exists self',
    release 28 (Games.centre Games.as_white 35) (self_ Games.capture_picked) = Ok self' /\
    turn (board (self_ Games.capture_picked)) = WHITE /\
    taken_by WHITE (self_ Games.capture_picked) = Some [] /\
    taken_by WHITE self' = Some ["P"] /\
    taken_by BLACK self' = taken_by BLACK (self_ Games.capture_picked).
Proof.
  pose proof (reachable_consistent _ capture_picked_reachable) as Hc.
  assert (Hcs : color_selection Games.capture_picked = false) by (vm_compute; reflexivity).
  destruct (consistent_release Games.capture_picked 28 (Games.centre Games.as_white 35) Hc Hcs)
    as (self' & Hrel & _).
  exists self'. split; [exact Hrel|].
  assert (Hturn : turn (board (self_ Games.capture_picked)) = WHITE)
    by (vm_compute; reflexivity).
  split; [exact Hturn|].
  destruct (capture_tally (R := Mini.rules) (Games.pointer 2 (0, 0)) Games.capture_picked
              Games.capture_picked OTHER 28 (Games.centre Games.as_white 35) Failed
              (self_ Games.capture_picked) self' 35 (Games.simple 28 35) WHITE) as (H & _).
  assert (Hpx : pixel_to_square (player_color (self_ Games.capture_picked))
                  (Games.centre Games.as_white 35) = Some 35) by (vm_compute; reflexivity).
  assert (Hin : {| from_square := 28; to_square := 35; promotion := None |}
                  ∈ valid_moves (self_ Games.capture_picked))
    by (apply (bool_decide_unpack _); vm_compute; exact I).
  specialize (H Hpx Hin Hrel).
  assert (Hp : piece_at (board (self_ Games.capture_picked)) 35
               = Some {| piece_type := PAWN; color := BLACK |}) by (vm_compute; reflexivity).
  rewrite Hp, Hturn in H.
  destruct (H eq_refl) as (tally & self0 & Ht & _ & _ & _ & _ & _ & Ht' & Ho).
  assert (Hold : taken_by WHITE (self_ Games.capture_picked) = Some [])
    by (vm_compute; reflexivity).
  rewrite Hold in Ht. injection Ht as <-.
  repeat split; assumption.
Defined.

Lemma selection_discipline_witness :
  phase Games.capture_picked <> ColorSelection /\
  phase Games.capture_picked <> EngineTurn /\
  player_color (self_ Games.capture_picked)
    = Some (turn (board (self_ Games.capture_picked))).
Proof.
  destruct (selection_discipline (R := Mini.rules) (Games.pointer 2 (0, 0))
              Games.capture_picked Games.capture_picked OTHER (0, 0) WHITE
              capture_picked_reachable) as (_ & H & _).
  apply H. intros (Hn & _). vm_compute in Hn. discriminate Hn.
Defined.

(** * More of the program *)

Section Sessions.
Context {R : Rules}.

(** ** What one event can do *)

Lemma handle_event_effect (amb : Ambient) (l l' : Loop) (event : Event) :
  handle_event amb l event = Ok l' -> event_effect amb l l'.
Proof.
  intros H. unfold handle_event in H.
  destruct event as [|pos button|pos button|pos|[| |]|]; destruct (color_selection l) eqn:Hcs;
    repeat match type of H with
      | Ok _ = Ok _ => injection H as <-
      | Raise _ = Ok _ => discriminate H
      | context [release ?a ?b ?c] =>
          let Hrel := fresh "Hrel" in
          destruct (release a b c) as [self'|] eqn:Hrel; [rewrite bind_Ok in H | discriminate H]
      | context [undo ?a] =>
          let Hu := fresh "Hu" in
          destruct (undo a) as [self'|] eqn:Hu; [rewrite bind_Ok in H | discriminate H]
      | context [draw_checkmate_popup ?a] => unfold draw_checkmate_popup in H
      | context [game_over ?a] => destruct (game_over a) eqn:?; cbn [negb andb] in H
      | context [ai_thinking ?a] => destruct (ai_thinking a) eqn:?; cbn [negb andb] in H
      | context [(2 <=? ?n)%nat] => destruct (Nat.leb_spec 2 n)
      | context [match ?c with _ => _ end] => destruct c eqn:?
      end;
    first [ apply effect_none; reflexivity
          | apply effect_quit; rewrite Hcs; reflexivity
          | apply effect_reset; reflexivity
          | apply (effect_choose amb _ _ true); [assumption | reflexivity]
          | apply (effect_choose amb _ _ false); [assumption | reflexivity]
          | apply effect_press; first [assumption | reflexivity]
          | eapply effect_release; first [eassumption | reflexivity]
          | eapply effect_motion; first [eassumption | reflexivity]
          | eapply effect_undo; first [eassumption | reflexivity] ].
Qed.

(** ** Soundness is kept by every step *)

Lemma fresh_tallies_sound :
  dom fresh_tallies = ({["w"; "b"]} : gset string) /\
  forall k tally, fresh_tallies !! k = Some tally -> Forall (λ kind, kind ∈ piece_letters) tally.
Proof.
  unfold fresh_tallies. split.
  - rewrite !dom_insert_L, dom_empty_L. set_solver.
  - intros k tally. rewrite !lookup_insert. repeat case_decide; intros [= <-].
    + constructor.
    + constructor.
Qed.

Lemma kind_is_letter (p : Piece) : upper (symbol p) ∈ piece_letters.
Proof.
  destruct p as [[] []]; vm_compute; apply list_elem_of_In; simpl; tauto.
Qed.

Lemma tally_change_sound (self self' : ChessGame) :
  tally_change self self' ->
  dom (captured_pieces self) = ({["w"; "b"]} : gset string) ->
  (forall k tally, captured_pieces self !! k = Some tally ->
     Forall (λ kind, kind ∈ piece_letters) tally) ->
  dom (captured_pieces self') = ({["w"; "b"]} : gset string) /\
  (forall k tally, captured_pieces self' !! k = Some tally ->
     Forall (λ kind, kind ∈ piece_letters) tally).
Proof.
  intros [Hs | Hr _ | m p tally _ _ Hl Hi] Hdom Hlet.
  - rewrite Hs. auto.
  - rewrite Hr. apply fresh_tallies_sound.
  - rewrite Hi. split.
    + rewrite dom_insert_L, Hdom. unfold tally_key. case_bool_decide; set_solver.
    + intros k t. rewrite lookup_insert. case_decide.
      * intros [= <-]. apply Forall_app. split; [eapply Hlet; eassumption|].
        constructor; [apply kind_is_letter | constructor].
      * apply Hlet.
Qed.

Lemma release_effect (selected : Square) (pos : Z * Z) (self self' : ChessGame) :
  release selected pos self = Ok self' ->
  selected_square self' = None /\
  (winner self' = winner self \/ winner self' = Some "White" \/ winner self' = Some "Black") /\
  (board self' = board self \/
   exists m, m ∈ valid_moves self /\ promotion m = None /\ from_square m = selected /\
     board self' = push (board self) m).
Proof.
  intros H.
  destruct (pixel_to_square (player_color self) pos) as [target|] eqn:Hpx.
  1: destruct (decide ({| from_square := selected; to_square := target; promotion := None |}
                        ∈ valid_moves self)) as [Hin | Hnin].
  - destruct (record_capture target self) as [self0|e] eqn:Hcap.
    2: { rewrite (release_raises selected pos self target e) in H by assumption.
         discriminate. }
    rewrite (release_applied selected pos self self0 target) in H by assumption.
    injection H as <-. destruct (record_capture_Ok _ _ _ Hcap) as [Hs _].
    unfold concluded, applied. rewrite Hs.
    repeat match goal with |- context [if ?c then _ else _] => destruct c end;
      cbn; (split; [reflexivity|]); (split; [auto|]); right; eexists;
      (split; [exact Hin|]); repeat split.
  - rewrite release_reverted in H by (rewrite Hpx; assumption).
    injection H as <-. cbn. auto.
  - rewrite release_reverted in H by (rewrite Hpx; exact I).
    injection H as <-. cbn. auto.
Qed.

Lemma ai_turn_effect (play : EnginePlay) (self self' : ChessGame) :
  ai_turn play self = Ok self' ->
  selected_square self' = selected_square self /\
  valid_moves self' = valid_moves self /\
  selected_piece self' = selected_piece self /\
  selected_piece_pos self' = selected_piece_pos self /\
  (winner self' = winner self \/ winner self' = Some "White" \/ winner self' = Some "Black") /\
  (board self' = board self \/
   exists m, m ∈ legal_moves (board self) /\ board self' = push (board self) m).
Proof.
  intros H. destruct (playable self (get_ai_move play self)) as [m|] eqn:Hm.
  - destruct (record_capture (to_square m) self) as [self0|e] eqn:Hcap.
    2: { unfold ai_turn in H. rewrite Hm, Hcap in H. discriminate. }
    rewrite (ai_turn_applied play self self0 m Hm Hcap) in H. injection H as <-.
    destruct (record_capture_Ok _ _ _ Hcap) as [Hs _].
    apply playable_Some in Hm as (_ & _ & Hlegal).
    unfold concluded, applied. rewrite Hs.
    repeat match goal with |- context [if ?c then _ else _] => destruct c end;
      cbn; repeat (split; [reflexivity|]); (split; [auto|]); right; eexists;
      (split; [exact Hlegal|]); reflexivity.
  - rewrite (ai_turn_skipped _ _ Hm) in H. injection H as <-. cbn. repeat split; auto.
Qed.

Lemma update_timer_winner (now : Q) (self : ChessGame) :
  winner (update_timer now self) = winner self \/
  winner (update_timer now self) = Some "White" \/
  winner (update_timer now self) = Some "Black".
Proof.
  unfold update_timer.
  destruct (negb (game_started self) || game_over self); [auto|].
  cbn zeta. case_bool_decide; cbn;
    repeat match goal with |- context [Qle_bool ?a ?b] => destruct (Qle_bool a b) end;
    cbn; auto.
Qed.

Lemma sound_start (now : Q) (stockfish : bool) : sound (start now stockfish).
Proof.
  constructor; cbn; try done; eauto; try apply fresh_tallies_sound.
Qed.

Lemma pop_stack (b b' : Board) :
  pop b = Ok b' -> exists m, move_stack b = (current b', m) :: move_stack b'.
Proof.
  unfold pop. destruct (move_stack b) as [|[p m] rest]; [discriminate|].
  intros [= <-]. eauto.
Qed.

Lemma sound_game (l : Loop) (self' : ChessGame) :
  sound l -> color_selection l = false ->
  Forall (λ pm, pm.2 ∈ position_legal_moves pm.1) (move_stack (board self')) ->
  (forall sq, selected_square self' = Some sq ->
     valid_moves self' = filter (λ move, from_square move = sq) (legal_moves (board self')) /\
     exists piece, piece_at (board self') sq = Some piece /\
       selected_piece self' = Some (sprite_key piece) /\
       is_Some (selected_piece_pos self') /\ 0 <= sq < 64) ->
  tally_change (self_ l) self' ->
  (winner self' = winner (self_ l) \/ winner self' = Some "White" \/
   winner self' = Some "Black") ->
  sound (with_self l self').
Proof.
  intros Hs Hcs Hlegal Hsel Htally Hwin.
  destruct (tally_change_sound _ _ Htally (s_keys _ Hs) (s_letters _ Hs)) as [Hk Hl].
  constructor; cbn; try assumption.
  - rewrite Hcs. discriminate.
  - destruct Hwin as [-> | Hwin]; [apply Hs | auto].
Qed.

Lemma sound_event (amb : Ambient) (l l' : Loop) :
  consistent l -> sound l -> event_effect amb l l' -> sound l'.
Proof.
  intros Hc Hs
    [-> | -> | white Hcs -> | -> | Hcs Hgo Hai Hp -> | selected self' Hcs Hgo Hai Hsel Hrel ->
     | name pos Hcs Hname -> | self' Hcs Hlen Hu ->].
  - exact Hs.
  - destruct Hs. constructor; assumption.
  - destruct (s_fresh _ Hs Hcs) as (now & stockfish & ->).
    destruct white.
    + constructor; cbn; try done; auto; try apply fresh_tallies_sound.
    + set (chosen := set_game_started true (set_player_color (Some false)
                                              (ChessGame_init now stockfish))).
      destruct (playable chosen (get_ai_move (engine_play amb) chosen)) as [m|] eqn:Hm.
      * rewrite (first_ai_move_applied _ _ _ Hm).
        apply playable_Some in Hm as (_ & _ & Hlegal).
        constructor; cbn; try done; auto; try apply fresh_tallies_sound.
      * rewrite (first_ai_move_skipped _ _ Hm).
        constructor; cbn; try done; auto; try apply fresh_tallies_sound.
  - constructor; cbn; try done; eauto; try apply fresh_tallies_sound.
  - destruct (press_cases (mouse_get_pos amb) (self_ l))
      as [-> | (sq & piece & Hpx & Hpiece & _ & _ & ->)].
    { rewrite with_self_same. exact Hs. }
    apply (sound_game l _ Hs Hcs); cbn.
    + apply Hs.
    + intros ? [= <-]. split; [reflexivity|]. exists piece.
      split; [exact Hpiece|]. split; [reflexivity|]. split; [eauto|].
      destruct (mouse_get_pos amb) as [x y].
      apply (pixel_to_square_Some _ _ _ _ Hpx).
    + apply tally_same. reflexivity.
    + auto.
  - destruct (release_effect _ _ _ _ Hrel) as (Hnone & Hwin & Hboard).
    apply (sound_game l _ Hs Hcs).
    + destruct Hboard as [-> | (m & Hin & _ & _ & ->)]; [apply Hs|].
      cbn. constructor; [|apply Hs].
      destruct (s_selection _ Hs selected Hsel) as [Hvalid _].
      rewrite Hvalid in Hin. apply list_elem_of_filter in Hin as [_ Hin]. exact Hin.
    + intros sq. rewrite Hnone. discriminate.
    + apply (release_tally _ _ _ _ Hrel).
    + exact Hwin.
  - apply (sound_game l _ Hs Hcs); cbn.
    + apply Hs.
    + intros sq Hsq. destruct (s_selection _ Hs sq Hsq) as (Hv & piece & ? & ? & ? & ?).
      split; [exact Hv|]. exists piece. repeat split; eauto; lia.
    + apply tally_same. reflexivity.
    + auto.
  - apply undo_Ok in Hu as (b1 & b2 & h & x & y & Hp1 & Hp2 & _ & ->).
    apply (sound_game l _ Hs Hcs); cbn.
    + apply pop_stack in Hp1 as [m1 E1]. apply pop_stack in Hp2 as [m2 E2].
      pose proof (s_legal _ Hs) as Hl. rewrite E1, E2 in Hl.
      apply Forall_cons in Hl as [_ Hl]. apply Forall_cons in Hl as [_ Hl]. exact Hl.
    + discriminate.
    + apply tally_same. reflexivity.
    + auto.
Qed.

Lemma sound_end_of_frame (amb : Ambient) (l l' : Loop) :
  consistent l -> sound l -> end_of_frame amb l = Ok l' -> sound l'.
Proof.
  intros Hc Hs H. destruct (color_selection l) eqn:Hcs.
  { unfold end_of_frame in H. rewrite Hcs in H. injection H as <-. exact Hs. }
  destruct (end_of_frame_timer amb l l' Hcs H) as (self & Hself & ->).
  destruct (update_timer_fields (time_time amb) self)
    as (Hb & _ & Hcp & _ & _ & Hsq & Hvm & Hsp & Hspp & _).
  assert (Hmid : sound (with_self l self)).
  { destruct (ai_thinking (self_ l) && negb (game_over (self_ l))) eqn:Hturn.
    - apply andb_true_iff in Hturn as [Hai _].
      destruct (ai_turn_effect _ _ _ Hself) as (H1 & H2 & H3 & H4 & Hwin & Hboard).
      assert (Hnone : selected_square (self_ l) = None).
      { destruct (selected_square (self_ l)) as [sq|] eqn:E; [|reflexivity].
        destruct (c_selected _ Hc sq E) as (_ & Hf & _). congruence. }
      apply (sound_game l _ Hs Hcs).
      + destruct Hboard as [-> | (m & Hin & ->)]; [apply Hs|].
        cbn. constructor; [exact Hin | apply Hs].
      + intros sq. rewrite H1, Hnone. discriminate.
      + apply (ai_turn_tally _ _ _ Hself).
      + exact Hwin.
    - subst self. rewrite with_self_same. exact Hs. }
  destruct Hmid as [M1 M2 M3 M4 M5 M6]. cbn [self_ with_self color_selection] in *.
  constructor; cbn [self_ with_self color_selection].
  - rewrite Hb. exact M1.
  - intros sq. rewrite Hsq, Hvm, Hsp, Hspp, Hb. apply M2.
  - rewrite Hcs. discriminate.
  - rewrite Hcp. exact M4.
  - rewrite Hcp. exact M5.
  - destruct (update_timer_winner (time_time amb) self) as [-> | [-> | ->]]; auto.
Qed.

Lemma reachable_sound (l : Loop) : reachable l -> sound l.
Proof.
  induction 1 as [now stockfish | l amb event l' Hl IH Hstep | l amb l' Hl IH Hstep].
  - apply sound_start.
  - apply (sound_event amb l l' (reachable_consistent l Hl) IH).
    apply (handle_event_effect amb l l' event Hstep).
  - apply (sound_end_of_frame amb l l' (reachable_consistent l Hl) IH Hstep).
Qed.

(** ** Properties of every run *)

(** X1.  The loop never stops on an exception: whatever events arrive and
    whatever the engine, the clock and the pointer answer, every frame
    completes, the pops of the undo key and the lookups in the tallies
    included. *)
Theorem run_never_raises (now : Q) (stockfish : bool)
    (frames : list (list (Ambient * Event) * Ambient)) :
  exists l, run (start now stockfish) frames = Ok l /\ reachable l.
Proof. apply run_total, reachable_start. Qed.

(** X2.  Every move on the board's stack, the human's and the engine's, was
    a legal move of the position it was pushed on. *)
Theorem moves_pushed_are_legal (l : Loop) :
  reachable l ->
  Forall (λ pm, pm.2 ∈ position_legal_moves pm.1) (move_stack (board (self_ l))).
Proof. intros Hl. apply (s_legal _ (reachable_sound l Hl)). Qed.

Lemma bind_filter {A B : Type} (P : A -> Prop) `{!∀ x, Decision (P x)} (f : A -> B)
    (l : list A) :
  (l ≫= λ x, if bool_decide (P x) then [f x] else []) = f <$> filter P l.
Proof.
  induction l as [|x l IH]; [reflexivity|].
  rewrite bind_cons, IH, filter_cons.
  destruct (decide (P x)) as [HP | HP];
    [rewrite bool_decide_eq_true_2 by done | rewrite bool_decide_eq_false_2 by done];
    reflexivity.
Qed.

(** X3.  While a square is selected, the overlays drawn are the selection
    overlay on that square, one destination overlay for each legal move of
    the current board from that square, in the library's order, and the
    overlays of the last move: the selection always lists exactly the legal
    moves of the selected piece. *)
Theorem highlights_show_legal_moves (l : Loop) (sq : Square) :
  reachable l ->
  selected_square (self_ l) = Some sq ->
  valid_moves (self_ l)
    = filter (λ move, from_square move = sq) (legal_moves (board (self_ l))) /\
  draw_highlights (self_ l)
    = overlay Colors.HIGHLIGHT (self_ l) sq ::
      ((λ move, overlay Colors.MOVE_HIGHLIGHT (self_ l) (to_square move)) <$>
         filter (λ move, from_square move = sq) (legal_moves (board (self_ l)))) ++
      match last_move (self_ l) with
      | Some move =>
          if move_bool move
          then [ overlay Colors.MOVE_HIGHLIGHT (self_ l) (from_square move);
                 overlay Colors.MOVE_HIGHLIGHT (self_ l) (to_square move) ]
          else []
      | None => []
      end.
Proof.
  intros Hl Hsq. destruct (s_selection _ (reachable_sound l Hl) sq Hsq) as [Hv _].
  split; [exact Hv|]. unfold draw_highlights. rewrite Hsq, Hv.
  rewrite (bind_filter (λ move, from_square move = sq)).
  rewrite list_filter_filter.
  rewrite (list_filter_iff _ (λ move, from_square move = sq)) by tauto.
  reflexivity.
Qed.

(** X4.  In every state of a run the popup is up exactly when the game is
    over, the game has started exactly when the colour selection is left,
    the colour is chosen exactly then, and while the engine is to be asked
    nothing is selected. *)
Theorem flags_agree (l : Loop) :
  reachable l ->
  checkmate_popup (self_ l) = game_over (self_ l) /\
  game_started (self_ l) = negb (color_selection l) /\
  (color_selection l = true <-> player_color (self_ l) = None) /\
  (ai_thinking (self_ l) = true -> color_selection l = false /\ selection_empty (self_ l)).
Proof.
  intros Hl. pose proof (reachable_consistent l Hl) as Hc.
  pose proof (reachable_sound l Hl) as Hs.
  split; [apply Hc|]. split; [apply Hc|]. split; [split|].
  - intros Hcs. destruct (s_fresh _ Hs Hcs) as (now & stockfish & ->). reflexivity.
  - intros Hpc. destruct (color_selection l) eqn:Hcs; [reflexivity|].
    destruct (c_choice _ Hc Hcs) as [c Hc']. congruence.
  - intros Hai. split.
    + destruct (color_selection l) eqn:Hcs; [|reflexivity].
      destruct (c_fresh _ Hc Hcs) as (_ & _ & Hf & _). congruence.
    + apply (c_selection _ Hc).
      destruct (selected_square (self_ l)) as [sq|] eqn:E; [|reflexivity].
      destruct (c_selected _ Hc sq E) as (_ & Hf & _). congruence.
Qed.

(** X5.  Whenever the colour selection is showing, the session is exactly a
    freshly constructed one (a reset is never partial), and every event other
    than quitting and a press inside one of the two buttons is ignored, the
    reset and undo keys included. *)
Theorem colour_selection_is_fresh (amb : Ambient) (l : Loop) (event : Event) :
  reachable l ->
  color_selection l = true ->
  (exists now stockfish, self_ l = ChessGame_init now stockfish) /\
  (chooses event = false -> handle_event amb l event = Ok l).
Proof.
  intros Hl Hcs. split; [apply (s_fresh _ (reachable_sound l Hl) Hcs)|].
  unfold handle_event, chooses. rewrite Hcs.
  destruct event as [|pos button| | | |]; try reflexivity; [discriminate|].
  intros Hno. apply orb_false_iff in Hno as [-> ->]. reflexivity.
Qed.

(** X6.  The clocks run from construction or reset, not from the colour
    choice: after a press on the White button, the end of the frame charges
    the side to move with all the time since the session was constructed or
    last reset, and leaves the other clock at 600. *)
Theorem choosing_time_is_charged (amb amb' : Ambient) (l l1 l2 : Loop)
    (pos : Z * Z) (button : Z) :
  reachable l ->
  color_selection l = true ->
  collidepoint white_rect pos = true ->
  handle_event amb l (MOUSEBUTTONDOWN pos button) = Ok l1 ->
  end_of_frame amb' l1 = Ok l2 ->
  let elapsed := (time_time amb' - last_time (self_ l))%Q in
  if turn Board_new
  then white_time (self_ l2) = (600 - elapsed)%Q /\ black_time (self_ l2) = 600%Q
  else black_time (self_ l2) = (600 - elapsed)%Q /\ white_time (self_ l2) = 600%Q.
Proof.
  intros Hl Hcs Hpos H1 H2 elapsed. subst elapsed.
  destruct (s_fresh _ (reachable_sound l Hl) Hcs) as (now & stockfish & Hself).
  unfold handle_event in H1. rewrite Hcs, Hpos, Hself in H1. injection H1 as <-.
  apply end_of_frame_timer in H2 as (self & Hmid & ->); [|reflexivity].
  cbn in Hmid. subst self. rewrite Hself. cbn [self_ with_self].
  set (chosen := set_game_started true
                   (set_player_color (Some true) (ChessGame_init now stockfish))).
  destruct (update_timer_clocks (time_time amb') chosen eq_refl eq_refl) as (-> & -> & _).
  destruct (ticked_clocks (time_time amb') chosen) as [HW HB].
  change (board chosen) with Board_new in *.
  destruct (turn Board_new); [apply (HW eq_refl) | apply (HB eq_refl)].
Qed.

(** X7.  The time the engine takes is charged to the side that moves after
    it: in a frame in which the engine's move is applied and does not end
    the game, the clock reduced is that of the side to move on the board
    after the push; when the engine's move ends the game, neither clock
    changes in that frame. *)
Theorem engine_time_charged_to_next_mover (amb : Ambient) (l l' : Loop) (m : Move) :
  reachable l ->
  phase l = EngineTurn ->
  playable (self_ l) (get_ai_move (engine_play amb) (self_ l)) = Some m ->
  end_of_frame amb l = Ok l' ->
  let after := push (board (self_ l)) m in
  let elapsed := (time_time amb - last_time (self_ l))%Q in
  board (self_ l') = after /\
  if is_game_over after
  then white_time (self_ l') = white_time (self_ l) /\
       black_time (self_ l') = black_time (self_ l)
  else if turn after
  then white_time (self_ l') = (white_time (self_ l) - elapsed)%Q /\
       black_time (self_ l') = black_time (self_ l)
  else black_time (self_ l') = (black_time (self_ l) - elapsed)%Q /\
       white_time (self_ l') = white_time (self_ l).
Proof.
  intros Hl Hphase Hm H after elapsed. subst after elapsed.
  assert (color_selection l = false /\ game_over (self_ l) = false /\
          ai_thinking (self_ l) = true) as (Hcs & Hgo & Hai).
  { unfold phase in Hphase. destruct (color_selection l); [discriminate|].
    destruct (game_over (self_ l)); [discriminate|].
    destruct (ai_thinking (self_ l)); [auto | discriminate]. }
  pose proof (c_started _ (reachable_consistent l Hl)) as Hgs. rewrite Hcs in Hgs.
  destruct (end_of_frame_timer amb l l' Hcs H) as (self & Hself & ->).
  rewrite Hai, Hgo in Hself. cbn [negb andb] in Hself. cbn [self_ with_self].
  destruct (record_capture (to_square m) (self_ l)) as [self0|e] eqn:Hcap.
  2: { unfold ai_turn in Hself. rewrite Hm, Hcap in Hself. discriminate. }
  rewrite (ai_turn_applied _ _ self0 m Hm Hcap) in Hself. injection Hself as <-.
  destruct (record_capture_Ok _ _ _ Hcap) as [Hs _].
  assert (Hb0 : board self0 = board (self_ l)) by (rewrite Hs; reflexivity).
  change (board (applied m (self_ l) self0)) with (push (board self0) m).
  rewrite Hb0.
  destruct (is_game_over (push (board (self_ l)) m)) eqn:Hover.
  - set (ended := set_ai_thinking false (concluded (applied m (self_ l) self0))).
    assert (Hended : game_over ended = true /\ board ended = push (board (self_ l)) m /\
                     white_time ended = white_time (self_ l) /\
                     black_time ended = black_time (self_ l)).
    { subst ended. unfold concluded, applied. rewrite Hs.
      destruct (is_checkmate _); cbn; repeat split. }
    destruct Hended as (F1 & F2 & F3 & F4).
    rewrite (update_timer_idle (time_time amb) ended) by (right; exact F1). auto.
  - set (mid := set_ai_thinking false (applied m (self_ l) self0)).
    assert (Hmid : game_started mid = true /\ game_over mid = false /\
                   board mid = push (board (self_ l)) m /\
                   white_time mid = white_time (self_ l) /\
                   black_time mid = black_time (self_ l) /\
                   last_time mid = last_time (self_ l)).
    { subst mid. unfold applied. rewrite Hs. cbn. repeat split; assumption. }
    destruct Hmid as (M1 & M2 & M3 & M4 & M5 & M6).
    destruct (update_timer_clocks (time_time amb) mid M1 M2) as (-> & -> & ->).
    split; [exact M3|].
    destruct (ticked_clocks (time_time amb) mid) as [HW HB].
    rewrite M3, M4, M5, M6 in HW, HB.
    destruct (turn (push (board (self_ l)) m)); [apply (HW eq_refl) | apply (HB eq_refl)].
Qed.

(** ** Quitting *)

Lemma event_keeps_stopped (amb : Ambient) (l l' : Loop) (event : Event) :
  handle_event amb l event = Ok l' -> running l = false -> running l' = false.
Proof.
  intros H Hr.
  destruct (handle_event_effect amb l l' event H)
    as [-> | -> | white _ -> | -> | _ _ _ _ -> | ? ? _ _ _ _ _ -> | ? ? _ _ -> | ? _ _ _ ->];
    cbn; auto.
Qed.

Lemma events_keep_stopped (l l' : Loop) (events : list (Ambient * Event)) :
  handle_events l events = Ok l' ->
  running l = false \/ QUIT ∈ events.*2 ->
  running l' = false.
Proof.
  revert l. induction events as [|[amb event] rest IH]; intros l H Hq; cbn in H.
  - injection H as <-. destruct Hq as [Hr | Hq]; [exact Hr|]. inversion Hq.
  - destruct (handle_event amb l event) as [l1|] eqn:E; [|discriminate].
    rewrite bind_Ok in H. apply (IH l1 H).
    destruct Hq as [Hr | Hq]; [left; apply (event_keeps_stopped _ _ _ _ E Hr)|].
    cbn in Hq. apply elem_of_cons in Hq as [Hq | Hq]; [|auto].
    left. cbn in Hq. subst event. cbn in E. injection E as <-. reflexivity.
Qed.

(** X8.  Quitting is final: once a frame has handled a quit event, the rest
    of that frame's events and its end are still processed, the loop's
    [running] flag is off at the end of the frame whatever else arrived, and
    no later frame is run. *)
Theorem quit_stops_the_run (l l' : Loop) (events : list (Ambient * Event)) (amb : Ambient)
    (rest : list (list (Ambient * Event) * Ambient)) :
  QUIT ∈ events.*2 ->
  frame l events amb = Ok l' ->
  running l' = false /\ run l' rest = Ok l'.
Proof.
  intros Hq H. unfold frame in H.
  destruct (handle_events l events) as [l1|] eqn:E; [|discriminate].
  rewrite bind_Ok in H.
  pose proof (events_keep_stopped l l1 events E (or_intror Hq)) as Hr.
  assert (Hr' : running l' = false).
  { unfold end_of_frame in H. destruct (negb (color_selection l1)).
    - destruct (if ai_thinking (self_ l1) && negb (game_over (self_ l1))
                then ai_turn (engine_play amb) (self_ l1) else Ok (self_ l1));
        [|discriminate].
      rewrite bind_Ok in H. injection H as <-. exact Hr.
    - injection H as <-. exact Hr. }
  split; [exact Hr'|]. destruct rest as [|[events' amb'] rest]; cbn; [reflexivity|].
  rewrite Hr'. reflexivity.
Qed.

(** ** Pieces on the screen *)

Lemma square_to_pixel_inj (pc : option bool) (a b : Square) :
  0 <= a < 64 -> 0 <= b < 64 -> square_to_pixel pc a = square_to_pixel pc b -> a = b.
Proof.
  intros Ha Hb E.
  assert (Hin : collidepoint (square_rect pc a) (square_to_pixel pc a) = true).
  { unfold square_rect, collidepoint. destruct (square_to_pixel pc a) as [x y].
    cbn. change SQUARE_SIZE with 75. repeat (apply andb_true_iff; split); lia. }
  pose proof Hin as Hin'. unfold square_rect in Hin'. rewrite E in Hin' at 1.
  fold (square_rect pc b) in Hin'. rewrite E in Hin'.
  destruct (square_to_pixel pc b) as [x y] eqn:Eb.
  rewrite E in Hin. 
  apply (pixel_to_square_inside pc a x y Ha) in Hin.
  apply (pixel_to_square_inside pc b x y Hb) in Hin'. congruence.
Qed.

Lemma range_elem (n : nat) (z : Z) : z ∈ range n <-> 0 <= z < Z.of_nat n.
Proof.
  unfold range. rewrite list_elem_of_fmap. split.
  - intros (k & -> & Hk). apply elem_of_seq in Hk. lia.
  - intros Hz. exists (Z.to_nat z). split; [lia|]. apply elem_of_seq. lia.
Qed.

Lemma sprite_key_bool (piece : Piece) : str_bool (sprite_key piece) = true.
Proof. destruct piece as [[] []]; reflexivity. Qed.

(** X13.  Each piece whose sprite is loaded is drawn once per frame: on its
    own square, five pixels inside the square's rectangle, unless it is the
    piece being dragged, which is left off its square and drawn centred on
    the pointer instead.  A piece whose sprite is missing is not drawn. *)
Theorem pieces_drawn_once (piece_images : gset string) (l : Loop) (sq : Square)
    (piece : Piece) :
  reachable l ->
  0 <= sq < 64 ->
  piece_at (board (self_ l)) sq = Some piece ->
  let '(x, y) := square_to_pixel (player_color (self_ l)) sq in
  (Blit (Sprite (sprite_key piece)) (x + 5, y + 5) ∈ draw_pieces piece_images (self_ l) <->
   sprite_key piece ∈ piece_images /\ selected_square (self_ l) <> Some sq) /\
  (selected_square (self_ l) = Some sq ->
   exists mouse_x mouse_y,
     selected_piece_pos (self_ l) = Some (mouse_x, mouse_y) /\
     draw_selected_piece piece_images (self_ l)
       = if bool_decide (sprite_key piece ∈ piece_images)
         then [Blit (Sprite (sprite_key piece))
                 (mouse_x - PIECE_SIZE / 2, mouse_y - PIECE_SIZE / 2)]
         else []) /\
  (selected_square (self_ l) = None -> draw_selected_piece piece_images (self_ l) = []).
Proof.
  intros Hl Hsq Hpiece.
  pose proof (reachable_sound l Hl) as Hs.
  pose proof (reachable_consistent l Hl) as Hc.
  destruct (square_to_pixel (player_color (self_ l)) sq) as [x y] eqn:Hxy.
  split; [|split].
  - unfold draw_pieces. rewrite list_elem_of_bind. split.
    + intros (sq' & Hin & Hsq'). apply range_elem in Hsq'.
      destruct (piece_at (board (self_ l)) sq') as [piece'|] eqn:Hp'; [|inversion Hin].
      destruct (negb (bool_decide (Some sq' = selected_square (self_ l))) ||
                negb (opt_str_bool (selected_piece (self_ l)))) eqn:Hshown;
        [|inversion Hin].
      case_bool_decide as Hkey; [|inversion Hin].
      destruct (square_to_pixel (player_color (self_ l)) sq') as [x' y'] eqn:Hxy'.
      apply list_elem_of_singleton in Hin. injection Hin as Hk Hx Hy.
      assert (sq' = sq) as ->.
      { apply (square_to_pixel_inj (player_color (self_ l))); [lia | lia |].
        rewrite Hxy, Hxy'. f_equal; lia. }
      assert (piece' = piece) as -> by congruence.
      split; [exact Hkey|]. intros Hsel.
      destruct (s_selection _ Hs sq Hsel) as (_ & piece' & Hp2 & Hname & _).
      rewrite Hsel, Hname in Hshown. cbn in Hshown.
      rewrite bool_decide_eq_true_2, sprite_key_bool in Hshown by reflexivity.
      discriminate.
    + intros [Hkey Hsel]. exists sq. split; [|apply range_elem; lia].
      rewrite Hpiece.
      rewrite (bool_decide_eq_false_2 (Some sq = selected_square (self_ l))) by congruence.
      cbn [negb orb]. rewrite bool_decide_eq_true_2 by exact Hkey.
      rewrite Hxy. apply list_elem_of_singleton. reflexivity.
  - intros Hsel. destruct (s_selection _ Hs sq Hsel) as (_ & piece' & Hp2 & Hname & Hpos & _).
    assert (piece' = piece) as -> by congruence.
    destruct Hpos as [[mx my] Hpos]. exists mx, my. split; [exact Hpos|].
    unfold draw_selected_piece. rewrite Hname, Hpos, sprite_key_bool. reflexivity.
  - intros Hnone. destruct (c_selection _ Hc Hnone) as (_ & _ & Hsp & _).
    unfold draw_selected_piece. rewrite Hsp. reflexivity.
Qed.

(** ** The human's turn *)

(** X14.  A left release on a square that is not a legal destination of the
    selected piece, or outside the board, only clears the selection: the
    board, the history, the tallies, the clocks and the flags stay as they
    were and it is still the human's turn. *)
Theorem release_off_target_reverts (amb : Ambient) (l : Loop) (pos : Z * Z)
    (selected : Square) :
  phase l = HumanTurn ->
  selected_square (self_ l) = Some selected ->
  match pixel_to_square (player_color (self_ l)) (mouse_get_pos amb) with
  | Some target =>
      {| from_square := selected; to_square := target; promotion := None |}
        ∉ valid_moves (self_ l)
  | None => True
  end ->
  handle_event amb l (MOUSEBUTTONUP pos 1) = Ok (with_self l (deselected (self_ l))) /\
  phase (with_self l (deselected (self_ l))) = HumanTurn /\
  selection_empty (deselected (self_ l)).
Proof.
  intros Hphase Hsel Hoff.
  assert (color_selection l = false /\ game_over (self_ l) = false /\
          ai_thinking (self_ l) = false) as (Hcs & Hgo & Hai).
  { unfold phase in Hphase. destruct (color_selection l); [discriminate|].
    destruct (game_over (self_ l)); [discriminate|].
    destruct (ai_thinking (self_ l)); [discriminate | auto]. }
  split; [|split].
  - unfold handle_event. rewrite Hcs, Hgo, Hai, Hsel. cbn [negb andb Z.eqb Pos.eqb].
    rewrite (release_reverted selected (mouse_get_pos amb) (self_ l) Hoff). reflexivity.
  - unfold phase. cbn. rewrite Hcs, Hgo, Hai. reflexivity.
  - repeat split.
Qed.


(** ** Data kept by a session *)

(** X15.  The tallies always have exactly the two keys "w" and "b", and
    every entry is one of the six upper-case piece letters. *)
Theorem tallies_hold_piece_letters (l : Loop) (k : string) (tally : list string) :
  reachable l ->
  dom (captured_pieces (self_ l)) = ({["w"; "b"]} : gset string) /\
  (captured_pieces (self_ l) !! k = Some tally ->
   (k = "w" \/ k = "b") /\ Forall (λ kind, kind ∈ piece_letters) tally).
Proof.
  intros Hl. pose proof (reachable_sound l Hl) as Hs.
  split; [apply Hs|]. intros Hk. split; [|apply (s_letters _ Hs k tally Hk)].
  assert (Hin : k ∈ dom (captured_pieces (self_ l))) by (apply elem_of_dom; eauto).
  rewrite (s_keys _ Hs) in Hin. set_solver.
Qed.

(** X16.  The winner is never anything but unset, "White" or "Black", so the
    announcement reads "Draw!", "White wins!" or "Black wins!". *)
Theorem announcement_texts (l : Loop) :
  reachable l ->
  (winner (self_ l) = None /\ announcement (self_ l) = "Draw!") \/
  (winner (self_ l) = Some "White" /\ announcement (self_ l) = "White wins!") \/
  (winner (self_ l) = Some "Black" /\ announcement (self_ l) = "Black wins!").
Proof.
  intros Hl. unfold announcement.
  destruct (s_winner _ (reachable_sound l Hl)) as [-> | [-> | ->]]; auto.
Qed.

End Sessions.

(** * Drawing *)

Lemma range_checked (n : nat) (P : Z -> bool) :
  forallb P (range n) = true -> forall z, 0 <= z < Z.of_nat n -> P z = true.
Proof.
  intros H z Hz. rewrite forallb_forall in H. apply H.
  apply list_elem_of_In, range_elem, Hz.
Qed.

(** ** The board *)

(** X11.  The cell drawn under a square is light or dark by the parity of its
    row and column on the screen.  For a human playing White that is the
    chessboard's colouring (a1 dark: dark exactly when file plus rank is
    even); for a human playing Black, whose board is flipped by ranks only,
    every square is drawn in the opposite colour. *)
Theorem square_colours (player_color : option bool) (sq : Square) :
  0 <= sq < 64 ->
  let even := (square_file sq + square_rank sq) mod 2 =? 0 in
  let dark := if truthy player_color then even else negb even in
  DrawRect (if dark then Colors.DARK_SQUARE else Colors.LIGHT_SQUARE)
    (square_rect player_color sq) 0 ∈ draw_board player_color /\
  DrawRect (if dark then Colors.LIGHT_SQUARE else Colors.DARK_SQUARE)
    (square_rect player_color sq) 0 ∉ draw_board player_color.
Proof.
  intros Hsq even dark. subst even dark.
  pose (check := λ pc sq,
    let even := (square_file sq + square_rank sq) mod 2 =? 0 in
    let dark := if truthy pc then even else negb even in
    bool_decide (DrawRect (if dark then Colors.DARK_SQUARE else Colors.LIGHT_SQUARE)
                   (square_rect pc sq) 0 ∈ draw_board pc) &&
    negb (bool_decide (DrawRect (if dark then Colors.LIGHT_SQUARE else Colors.DARK_SQUARE)
                         (square_rect pc sq) 0 ∈ draw_board pc))).
  assert (Hall : forall pc, forallb (check pc) (range 64) = true).
  { intros [[]|]; vm_compute; reflexivity. }
  pose proof (range_checked 64 (check player_color) (Hall player_color) sq Hsq) as H.
  unfold check in H. cbn zeta in H. apply andb_true_iff in H as [H1 H2].
  apply bool_decide_eq_true in H1. apply negb_true_iff, bool_decide_eq_false in H2.
  auto.
Qed.

(** X12.  The file letters are drawn under the columns of their files for
    either colour.  The rank numbers are drawn 8 down to 1 from the top
    whatever the orientation: level with a square stands its own rank number
    when the human plays White, and the number of the mirrored rank, never
    its own, when the human plays Black. *)
Theorem coordinate_labels (player_color : option bool) (sq : Square) :
  0 <= sq < 64 ->
  let '(x, y) := square_to_pixel player_color sq in
  let label text dest := Blit (Text 16 false text Colors.TEXT_COLOR) dest in
  let beside := (MARGIN - 20, y + SQUARE_SIZE / 2 - 8) in
  label (String (ascii_of_nat (Z.to_nat (97 + square_file sq))) "")
        (x + SQUARE_SIZE / 2 - 5, MARGIN + BOARD_SIZE + 5) ∈ draw_board player_color /\
  if truthy player_color
  then label (pretty (square_rank sq + 1)) beside ∈ draw_board player_color
  else label (pretty (8 - square_rank sq)) beside ∈ draw_board player_color /\
       label (pretty (square_rank sq + 1)) beside ∉ draw_board player_color.
Proof.
  intros Hsq.
  pose (label := λ text dest, Blit (Text 16 false text Colors.TEXT_COLOR) dest).
  pose (check := λ pc sq,
    let '(x, y) := square_to_pixel pc sq in
    let beside := (MARGIN - 20, y + SQUARE_SIZE / 2 - 8) in
    bool_decide (label (String (ascii_of_nat (Z.to_nat (97 + square_file sq))) "")
                   (x + SQUARE_SIZE / 2 - 5, MARGIN + BOARD_SIZE + 5) ∈ draw_board pc) &&
    if truthy pc
    then bool_decide (label (pretty (square_rank sq + 1)) beside ∈ draw_board pc)
    else bool_decide (label (pretty (8 - square_rank sq)) beside ∈ draw_board pc) &&
         negb (bool_decide (label (pretty (square_rank sq + 1)) beside ∈ draw_board pc))).
  assert (Hall : forall pc, forallb (check pc) (range 64) = true).
  { intros [[]|]; vm_compute; reflexivity. }
  pose proof (range_checked 64 (check player_color) (Hall player_color) sq Hsq) as H.
  unfold check in H. destruct (square_to_pixel player_color sq) as [x y].
  cbn zeta in H. apply andb_true_iff in H as [H1 H2].
  apply bool_decide_eq_true in H1. split; [exact H1|].
  destruct (truthy player_color).
  - apply bool_decide_eq_true in H2. exact H2.
  - apply andb_true_iff in H2 as [H2 H3].
    apply bool_decide_eq_true in H2. apply negb_true_iff, bool_decide_eq_false in H3. auto.
Qed.

(** ** The clocks on the screen *)

Lemma Qfloor_unique (x : Q) (k : Z) :
  (inject_Z k <= x)%Q -> (x < inject_Z (k + 1))%Q -> Qfloor x = k.
Proof.
  intros Hle Hlt.
  pose proof (Qfloor_le x) as H1. pose proof (Qlt_floor x) as H2.
  rewrite inject_Z_plus in Hlt, H2. change (inject_Z 1) with 1%Q in *.
  assert (k < Qfloor x + 1).
  { rewrite Zlt_Qlt, inject_Z_plus. change (inject_Z 1) with 1%Q. lra. }
  assert (Qfloor x < k + 1).
  { rewrite Zlt_Qlt, inject_Z_plus. change (inject_Z 1) with 1%Q. lra. }
  lia.
Qed.

Lemma time_parts (t : Q) :
  let m := Qfloor (t / 60) in
  let s := Qfloor (t - 60 * inject_Z m) in
  0 <= s < 60 /\ 60 * m + s = Qfloor t.
Proof.
  intros m s.
  pose proof (Qfloor_le (t / 60)) as H1. pose proof (Qlt_floor (t / 60)) as H2.
  fold m in H1, H2.
  assert (H3 : (inject_Z m * 60 <= t)%Q).
  { apply (Qmult_le_r _ _ 60) in H1; [|lra]. revert H1. field_simplify (t / 60 * 60)%Q. auto. }
  assert (H4 : (t < inject_Z (m + 1) * 60)%Q).
  { apply (Qmult_lt_r _ _ 60) in H2; [|lra]. revert H2. field_simplify (t / 60 * 60)%Q. auto. }
  rewrite inject_Z_plus in H4.
  pose proof (Qfloor_le (t - 60 * inject_Z m)) as H5.
  pose proof (Qlt_floor (t - 60 * inject_Z m)) as H6. fold s in H5, H6.
  rewrite inject_Z_plus in H6. change (inject_Z 1) with 1%Q in *.
  assert (Hs0 : 0 < s + 1).
  { rewrite Zlt_Qlt, inject_Z_plus. change (inject_Z 1) with 1%Q.
    change (inject_Z 0) with 0%Q. lra. }
  assert (Hs60 : s < 60). { rewrite Zlt_Qlt. change (inject_Z 60) with 60%Q. lra. }
  split; [lia|]. symmetry. apply Qfloor_unique.
  - rewrite inject_Z_plus, inject_Z_mult. change (inject_Z 60) with 60%Q. lra.
  - rewrite !inject_Z_plus, inject_Z_mult. change (inject_Z 60) with 60%Q.
    change (inject_Z 1) with 1%Q. lra.
Qed.

Lemma pad2_checked :
  forallb (λ a, (String.length (pad2 a) =? 2)%nat &&
                forallb (λ b, implb (bool_decide (pad2 a = pad2 b)) (a =? b)) (range 100))
          (range 100) = true.
Proof. vm_compute. reflexivity. Qed.

Lemma pad2_length (a : Z) : 0 <= a < 100 -> String.length (pad2 a) = 2%nat.
Proof.
  intros Ha. pose proof (range_checked 100 _ pad2_checked a Ha) as H.
  apply andb_true_iff in H as [H _]. apply Nat.eqb_eq, H.
Qed.

Lemma pad2_inj (a b : Z) : 0 <= a < 100 -> 0 <= b < 100 -> pad2 a = pad2 b -> a = b.
Proof.
  intros Ha Hb E. pose proof (range_checked 100 _ pad2_checked a Ha) as H.
  apply andb_true_iff in H as [_ H]. rewrite forallb_forall in H.
  specialize (H b (proj1 (list_elem_of_In _ _) (proj2 (range_elem 100 b) Hb))).
  rewrite bool_decide_eq_true_2 in H by exact E. apply Z.eqb_eq, H.
Qed.

Lemma string_app_length (a b : string) :
  String.length (a +:+ b) = (String.length a + String.length b)%nat.
Proof.
  induction a as [|c a IH]; [reflexivity|].
  change (S (String.length (a +:+ b)) = S (String.length a + String.length b)).
  rewrite IH. reflexivity.
Qed.

Lemma string_app_inj (a a' b b' : string) :
  String.length a = String.length a' -> a +:+ b = a' +:+ b' -> a = a' /\ b = b'.
Proof.
  revert a'. induction a as [|c a IH]; intros [|c' a'] Hlen E; try discriminate.
  - auto.
  - cbn in Hlen, E. injection Hlen as Hlen. injection E as -> E.
    destruct (IH a' Hlen E) as [-> ->]. auto.
Qed.

Lemma reading_inj (m s m' s' : Z) :
  0 <= m < 100 -> 0 <= s < 100 -> 0 <= m' < 100 -> 0 <= s' < 100 ->
  pad2 m +:+ ":" +:+ pad2 s = pad2 m' +:+ ":" +:+ pad2 s' -> m = m' /\ s = s'.
Proof.
  intros Hm Hs Hm' Hs' E.
  apply string_app_inj in E as [E1 E2]; [|rewrite !pad2_length by assumption; reflexivity].
  apply (string_app_inj ":" ":") in E2 as [_ E2]; [|reflexivity].
  split; apply pad2_inj; assumption.
Qed.

(** X9.  A clock below 100 minutes is shown as five characters, two digits
    of minutes, a colon and two digits of seconds, which together read the
    whole seconds left; two readings are shown alike exactly when they have
    the same whole seconds; and a clock at or below zero is shown as
    00:00, so that [draw_timers] writes "White: 00:00" for an expired White
    clock. *)
Theorem clock_display (t t' : Q) :
  (0 <= t < 6000)%Q ->
  (0 <= t' < 6000)%Q ->
  (exists m s, 0 <= m < 100 /\ 0 <= s < 60 /\ 60 * m + s = Qfloor t /\
     format_time t = pad2 m +:+ ":" +:+ pad2 s /\
     String.length (format_time t) = 5%nat) /\
  (format_time t = format_time t' <-> Qfloor t = Qfloor t') /\
  (forall expired, (expired <= 0)%Q -> format_time (max0 expired) = "00:00") /\
  (forall (R : Rules) (self : @ChessGame R),
     (white_time self <= 0)%Q ->
     exists black,
       draw_timers self
       = [ Blit (Text 36 false "White: 00:00" Colors.TEXT_COLOR) (670, 20); black ]).
Proof.
  intros Ht Ht'.
  assert (Hparts : forall u, (0 <= u < 6000)%Q ->
            let m := Qfloor (u / 60) in
            let s := Qfloor (u - 60 * inject_Z m) in
            0 <= m < 100 /\ 0 <= s < 60 /\ 60 * m + s = Qfloor u).
  { intros u Hu m s. destruct (time_parts u) as [Hs Hsum]. fold m s in Hs, Hsum.
    split; [|auto].
    assert (0 <= Qfloor u < 6000).
    { split.
      - change 0 with (Qfloor 0). apply Qfloor_resp_le. lra.
      - pose proof (Qfloor_le u). rewrite Zlt_Qlt. change (inject_Z 6000) with 6000%Q. lra. }
    lia. }
  split; [|split; [|split]].
  - destruct (Hparts t Ht) as (Hm & Hs & Hsum).
    eexists _, _. split; [exact Hm|]. split; [exact Hs|]. split; [exact Hsum|].
    split; [reflexivity|]. unfold format_time.
    rewrite !string_app_length, !pad2_length by lia. reflexivity.
  - destruct (Hparts t Ht) as (Hm & Hs & Hsum).
    destruct (Hparts t' Ht') as (Hm' & Hs' & Hsum').
    unfold format_time. split.
    + intros E.
      apply reading_inj in E as [E1 E2]; [|lia..]. lia.
    + intros E.
      assert (Qfloor (t / 60) = Qfloor (t' / 60)) as -> by lia.
      assert (Qfloor (t - 60 * inject_Z (Qfloor (t' / 60)))
              = Qfloor (t' - 60 * inject_Z (Qfloor (t' / 60)))) as ->.
      { revert Hsum. intros Hsum. 
        assert (Em : Qfloor (t / 60) = Qfloor (t' / 60)) by lia.
        rewrite Em in Hsum. lia. }
      reflexivity.
  - intros expired He. unfold max0.
    rewrite (proj2 (Qle_bool_iff expired 0) He). reflexivity.
  - intros R self He. unfold draw_timers, max0.
    rewrite (proj2 (Qle_bool_iff (white_time self) 0) He). eexists. reflexivity.
Qed.

(** ** The history panel *)

Lemma history_rows_cons (h : list string) (i : nat) (rest : list nat) (y : Z) :
  history_rows h (i :: rest) y =
    (white ← list_get h i;
     row ←
       (if (i + 1 <? length h)%nat then
          black ← list_get h (i + 1);
          Ok ([ (16, false, pretty (Z.of_nat i / 2 + 1) +:+ ". " +:+ white, Colors.BLACK,
                 (10, y)) ] ++
              [ (16, false, black, [70; 70; 70], (SIDE_PANEL_WIDTH / 2 + 10, y)) ])
        else Ok [ (16, false, pretty (Z.of_nat i / 2 + 1) +:+ ". " +:+ white, Colors.BLACK,
                   (10, y)) ]);
     if y + 25 + 25 >? panel_height then Ok row
     else more ← history_rows h rest (y + 25); Ok (row ++ more)).
Proof. reflexivity. Qed.

Lemma history_rows_step (h : list string) (k : nat) (rest : list nat) :
  (2 * k < length h)%nat ->
  history_rows h ((2 * k)%nat :: rest) (40 + 25 * Z.of_nat k) =
    if 40 + 25 * Z.of_nat k + 25 + 25 >? panel_height then Ok (history_row h k)
    else more ← history_rows h rest (40 + 25 * Z.of_nat k + 25);
         Ok (history_row h k ++ more).
Proof.
  intros Hk. rewrite history_rows_cons. unfold list_get, history_row.
  destruct (lookup_lt_is_Some_2 h (2 * k) Hk) as [white ->]. rewrite bind_Ok.
  replace (Z.of_nat (2 * k) / 2) with (Z.of_nat k)
    by (rewrite Nat2Z.inj_mul, Z.mul_comm, Z.div_mul; lia).
  destruct (Nat.ltb_spec (2 * k + 1) (length h)) as [Hlt | Hge].
  - destruct (lookup_lt_is_Some_2 h (2 * k + 1) Hlt) as [black ->]. reflexivity.
  - rewrite (lookup_ge_None_2 h (2 * k + 1)) by lia. reflexivity.
Qed.

Lemma history_rows_from (h : list string) (cnt k : nat) :
  (2 * (k + cnt) <= length h + 1)%nat ->
  (k <= 32)%nat ->
  history_rows h ((λ j, 2 * j)%nat <$> seq k cnt) (40 + 25 * Z.of_nat k)
  = Ok (seq k (min cnt (33 - k)) ≫= history_row h).
Proof.
  revert k. induction cnt as [|cnt IH]; intros k Hn Hk; [reflexivity|].
  rewrite <- cons_seq, fmap_cons, history_rows_step by lia.
  change panel_height with 880.
  destruct (Z.gtb_spec (40 + 25 * Z.of_nat k + 25 + 25) 880) as [Hbreak | Hgo].
  - assert (k = 32)%nat as -> by lia. cbn [Nat.sub]. rewrite Nat.min_r by lia.
    cbn [seq]. rewrite bind_cons. symmetry. f_equal. apply app_nil_r.
  - replace (40 + 25 * Z.of_nat k + 25) with (40 + 25 * Z.of_nat (S k)) by lia.
    rewrite IH by lia. rewrite bind_Ok.
    replace (min (S cnt) (33 - k)) with (S (min cnt (33 - S k))) by lia.
    rewrite <- cons_seq, bind_cons. reflexivity.
Qed.

Lemma bind_ext_in {A B : Type} (f g : A -> list B) (l : list A) :
  (forall x, x ∈ l -> f x = g x) -> l ≫= f = l ≫= g.
Proof.
  induction l as [|x l IH]; intros H; [reflexivity|].
  rewrite !bind_cons, (H x), IH; [reflexivity | | left].
  intros y Hy. apply H. right. exact Hy.
Qed.

(** X10.  The history panel never fails on an index and shows one row per
    full move from the top: row [k], 25 pixels below the one before, holds
    the number [k + 1] with White's move and, when it was played, Black's.
    It holds 33 rows, and it fills from the first move: from the 67th ply on,
    new moves are not shown. *)
Theorem history_panel_rows (move_history : list string) :
  let shown := min (Nat.div2 (length move_history + 1)) 33 in
  history_rows move_history (range_by_two (length move_history)) 40
    = Ok (seq 0 shown ≫= history_row move_history) /\
  (exists screen, draw_move_history move_history = Ok screen) /\
  draw_move_history move_history = draw_move_history (take 66 move_history).
Proof.
  intros shown. subst shown.
  assert (Hrows : forall h,
            history_rows h (range_by_two (length h)) 40
            = Ok (seq 0 (min (Nat.div2 (length h + 1)) 33) ≫= history_row h)).
  { intros h. unfold range_by_two.
    pose proof (history_rows_from h (Nat.div2 (length h + 1)) 0) as E.
    rewrite Nat.sub_0_r in E. apply E; [|lia].
    pose proof (Nat.div2_odd (length h + 1)) as Ed.
    destruct (Nat.odd (length h + 1)); cbn [Nat.b2n] in Ed; lia. }
  split; [apply Hrows|]. split.
  - unfold draw_move_history. cbn zeta. change (10 + 30) with 40.
    rewrite Hrows, bind_Ok. eauto.
  - unfold draw_move_history. cbn zeta. change (10 + 30) with 40.
    rewrite !Hrows, !bind_Ok. do 4 f_equal.
    rewrite length_take.
    assert (Hdiv : forall n, (2 * Nat.div2 n <= n <= 2 * Nat.div2 n + 1)%nat).
    { intros n. pose proof (Nat.div2_odd n) as E.
      destruct (Nat.odd n); cbn [Nat.b2n] in E; lia. }
    assert (Hsame : min (Nat.div2 (length move_history + 1)) 33
                    = min (Nat.div2 (66 `min` length move_history + 1)) 33).
    { pose proof (Hdiv (length move_history + 1)%nat).
      pose proof (Hdiv (66 `min` length move_history + 1)%nat). lia. }
    rewrite <- Hsame. f_equal. apply bind_ext_in. intros k Hk. apply elem_of_seq in Hk.
    unfold history_row. rewrite !lookup_take_lt by lia. reflexivity.
Qed.

(** * The further theorems at concrete inputs *)

Lemma end_outcome (amb : Ambient) (l : @Loop Mini.rules) :
  reachable l ->
  end_of_frame amb l = Ok (Games.outcome (end_of_frame amb l)) /\
  reachable (Games.outcome (end_of_frame amb l)).
Proof.
  intros Hl. destruct (step_end_of_frame amb l (reachable_consistent l Hl)) as (l' & Hrun & _).
  rewrite Hrun. split; [reflexivity|]. apply (reachable_end_of_frame l amb l' Hl Hrun).
Qed.


Lemma after_capture_reachable : reachable Games.after_capture.
Proof. apply event_outcome, capture_picked_reachable. Qed.

Lemma moves_pushed_are_legal_witness :
  Forall (λ pm, pm.2 ∈ Mini.legal pm.1) (move_stack (board (self_ Games.mated))).
Proof. apply (moves_pushed_are_legal (R := Mini.rules) Games.mated mated_reachable). Defined.

Lemma highlights_show_legal_moves_witness :
  valid_moves (self_ Games.capture_picked)
    = filter (λ move, from_square move = 28)
        (legal_moves (board (self_ Games.capture_picked))) /\
  valid_moves (self_ Games.capture_picked) = [Games.simple 28 36; Games.simple 28 35].
Proof.
  destruct (highlights_show_legal_moves (R := Mini.rules) Games.capture_picked 28
              capture_picked_reachable) as [H _].
  - vm_compute. reflexivity.
  - split; [exact H|]. vm_compute. reflexivity.
Defined.

Lemma flags_agree_witness :
  checkmate_popup (self_ Games.mated) = game_over (self_ Games.mated) /\
  game_over (self_ Games.mated) = true.
Proof.
  destruct (flags_agree (R := Mini.rules) Games.mated mated_reachable) as [H _].
  split; [exact H|]. vm_compute. reflexivity.
Defined.

Lemma colour_selection_is_fresh_witness :
  handle_event (Games.pointer 5 (0, 0)) (start (R := Mini.rules) 0 true) (KEYDOWN K_u)
    = Ok (start 0 true).
Proof.
  destruct (colour_selection_is_fresh (R := Mini.rules) (Games.pointer 5 (0, 0))
              (start 0 true) (KEYDOWN K_u) (reachable_start 0 true) eq_refl) as [_ H].
  apply H. reflexivity.
Defined.

Lemma choosing_time_is_charged_witness :
  exists l2,
    end_of_frame (Games.answer 30 Failed)
      (Games.outcome (handle_event (Games.pointer 30 (300, 320)) (start 0 true)
                        (MOUSEBUTTONDOWN (300, 320) 1))) = Ok l2 /\
    white_time (self_ l2) = (600 - (30 - 0))%Q /\ black_time (self_ l2) = 600%Q.
Proof.
  destruct (event_outcome (Games.pointer 30 (300, 320)) (start 0 true)
              (MOUSEBUTTONDOWN (300, 320) 1) (reachable_start 0 true)) as [H1 Hr1].
  destruct (end_outcome (Games.answer 30 Failed) _ Hr1) as [H2 _].
  eexists. split; [exact H2|].
  apply (choosing_time_is_charged (R := Mini.rules) (Games.pointer 30 (300, 320))
           (Games.answer 30 Failed) (start 0 true) _ _ (300, 320) 1
           (reachable_start 0 true) eq_refl eq_refl H1 H2).
Defined.

Lemma engine_time_charged_to_next_mover_witness :
  exists l',
    end_of_frame (Games.answer 4 (Played (Some (Games.simple 52 36)))) Games.awaiting_reply
      = Ok l' /\
    white_time (self_ l')
      = (white_time (self_ Games.awaiting_reply)
         - (4 - last_time (self_ Games.awaiting_reply)))%Q /\
    black_time (self_ l') = black_time (self_ Games.awaiting_reply).
Proof.
  set (amb := Games.answer 4 (Played (Some (Games.simple 52 36)))).
  destruct (end_outcome amb Games.awaiting_reply awaiting_reply_reachable) as [H _].
  exists (Games.outcome (end_of_frame amb Games.awaiting_reply)). split; [exact H|].
  assert (Hp : phase Games.awaiting_reply = EngineTurn) by (vm_compute; reflexivity).
  assert (Hm : playable (self_ Games.awaiting_reply)
                 (get_ai_move (engine_play amb) (self_ Games.awaiting_reply))
               = Some (Games.simple 52 36))
    by (vm_compute; reflexivity).
  pose proof (engine_time_charged_to_next_mover (R := Mini.rules) amb Games.awaiting_reply
                (Games.outcome (end_of_frame amb Games.awaiting_reply)) (Games.simple 52 36)
                awaiting_reply_reachable Hp Hm H) as Hclocks.
  cbv zeta in Hclocks. destruct Hclocks as [_ Hclocks].
  assert (Ho : is_game_over (push (board (self_ Games.awaiting_reply)) (Games.simple 52 36))
               = false) by (vm_compute; reflexivity).
  assert (Ht : turn (push (board (self_ Games.awaiting_reply)) (Games.simple 52 36)) = true)
    by (vm_compute; reflexivity).
  rewrite Ho, Ht in Hclocks. exact Hclocks.
Defined.

Lemma quit_stops_the_run_witness :
  run {| self_ := ChessGame_init (R := Mini.rules) 0 true;
         color_selection := true; running := false |}
      [Games.choose_white 1%Q]
  = Ok {| self_ := ChessGame_init 0 true; color_selection := true; running := false |}.
Proof.
  apply (quit_stops_the_run (R := Mini.rules) (start 0 true) _
           [(Games.pointer 0 (0, 0), QUIT)] (Games.answer 0 Failed)).
  - apply list_elem_of_singleton. reflexivity.
  - reflexivity.
Defined.

Lemma square_colours_witness :
  DrawRect Colors.DARK_SQUARE (square_rect (Some WHITE) 0) 0 ∈ draw_board (Some WHITE) /\
  DrawRect Colors.LIGHT_SQUARE (square_rect (Some BLACK) 0) 0 ∈ draw_board (Some BLACK).
Proof.
  split.
  - apply (square_colours (Some WHITE) 0). lia.
  - apply (square_colours (Some BLACK) 0). lia.
Defined.

Lemma coordinate_labels_witness :
  Blit (Text 16 false "8" Colors.TEXT_COLOR) (MARGIN - 20, 50 + SQUARE_SIZE / 2 - 8)
    ∈ draw_board (Some BLACK) /\
  Blit (Text 16 false "1" Colors.TEXT_COLOR) (MARGIN - 20, 50 + SQUARE_SIZE / 2 - 8)
    ∉ draw_board (Some BLACK).
Proof.
  pose proof (coordinate_labels (Some BLACK) 0) as H. cbn beta iota zeta in H.
  apply H. lia.
Defined.

Lemma clock_display_witness :
  String.length (format_time (5995 # 10)) = 5%nat /\
  (format_time (5995 # 10) = format_time (5992 # 10) <->
   Qfloor (5995 # 10) = Qfloor (5992 # 10)).
Proof.
  destruct (clock_display (5995 # 10) (5992 # 10)) as ((m & s & _ & _ & _ & _ & H) & H' & _).
  - split; [discriminate | reflexivity].
  - split; [discriminate | reflexivity].
  - split; [exact H | exact H'].
Defined.

Lemma pieces_drawn_once_witness :
  selected_square (self_ Games.capture_picked) = Some 28 /\
  forall piece_images,
    Blit (Sprite "wp") (350 + 5, 350 + 5)
      ∉ draw_pieces piece_images (self_ Games.capture_picked).
Proof.
  split; [vm_compute; reflexivity|]. intros piece_images.
  pose proof (pieces_drawn_once (R := Mini.rules) piece_images Games.capture_picked 28
                {| piece_type := PAWN; color := WHITE |} capture_picked_reachable) as H.
  assert (Hxy : square_to_pixel (player_color (self_ Games.capture_picked)) 28 = (350, 350))
    by (vm_compute; reflexivity).
  rewrite Hxy in H. destruct H as [H _].
  - lia.
  - vm_compute. reflexivity.
  - intros Hin. apply H in Hin as [_ Hne]. apply Hne. vm_compute. reflexivity.
Defined.

Lemma release_off_target_reverts_witness :
  handle_event (Games.pointer 2 (Games.centre Games.as_white 0)) Games.capture_picked
    (MOUSEBUTTONUP (Games.centre Games.as_white 0) 1)
  = Ok (with_self Games.capture_picked (deselected (self_ Games.capture_picked))).
Proof.
  apply (release_off_target_reverts (R := Mini.rules)
           (Games.pointer 2 (Games.centre Games.as_white 0)) Games.capture_picked
           (Games.centre Games.as_white 0) 28).
  - vm_compute. reflexivity.
  - vm_compute. reflexivity.
  - assert (E : pixel_to_square (player_color (self_ Games.capture_picked))
                  (mouse_get_pos (Games.pointer 2 (Games.centre Games.as_white 0))) = Some 0)
      by (vm_compute; reflexivity).
    rewrite E. apply (bool_decide_unpack _). vm_compute. exact I.
Defined.


Lemma tallies_hold_piece_letters_witness :
  captured_pieces (self_ Games.after_capture) !! "b" = Some ["P"] /\
  Forall (λ kind, kind ∈ piece_letters) ["P"].
Proof.
  assert (Hb : captured_pieces (self_ Games.after_capture) !! "b" = Some ["P"])
    by (vm_compute; reflexivity).
  split; [exact Hb|].
  apply (tallies_hold_piece_letters (R := Mini.rules) Games.after_capture "b" ["P"]
           after_capture_reachable), Hb.
Defined.

Lemma announcement_texts_witness :
  announcement (self_ Games.mated) = "Black wins!".
Proof.
  destruct (announcement_texts (R := Mini.rules) Games.mated mated_reachable)
    as [[H _] | [[H _] | [_ H]]]; [exfalso..|exact H];
    vm_compute in H; discriminate H.
Defined.
